(** * CodaLab bundle model: a shallow embedding of [codalab/model/bundle_model.py]

    [BundleModel] wraps the database calls that save and load bundles,
    worksheets, groups and permissions.  The development has these layers:

    - [Tables]: the rows of the tables the model reads and writes, and the
      database as the collection of those tables;
    - [Sql]: the SQL expression language the model builds (the clauses made
      with [and_], [or_], [not_], [in_], [like], [==]) and its evaluation
      over the database, with SQL's three-valued logic;
    - [Txn]: the exceptions, and the transaction of
      [with self.engine.begin() as connection];
    - [BundleModel]: the methods of the class, one definition per method,
      under the method's name;
    - [Spec] and [Reference]: the vocabulary of the properties, and a
      storage engine with sample data on which the methods are run;
    - [More] and [Samples]: further methods of the class, with their
      vocabulary and sample data;
    - the properties, component by component. *)

From Stdlib Require Import ZArith String Ascii List Bool Lia DecimalString.
From stdpp Require Import base option list gmap strings.

Set Warnings "-register-all,-clear-no-such-hyp".

Local Open Scope string_scope.
Local Open Scope list_scope.
Local Open Scope Z_scope.

(** ** The tables *)
Module Tables.

(** A row of [bundle]. *)
Record bundle_row := mk_bundle {
  b_id : Z;
  b_uuid : string;
  b_bundle_type : string;
  b_command : option string;
  b_data_hash : option string;
  b_state : string;
  b_owner_id : option string
}.

(** A row of [bundle_dependency]: [child_uuid] depends on [parent_uuid]. *)
Record dependency_row := mk_dependency {
  d_child_uuid : string;
  d_child_path : string;
  d_parent_uuid : string
}.

(** A row of [bundle_metadata]. *)
Record metadata_row := mk_metadata {
  m_bundle_uuid : string;
  m_metadata_key : string;
  m_metadata_value : string
}.

(** A row of [worksheet_item]. *)
Record item_row := mk_item {
  i_id : Z;
  i_worksheet_uuid : string;
  i_bundle_uuid : option string;
  i_subworksheet_uuid : option string;
  i_value : option string;
  i_type : string;
  i_sort_key : option Z
}.

(** A row of [group]. *)
Record group_row := mk_group {
  g_uuid : string;
  g_name : string;
  g_owner_id : option string
}.

(** A row of [user_group]: the user is a member of the group. *)
Record user_group_row := mk_user_group {
  ug_group_uuid : string;
  ug_user_id : string;
  ug_is_admin : bool
}.

(** A row of [group_bundle_permission] or of [group_object_permission]
    (imported as [cl_group_worksheet_permission]). *)
Record permission_row := mk_permission {
  p_group_uuid : string;
  p_object_uuid : string;
  p_permission : Z
}.

(** The state of the storage engine.  [next_item_id] is the auto-increment
    counter of [worksheet_item]. *)
Record database := mk_database {
  bundle : list bundle_row;
  bundle_dependency : list dependency_row;
  bundle_metadata : list metadata_row;
  worksheet_item : list item_row;
  next_item_id : Z;
  group : list group_row;
  user_group : list user_group_row;
  group_bundle_permission : list permission_row;
  group_worksheet_permission : list permission_row
}.

Definition empty_database : database :=
  mk_database [] [] [] [] 1 [] [] [] [].

#[global] Instance bundle_row_eq_dec : EqDecision bundle_row.
Proof. solve_decision. Defined.
#[global] Instance dependency_row_eq_dec : EqDecision dependency_row.
Proof. solve_decision. Defined.
#[global] Instance metadata_row_eq_dec : EqDecision metadata_row.
Proof. solve_decision. Defined.
#[global] Instance item_row_eq_dec : EqDecision item_row.
Proof. solve_decision. Defined.
#[global] Instance permission_row_eq_dec : EqDecision permission_row.
Proof. solve_decision. Defined.

End Tables.
Export Tables.

(** ** SQL expressions and their evaluation *)
Module Sql.

(** A value held by a column or bound as a parameter of a statement. *)
Inductive val :=
| VNull
| VInt (z : Z)
| VStr (s : string).

#[global] Instance val_eq_dec : EqDecision val.
Proof. solve_decision. Defined.

Definition opt_str (o : option string) : val :=
  match o with Some s => VStr s | None => VNull end.

Definition opt_int (o : option Z) : val :=
  match o with Some z => VInt z | None => VNull end.

(** The tables a statement can name. *)
Inductive table :=
| t_bundle
| t_bundle_dependency
| t_bundle_metadata
| t_worksheet_item
| t_group
| t_user_group
| t_group_bundle_permission
| t_group_worksheet_permission.

#[global] Instance table_eq_dec : EqDecision table.
Proof. solve_decision. Defined.

(** The two permission tables have the same columns; the methods that work
    on either take the table as an argument. *)
Inductive object_kind :=
| of_bundle
| of_worksheet.

#[global] Instance object_kind_eq_dec : EqDecision object_kind.
Proof. solve_decision. Defined.

Definition permission_table (k : object_kind) : table :=
  match k with
  | of_bundle => t_group_bundle_permission
  | of_worksheet => t_group_worksheet_permission
  end.

(** The columns [table.c.<name>] the model refers to. *)
Inductive column :=
| c_bundle_id | c_bundle_uuid | c_bundle_bundle_type | c_bundle_command
| c_bundle_data_hash | c_bundle_state | c_bundle_owner_id
| c_dep_child_uuid | c_dep_child_path | c_dep_parent_uuid
| c_meta_bundle_uuid | c_meta_metadata_key | c_meta_metadata_value
| c_item_id | c_item_worksheet_uuid | c_item_bundle_uuid
| c_item_subworksheet_uuid | c_item_value | c_item_type | c_item_sort_key
| c_group_uuid | c_group_name | c_group_owner_id
| c_ug_group_uuid | c_ug_user_id
| c_perm_group_uuid (k : object_kind) | c_perm_object_uuid (k : object_kind)
| c_perm_permission (k : object_kind).

#[global] Instance column_eq_dec : EqDecision column.
Proof. solve_decision. Defined.

Definition table_of (c : column) : table :=
  match c with
  | c_bundle_id | c_bundle_uuid | c_bundle_bundle_type | c_bundle_command
  | c_bundle_data_hash | c_bundle_state | c_bundle_owner_id => t_bundle
  | c_dep_child_uuid | c_dep_child_path | c_dep_parent_uuid =>
      t_bundle_dependency
  | c_meta_bundle_uuid | c_meta_metadata_key | c_meta_metadata_value =>
      t_bundle_metadata
  | c_item_id | c_item_worksheet_uuid | c_item_bundle_uuid
  | c_item_subworksheet_uuid | c_item_value | c_item_type
  | c_item_sort_key => t_worksheet_item
  | c_group_uuid | c_group_name | c_group_owner_id => t_group
  | c_ug_group_uuid | c_ug_user_id => t_user_group
  | c_perm_group_uuid k | c_perm_object_uuid k | c_perm_permission k =>
      permission_table k
  end.

(** A row seen through its columns; a column of another table reads NULL. *)
Definition row := column -> val.

Definition row_of_bundle (b : bundle_row) : row := fun c =>
  match c with
  | c_bundle_id => VInt (b_id b)
  | c_bundle_uuid => VStr (b_uuid b)
  | c_bundle_bundle_type => VStr (b_bundle_type b)
  | c_bundle_command => opt_str (b_command b)
  | c_bundle_data_hash => opt_str (b_data_hash b)
  | c_bundle_state => VStr (b_state b)
  | c_bundle_owner_id => opt_str (b_owner_id b)
  | _ => VNull
  end.

Definition row_of_dependency (d : dependency_row) : row := fun c =>
  match c with
  | c_dep_child_uuid => VStr (d_child_uuid d)
  | c_dep_child_path => VStr (d_child_path d)
  | c_dep_parent_uuid => VStr (d_parent_uuid d)
  | _ => VNull
  end.

Definition row_of_metadata (m : metadata_row) : row := fun c =>
  match c with
  | c_meta_bundle_uuid => VStr (m_bundle_uuid m)
  | c_meta_metadata_key => VStr (m_metadata_key m)
  | c_meta_metadata_value => VStr (m_metadata_value m)
  | _ => VNull
  end.

Definition row_of_item (i : item_row) : row := fun c =>
  match c with
  | c_item_id => VInt (i_id i)
  | c_item_worksheet_uuid => VStr (i_worksheet_uuid i)
  | c_item_bundle_uuid => opt_str (i_bundle_uuid i)
  | c_item_subworksheet_uuid => opt_str (i_subworksheet_uuid i)
  | c_item_value => opt_str (i_value i)
  | c_item_type => VStr (i_type i)
  | c_item_sort_key => opt_int (i_sort_key i)
  | _ => VNull
  end.

Definition row_of_group (g : group_row) : row := fun c =>
  match c with
  | c_group_uuid => VStr (g_uuid g)
  | c_group_name => VStr (g_name g)
  | c_group_owner_id => opt_str (g_owner_id g)
  | _ => VNull
  end.

Definition row_of_user_group (u : user_group_row) : row := fun c =>
  match c with
  | c_ug_group_uuid => VStr (ug_group_uuid u)
  | c_ug_user_id => VStr (ug_user_id u)
  | _ => VNull
  end.

Definition row_of_permission (k : object_kind) (p : permission_row) : row :=
  fun c =>
  match c with
  | c_perm_group_uuid k' =>
      if decide (k' = k) then VStr (p_group_uuid p) else VNull
  | c_perm_object_uuid k' =>
      if decide (k' = k) then VStr (p_object_uuid p) else VNull
  | c_perm_permission k' =>
      if decide (k' = k) then VInt (p_permission p) else VNull
  | _ => VNull
  end.

(** The rows of a permission table. *)
Definition permission_rows (db : database) (k : object_kind)
  : list permission_row :=
  match k with
  | of_bundle => group_bundle_permission db
  | of_worksheet => group_worksheet_permission db
  end.

(** The rows of a table, in storage order. *)
Definition rows_of (db : database) (t : table) : list row :=
  match t with
  | t_bundle => row_of_bundle <$> bundle db
  | t_bundle_dependency => row_of_dependency <$> bundle_dependency db
  | t_bundle_metadata => row_of_metadata <$> bundle_metadata db
  | t_worksheet_item => row_of_item <$> worksheet_item db
  | t_group => row_of_group <$> group db
  | t_user_group => row_of_user_group <$> user_group db
  | t_group_bundle_permission =>
      row_of_permission of_bundle <$> group_bundle_permission db
  | t_group_worksheet_permission =>
      row_of_permission of_worksheet <$> group_worksheet_permission db
  end.

(** The row under consideration for each table of a FROM list: the columns of
    table [t] read from [r], the others from [env]. *)
Definition bind_row (t : table) (r : row) (env : row) : row := fun c =>
  if decide (table_of c = t) then r c else env c.

Definition no_row : row := fun _ => VNull.

(** What the storage engine decides and the model does not: how LIKE matches
    a pattern, how a string compared with a number is read as a number, how
    [field * 1] orders two values, what SUM returns, and in which order
    the SELECT of a search and the SELECT of the names of bundles, which
    have no ORDER BY, return the rows they match (the engine reads them
    through an index of its choice): some arrangement of them. *)
Class StorageEngine := {
  like_match : string -> string -> bool;
  cast_num : string -> option Z;
  num_leb : val -> val -> bool;
  sql_sum : list val -> val;
  str_of_num : Z -> string;
  fetch_order : list row -> list row;
  fetch_order_perm : forall rows, fetch_order rows ≡ₚ rows;
  fetch_metadata_order : list metadata_row -> list metadata_row;
  fetch_metadata_order_perm :
    forall rows, fetch_metadata_order rows ≡ₚ rows
}.

(** The clauses the model builds.  [CPyBool] is a Python [True] or [False]
    handed to [and_] or [where], which SQLAlchemy reads as the SQL constant. *)
Inductive clause :=
| CTrue
| CPyBool (b : bool)
| CEq (c : column) (v : val)
| CIsNull (c : column)
| CColEq (c1 c2 : column)
| CLike (c : column) (pat : string)
| CGe (c : column) (z : Z)
| CLe (c : column) (z : Z)
| CIn (c : column) (vs : list val)
| CInSelect (c : column) (sel : column) (whr : clause)
| CAnd (cs : list clause)
| COr (cs : list clause)
| CNot (c : clause).

(** [column == value]: comparing with [None] is rendered IS NULL. *)
Definition col_eq (c : column) (v : val) : clause :=
  match v with
  | VNull => CIsNull c
  | _ => CEq c v
  end.

(** Three-valued connectives: [None] is SQL's NULL (unknown). *)
Definition and3 (a b : option bool) : option bool :=
  match a, b with
  | Some false, _ | _, Some false => Some false
  | Some true, Some true => Some true
  | _, _ => None
  end.

Definition or3 (a b : option bool) : option bool :=
  match a, b with
  | Some true, _ | _, Some true => Some true
  | Some false, Some false => Some false
  | _, _ => None
  end.

Definition not3 (a : option bool) : option bool := negb <$> a.

Section Eval.
Context `{StorageEngine}.

(** [a = b] in SQL. *)
Definition sql_eq (a b : val) : option bool :=
  match a, b with
  | VNull, _ | _, VNull => None
  | VInt x, VInt y => Some (bool_decide (x = y))
  | VStr x, VStr y => Some (bool_decide (x = y))
  | VInt x, VStr s | VStr s, VInt x =>
      Some (bool_decide (cast_num s = Some x))
  end.

(** [a <= z] in SQL, for a number [z]. *)
Definition sql_le (a : val) (z : Z) : option bool :=
  match a with
  | VNull => None
  | VInt x => Some (bool_decide (x ≤ z))
  | VStr s =>
      match cast_num s with
      | Some x => Some (bool_decide (x ≤ z))
      | None => Some false
      end
  end.

Definition sql_ge (a : val) (z : Z) : option bool :=
  match a with
  | VNull => None
  | VInt x => Some (bool_decide (z ≤ x))
  | VStr s =>
      match cast_num s with
      | Some x => Some (bool_decide (z ≤ x))
      | None => Some false
      end
  end.

Definition sql_like (a : val) (pat : string) : option bool :=
  match a with
  | VNull => None
  | VInt x => Some (like_match (str_of_num x) pat)
  | VStr s => Some (like_match s pat)
  end.

(** [a IN (v1, ..., vn)] is [a = v1 OR ... OR a = vn]; over no value at all
    it holds of no row. *)
Definition sql_in (a : val) (vs : list val) : option bool :=
  foldr (fun v acc => or3 (sql_eq a v) acc) (Some false) vs.

(** The tables a clause names outside of its sub-selects: they make the FROM
    list of the statement the clause is the WHERE of. *)
Fixpoint tables_of (cl : clause) : list table :=
  match cl with
  | CTrue | CPyBool _ => []
  | CEq c _ | CIsNull c | CLike c _ | CGe c _ | CLe c _ | CIn c _ =>
      [table_of c]
  | CColEq c1 c2 => [table_of c1; table_of c2]
  | CInSelect c _ _ => [table_of c]
  | CAnd cs | COr cs => concat (map tables_of cs)
  | CNot c => tables_of c
  end.

(** The FROM list of a sub-select inside a statement whose own FROM list is
    [outer]: the tables the sub-select names, and when it names more than one,
    those of [outer] are correlated to the enclosing statement and left out. *)
Definition sub_froms (outer : list table) (sel : column) (whr : clause)
  : list table :=
  let fs := remove_dups (table_of sel :: tables_of whr) in
  if decide (1 < length fs)%nat
  then filter (fun t => t ∉ outer) fs
  else fs.

(** Every combination of one row per table of [ts], laid over [env]. *)
Fixpoint product (db : database) (ts : list table) (env : row) : list row :=
  match ts with
  | [] => [env]
  | t :: ts' =>
      r ← rows_of db t; product db ts' (bind_row t r env)
  end.

(** The value of a clause on the rows of [env], inside a statement whose FROM
    list is [outer]. *)
Fixpoint eval (db : database) (outer : list table) (env : row) (cl : clause)
  : option bool :=
  match cl with
  | CTrue => Some true
  | CPyBool b => Some b
  | CEq c v => sql_eq (env c) v
  | CIsNull c => Some (bool_decide (env c = VNull))
  | CColEq c1 c2 => sql_eq (env c1) (env c2)
  | CLike c pat => sql_like (env c) pat
  | CGe c z => sql_ge (env c) z
  | CLe c z => sql_le (env c) z
  | CIn c vs => sql_in (env c) vs
  | CInSelect c sel whr =>
      let fs := sub_froms outer sel whr in
      let hits :=
        filter (fun e => eval db (outer ++ fs) e whr = Some true)
               (product db fs env) in
      sql_in (env c) ((fun e => e sel) <$> hits)
  | CAnd cs => foldr (fun c acc => and3 (eval db outer env c) acc) (Some true) cs
  | COr cs => foldr (fun c acc => or3 (eval db outer env c) acc) (Some false) cs
  | CNot c => not3 (eval db outer env c)
  end.

(** A sub-select all of whose tables are correlated to the enclosing
    statement has no FROM list left, and SQLAlchemy refuses to compile it. *)
Fixpoint without_from (outer : list table) (cl : clause) : bool :=
  match cl with
  | CInSelect _ sel whr =>
      let fs := sub_froms outer sel whr in
      bool_decide (fs = []) || without_from (outer ++ fs) whr
  | CAnd cs | COr cs => existsb (without_from outer) cs
  | CNot c => without_from outer c
  | _ => false
  end.

(** A row is kept by WHERE when the clause is true on it (not false, and not
    unknown). *)
Definition holds (db : database) (outer : list table) (cl : clause)
    (env : row) : bool :=
  bool_decide (eval db outer env cl = Some true).

End Eval.

End Sql.
Export Sql.

(** ** Failures and transactions *)
Module Txn.

(** The exceptions the model raises or lets through. *)
Inductive error :=
| UsageError (msg : string)
| IntegrityError (msg : string)
| ValueError (msg : string)
| KeyError
| IndexError
| InvalidRequestError
| OperationalError.

Inductive outcome (A : Type) :=
| Return (a : A)
| Raise (e : error).
Arguments Return {A} a.
Arguments Raise {A} e.

(** A computation over the database that returns or raises. *)
Definition M (A : Type) : Type := database -> outcome A * database.

Definition ret {A} (a : A) : M A := fun db => (Return a, db).

Definition raise {A} (e : error) : M A := fun db => (Raise e, db).

Definition bind {A B} (m : M A) (k : A -> M B) : M B := fun db =>
  match m db with
  | (Return a, db') => k a db'
  | (Raise e, db') => (Raise e, db')
  end.

(** [with self.engine.begin() as connection: body]: the body's writes are
    committed when it returns and rolled back when it raises. *)
Definition transaction {A} (body : M A) : M A := fun db =>
  match body db with
  | (Return a, db') => (Return a, db')
  | (Raise e, _) => (Raise e, db)
  end.

Declare Scope txn_scope.
Delimit Scope txn_scope with txn.
Notation "x <- m ;; k" := (bind m (fun x => k))
  (at level 100, m at next level, right associativity) : txn_scope.
Notation "m ;;; k" := (bind m (fun _ => k))
  (at level 100, right associativity) : txn_scope.

End Txn.
Export Txn.

(** ** The model *)
Module BundleModel.

(** The attributes of a [BundleModel] instance that its methods read. *)
Record model := mk_model {
  public_group_uuid : string;
  root_user_id : option string
}.

(** The permission levels of [codalab.model.tables], which the model imports:
    integers on the scale NONE, READ, ALL. *)
Class PermissionLevels := {
  GROUP_OBJECT_PERMISSION_NONE : Z;
  GROUP_OBJECT_PERMISSION_READ : Z;
  GROUP_OBJECT_PERMISSION_ALL : Z
}.

(** Modelled from the spec: [codalab.common.precondition] is imported by the
    model and defined elsewhere; the spec has a violated precondition abort
    the operation with an integrity error. *)
Definition precondition (condition : bool) (message : string) : M unit :=
  if condition then ret tt else raise (IntegrityError message).

(** A bundle as [batch_get_bundles] hands it to the bundle classes: the row
    of the bundle with its dependency rows and its metadata rows. *)
Record bundle_value := mk_bundle_value {
  bv_row : bundle_row;
  bv_dependencies : list dependency_row;
  bv_metadata : list metadata_row
}.

(** An entry [column: value] of an [update] dictionary on bundles. *)
Inductive assignment :=
| set_id (z : Z)
| set_uuid (s : string)
| set_bundle_type (s : string)
| set_command (o : option string)
| set_data_hash (o : option string)
| set_state (s : string)
| set_owner_id (o : option string).

(** What the model takes from the bundle classes and from
    [codalab.common]: the construction of a bundle object from its values
    ([get_bundle_subclass(bundle_type)(bundle_value)]), its validation, its
    [id], its update in memory, and the state RUNNING. *)
Class BundleDomain := {
  bundle_object : Type;
  get_bundle_subclass : string -> bundle_value -> outcome bundle_object;
  validate : bundle_object -> outcome unit;
  bundle_id : bundle_object -> Z;
  update_in_memory : bundle_object -> list assignment -> bundle_object;
  State_RUNNING : string
}.

(** *** Statements on single tables *)

Definition set_worksheet_item (l : list item_row) (n : Z) (db : database)
  : database :=
  mk_database (bundle db) (bundle_dependency db) (bundle_metadata db)
    l n (group db) (user_group db)
    (group_bundle_permission db) (group_worksheet_permission db).

Definition set_bundle (l : list bundle_row) (db : database) : database :=
  mk_database l (bundle_dependency db) (bundle_metadata db)
    (worksheet_item db) (next_item_id db) (group db) (user_group db)
    (group_bundle_permission db) (group_worksheet_permission db).

Definition set_bundle_dependency (l : list dependency_row) (db : database)
  : database :=
  mk_database (bundle db) l (bundle_metadata db)
    (worksheet_item db) (next_item_id db) (group db) (user_group db)
    (group_bundle_permission db) (group_worksheet_permission db).

Definition set_bundle_metadata (l : list metadata_row) (db : database)
  : database :=
  mk_database (bundle db) (bundle_dependency db) l
    (worksheet_item db) (next_item_id db) (group db) (user_group db)
    (group_bundle_permission db) (group_worksheet_permission db).

Definition set_group_bundle_permission (l : list permission_row)
    (db : database) : database :=
  mk_database (bundle db) (bundle_dependency db) (bundle_metadata db)
    (worksheet_item db) (next_item_id db) (group db) (user_group db)
    l (group_worksheet_permission db).

Definition set_group (l : list group_row) (db : database) : database :=
  mk_database (bundle db) (bundle_dependency db) (bundle_metadata db)
    (worksheet_item db) (next_item_id db) l (user_group db)
    (group_bundle_permission db) (group_worksheet_permission db).

Definition set_user_group (l : list user_group_row) (db : database)
  : database :=
  mk_database (bundle db) (bundle_dependency db) (bundle_metadata db)
    (worksheet_item db) (next_item_id db) (group db) l
    (group_bundle_permission db) (group_worksheet_permission db).

Definition set_group_worksheet_permission (l : list permission_row)
    (db : database) : database :=
  mk_database (bundle db) (bundle_dependency db) (bundle_metadata db)
    (worksheet_item db) (next_item_id db) (group db) (user_group db)
    (group_bundle_permission db) l.

Section Methods.
Context `{StorageEngine}.

(** *** Clauses from keyword arguments *)

(** A Python value given for a column: a list, set or tuple of values, a
    [LikeQuery], or anything else. *)
Inductive value :=
| PyList (vs : list val)
| PySet (vs : list val)
| PyTuple (vs : list val)
| PyLikeQuery (pat : string)
| PyScalar (v : val).

Definition make_clause (key : column) (value : value) : clause :=
  match value with
  | PyList vs | PySet vs | PyTuple vs =>
      match vs with
      | [] => CPyBool false
      | _ => CIn key vs
      end
  | PyLikeQuery pat => CLike key pat
  | PyScalar v => col_eq key v
  end.

(** [kwargs] maps the columns of one table to values: a key is the column
    that [getattr(table.c, key)] finds.  A key that names no column of the
    table makes [getattr] raise before any clause is built; such
    dictionaries have no counterpart here, and a property that depends on
    it is stated for keyword arguments that name columns of the table. *)
Definition make_kwargs_clause (kwargs : list (column * value)) : clause :=
  let clauses := [CTrue] in
  let clauses :=
    foldl (fun clauses '(key, value) => clauses ++ [make_clause key value])
          clauses kwargs in
  CAnd clauses.

(** [cl_worksheet_item.delete().where(clause)]; returns [result.rowcount]. *)
Definition delete_worksheet_item (cl : clause) : M Z := fun db =>
  let hit i := holds db [t_worksheet_item] cl (row_of_item i) in
  (Return (Z.of_nat (length (filter hit (worksheet_item db)))),
   set_worksheet_item (filter (fun i => negb (hit i)) (worksheet_item db))
     (next_item_id db) db).

(** The DELETE statement on each of the other tables. *)
Definition delete_group_bundle_permission (cl : clause) : M Z := fun db =>
  let hit p :=
    holds db [t_group_bundle_permission] cl (row_of_permission of_bundle p) in
  (Return (Z.of_nat (length (filter hit (group_bundle_permission db)))),
   set_group_bundle_permission
     (filter (fun p => negb (hit p)) (group_bundle_permission db)) db).

Definition delete_bundle_metadata (cl : clause) : M Z := fun db =>
  let hit m := holds db [t_bundle_metadata] cl (row_of_metadata m) in
  (Return (Z.of_nat (length (filter hit (bundle_metadata db)))),
   set_bundle_metadata
     (filter (fun m => negb (hit m)) (bundle_metadata db)) db).

Definition delete_bundle_dependency (cl : clause) : M Z := fun db =>
  let hit d := holds db [t_bundle_dependency] cl (row_of_dependency d) in
  (Return (Z.of_nat (length (filter hit (bundle_dependency db)))),
   set_bundle_dependency
     (filter (fun d => negb (hit d)) (bundle_dependency db)) db).

Definition delete_bundle (cl : clause) : M Z := fun db =>
  let hit b := holds db [t_bundle] cl (row_of_bundle b) in
  (Return (Z.of_nat (length (filter hit (bundle db)))),
   set_bundle (filter (fun b => negb (hit b)) (bundle db)) db).

Definition delete_group_worksheet_permission (cl : clause) : M Z := fun db =>
  let hit p :=
    holds db [t_group_worksheet_permission] cl
      (row_of_permission of_worksheet p) in
  (Return (Z.of_nat (length (filter hit (group_worksheet_permission db)))),
   set_group_worksheet_permission
     (filter (fun p => negb (hit p)) (group_worksheet_permission db)) db).

Definition delete_group (cl : clause) : M Z := fun db =>
  let hit g := holds db [t_group] cl (row_of_group g) in
  (Return (Z.of_nat (length (filter hit (group db)))),
   set_group (filter (fun g => negb (hit g)) (group db)) db).

Definition delete_user_group (cl : clause) : M Z := fun db =>
  let hit u := holds db [t_user_group] cl (row_of_user_group u) in
  (Return (Z.of_nat (length (filter hit (user_group db)))),
   set_user_group (filter (fun u => negb (hit u)) (user_group db)) db).

(** [connection.execute(table.delete().where(clause))]. *)
Definition delete_from (t : table) (cl : clause) : M Z :=
  match t with
  | t_bundle => delete_bundle cl
  | t_bundle_dependency => delete_bundle_dependency cl
  | t_bundle_metadata => delete_bundle_metadata cl
  | t_worksheet_item => delete_worksheet_item cl
  | t_group => delete_group cl
  | t_user_group => delete_user_group cl
  | t_group_bundle_permission => delete_group_bundle_permission cl
  | t_group_worksheet_permission => delete_group_worksheet_permission cl
  end.

(** The statements of a transaction, executed in order. *)
Fixpoint execute_all (statements : list (table * clause)) : M unit :=
  match statements with
  | [] => ret tt
  | (t, cl) :: rest => (_ <- delete_from t cl;; execute_all rest)%txn
  end.

(** *** Bundles *)
Context `{BundleDomain}.

(** [bundle_values[dep_row.child_uuid]['dependencies'].append(dep_row)],
    after the check that the bundle is there.  The message of the error
    shows the row in the source; here it is cut to its fixed words. *)
Definition attach_dependency (acc : outcome (gmap string bundle_value))
    (dep_row : dependency_row) : outcome (gmap string bundle_value) :=
  match acc with
  | Return bundle_values =>
      match bundle_values !! d_child_uuid dep_row with
      | None => Raise (IntegrityError "Got dependency without bundle")
      | Some v =>
          Return (<[d_child_uuid dep_row :=
                      mk_bundle_value (bv_row v)
                        (bv_dependencies v ++ [dep_row]) (bv_metadata v)]>
                    bundle_values)
      end
  | Raise e => Raise e
  end.

Definition attach_metadata (acc : outcome (gmap string bundle_value))
    (metadata_row : metadata_row) : outcome (gmap string bundle_value) :=
  match acc with
  | Return bundle_values =>
      match bundle_values !! m_bundle_uuid metadata_row with
      | None => Raise (IntegrityError "Got metadata without bundle")
      | Some v =>
          Return (<[m_bundle_uuid metadata_row :=
                      mk_bundle_value (bv_row v) (bv_dependencies v)
                        (bv_metadata v ++ [metadata_row])]>
                    bundle_values)
      end
  | Raise e => Raise e
  end.

(** [sorted(values, key=lambda r: r['id'])]: a stable sort. *)
Fixpoint insert_by_id (v : bundle_value) (l : list bundle_value)
  : list bundle_value :=
  match l with
  | [] => [v]
  | x :: l' =>
      if b_id (bv_row v) <=? b_id (bv_row x) then v :: l
      else x :: insert_by_id v l'
  end.

Definition sorted_by_id (l : list bundle_value) : list bundle_value :=
  foldr insert_by_id [] l.

(** The list comprehension that builds the bundle objects: the first
    constructor that raises ends it. *)
Fixpoint construct_all (values : list bundle_value)
  : outcome (list bundle_object) :=
  match values with
  | [] => Return []
  | v :: rest =>
      match get_bundle_subclass (b_bundle_type (bv_row v)) v with
      | Raise e => Raise e
      | Return bundle =>
          match construct_all rest with
          | Raise e => Raise e
          | Return bundles => Return (bundle :: bundles)
          end
      end
  end.

Fixpoint validate_all (bundles : list bundle_object) : outcome unit :=
  match bundles with
  | [] => Return tt
  | bundle :: rest =>
      match validate bundle with
      | Raise e => Raise e
      | Return _ => validate_all rest
      end
  end.

Definition batch_get_bundles (db : database) (kwargs : list (column * value))
  : outcome (list bundle_object) :=
  let clause := make_kwargs_clause kwargs in
  let bundle_rows :=
    filter (fun b => holds db [t_bundle] clause (row_of_bundle b))
           (bundle db) in
  match bundle_rows with
  | [] => Return []
  | _ =>
      let uuids := remove_dups (b_uuid <$> bundle_rows) in
      let dependency_rows :=
        filter (fun d => holds db [t_bundle_dependency]
                           (CIn c_dep_child_uuid (VStr <$> uuids))
                           (row_of_dependency d))
               (bundle_dependency db) in
      let metadata_rows :=
        filter (fun m => holds db [t_bundle_metadata]
                           (CIn c_meta_bundle_uuid (VStr <$> uuids))
                           (row_of_metadata m))
               (bundle_metadata db) in
      let bundle_values : gmap string bundle_value :=
        foldl (fun vs row => <[b_uuid row := mk_bundle_value row [] []]> vs)
              ∅ bundle_rows in
      match foldl attach_dependency (Return bundle_values) dependency_rows with
      | Raise e => Raise e
      | Return bundle_values =>
          match foldl attach_metadata (Return bundle_values) metadata_rows with
          | Raise e => Raise e
          | Return bundle_values =>
              let sorted_values :=
                sorted_by_id (map_to_list bundle_values).*2 in
              match construct_all sorted_values with
              | Raise e => Raise e
              | Return bundles =>
                  match validate_all bundles with
                  | Raise e => Raise e
                  | Return _ => Return bundles
                  end
              end
          end
      end
  end.

Definition get_bundle (db : database) (uuid : string)
  : outcome bundle_object :=
  match batch_get_bundles db [(c_bundle_uuid, PyScalar (VStr uuid))] with
  | Raise e => Raise e
  | Return bundles =>
      match bundles with
      | [] => Raise (UsageError ("Could not find bundle with uuid " ++ uuid)%string)
      | bundle :: rest =>
          match rest with
          | _ :: _ =>
              Raise (IntegrityError
                       ("Found multiple bundles with uuid " ++ uuid)%string)
          | [] => Return bundle
          end
      end
  end.

(** The row after [cl_bundle.update().values(update)]. *)
Definition assign (row : bundle_row) (a : assignment) : bundle_row :=
  match a with
  | set_id z =>
      mk_bundle z (b_uuid row) (b_bundle_type row) (b_command row)
        (b_data_hash row) (b_state row) (b_owner_id row)
  | set_uuid s =>
      mk_bundle (b_id row) s (b_bundle_type row) (b_command row)
        (b_data_hash row) (b_state row) (b_owner_id row)
  | set_bundle_type s =>
      mk_bundle (b_id row) (b_uuid row) s (b_command row)
        (b_data_hash row) (b_state row) (b_owner_id row)
  | set_command o =>
      mk_bundle (b_id row) (b_uuid row) (b_bundle_type row) o
        (b_data_hash row) (b_state row) (b_owner_id row)
  | set_data_hash o =>
      mk_bundle (b_id row) (b_uuid row) (b_bundle_type row) (b_command row)
        o (b_state row) (b_owner_id row)
  | set_state s =>
      mk_bundle (b_id row) (b_uuid row) (b_bundle_type row) (b_command row)
        (b_data_hash row) s (b_owner_id row)
  | set_owner_id o =>
      mk_bundle (b_id row) (b_uuid row) (b_bundle_type row) (b_command row)
        (b_data_hash row) (b_state row) o
  end.

Definition values (update : list assignment) (row : bundle_row)
  : bundle_row :=
  foldl assign row update.

(** [cl_bundle.update().where(clause).values(update)]; returns
    [result.rowcount], the number of rows the clause matches.  With no
    column to set the statement reads [UPDATE bundle SET WHERE ...], which
    the engine refuses. *)
Definition update_bundle_where (cl : clause) (update : list assignment)
  : M Z := fun db =>
  match update with
  | [] => (Raise OperationalError, db)
  | _ =>
      let hit b := holds db [t_bundle] cl (row_of_bundle b) in
      (Return (Z.of_nat (length (filter hit (bundle db)))),
       set_bundle
         ((fun b => if hit b then values update b else b) <$> bundle db) db)
  end.

(** ['id' not in update and 'uuid' not in update]. *)
Definition legal_update (update : list assignment) : bool :=
  forallb (fun a => match a with
                    | set_id _ | set_uuid _ => false
                    | _ => true
                    end) update.

(** Returns what the method returns together with the bundle objects, which
    the method updates in place when the update succeeds.  The message of
    the precondition shows the update in the source; here it is cut to its
    fixed words. *)
Definition batch_update_bundles (bundles : list bundle_object)
    (update : list assignment) (condition : option (list (column * value)))
  : M (bool * list bundle_object) :=
  (precondition (legal_update update) "Illegal update";;;
   match bundles with
   | [] => ret (true, bundles)
   | _ =>
       let bundle_ids := remove_dups (bundle_id <$> bundles) in
       let clause := CIn c_bundle_id (VInt <$> bundle_ids) in
       let clause :=
         match condition with
         | Some ((_ :: _) as condition) =>
             CAnd [clause; make_kwargs_clause condition]
         | _ => clause
         end in
       transaction (
         rowcount <- update_bundle_where clause update;;
         let success := rowcount =? Z.of_nat (length bundle_ids) in
         if success
         then ret (success,
                   (fun bundle => update_in_memory bundle update) <$> bundles)
         else ret (success, bundles))
   end)%txn.

(** [' '.join(l)]. *)
Fixpoint join_spaces (l : list string) : string :=
  match l with
  | [] => EmptyString
  | [s] => s
  | s :: rest => (s ++ " " ++ join_spaces rest)%string
  end.

Definition _check_not_running (uuids : list string) : M unit := fun db =>
  let rows :=
    filter (fun b => holds db [t_bundle] (CIn c_bundle_uuid (VStr <$> uuids))
                       (row_of_bundle b))
           (bundle db) in
  let running_uuids :=
    b_uuid <$> filter (fun b => b_state b = State_RUNNING) rows in
  match running_uuids with
  | [] => (Return tt, db)
  | _ =>
      (Raise (UsageError ("Can't delete running bundles: "
                          ++ join_spaces running_uuids)%string), db)
  end.

(** The DELETE statements of [delete_bundles], in the order in which they
    are executed. *)
Definition delete_bundles_statements (uuids : list string)
  : list (table * clause) :=
  [ (t_group_bundle_permission,
     CIn (c_perm_object_uuid of_bundle) (VStr <$> uuids));
    (t_worksheet_item, CIn c_item_bundle_uuid (VStr <$> uuids));
    (t_bundle_metadata, CIn c_meta_bundle_uuid (VStr <$> uuids));
    (t_bundle_dependency, CIn c_dep_child_uuid (VStr <$> uuids));
    (t_bundle, CIn c_bundle_uuid (VStr <$> uuids)) ].

Definition delete_bundles (uuids : list string) : M unit :=
  (_check_not_running uuids;;;
   transaction (execute_all (delete_bundles_statements uuids)))%txn.

(** *** Worksheets *)

(** A worksheet item as the callers pass it:
    [(bundle_uuid, subworksheet_uuid, value, type)]. *)
Definition item : Type :=
  option string * option string * option string * string.

(** A row of [worksheet_item] before the engine gives it an [id]. *)
Record item_value := mk_item_value {
  iv_worksheet_uuid : string;
  iv_bundle_uuid : option string;
  iv_subworksheet_uuid : option string;
  iv_value : option string;
  iv_type : string;
  iv_sort_key : option Z
}.

Definition stored (id : Z) (v : item_value) : item_row :=
  mk_item id (iv_worksheet_uuid v) (iv_bundle_uuid v)
    (iv_subworksheet_uuid v) (iv_value v) (iv_type v) (iv_sort_key v).

(** [connection.execute(cl_worksheet_item.insert(), values)]: the rows are
    appended with consecutive fresh ids. *)
Definition insert_worksheet_item (values : list item_value) : M unit :=
  fun db =>
  let n := next_item_id db in
  (Return tt,
   set_worksheet_item
     (worksheet_item db ++ imap (fun k v => stored (n + Z.of_nat k) v) values)
     (n + Z.of_nat (length values)) db).

(** [do_multirow_insert], at the table [update_worksheet] uses it on:
    nothing is executed for an empty list of values. *)
Definition do_multirow_insert (values : list item_value) : M unit :=
  match values with
  | [] => ret tt
  | _ => insert_worksheet_item values
  end.

(** The [new_item_values] of [update_worksheet]. *)
Definition new_item_values (worksheet_uuid : string) (last_item_id : Z)
    (new_items : list item) : list item_value :=
  imap (fun i '(bundle_uuid, subworksheet_uuid, value, type) =>
          mk_item_value worksheet_uuid bundle_uuid subworksheet_uuid value
            type
            (Some (last_item_id + Z.of_nat i - Z.of_nat (length new_items))))
       new_items.

Definition update_worksheet (worksheet_uuid : string) (last_item_id : Z)
    (length : Z) (new_items : list item) : M unit :=
  let clause := CAnd [
    col_eq c_item_worksheet_uuid (VStr worksheet_uuid);
    CLe c_item_id last_item_id
  ] in
  let new_item_values :=
    new_item_values worksheet_uuid last_item_id new_items in
  transaction (
    rowcount <- delete_worksheet_item clause;;
    let message := ("Found extra items for worksheet " ++ worksheet_uuid)%string in
    precondition (rowcount <=? length) message;;;
    if rowcount <? length
    then raise (UsageError
                  ("Worksheet " ++ worksheet_uuid
                   ++ " was updated concurrently!")%string)
    else do_multirow_insert new_item_values)%txn.

(** *** The dependency graph *)

(** [result[row.parent_uuid].append(row.child_uuid)], which raises
    [KeyError] when the dictionary has no such key. *)
Definition append_child (result : outcome (gmap string (list string)))
    (row : dependency_row) : outcome (gmap string (list string)) :=
  match result with
  | Return m =>
      match m !! d_parent_uuid row with
      | Some l => Return (<[d_parent_uuid row := l ++ [d_child_uuid row]]> m)
      | None => Raise KeyError
      end
  | Raise e => Raise e
  end.

(** Returns [{parent_uuid: [child_uuid, ...], ...}] for the parents [uuids]. *)
Definition get_children_uuids (db : database) (uuids : list string)
  : outcome (gmap string (list string)) :=
  let rows :=
    filter (fun d => holds db [t_bundle_dependency]
                       (CIn c_dep_parent_uuid (VStr <$> uuids))
                       (row_of_dependency d))
           (bundle_dependency db) in
  let result : gmap string (list string) :=
    list_to_map ((fun uuid => (uuid, [])) <$> uuids) in
  foldl append_child (Return result) rows.

(** The [depth] argument: an integer, or [float('inf')] for no bound. *)
Inductive depth :=
| Finite (d : Z)
| Infinite.

Definition positive (d : depth) : bool :=
  match d with
  | Finite z => bool_decide (0 < z)
  | Infinite => true
  end.

Definition decrement (d : depth) : depth :=
  match d with
  | Finite z => Finite (z - 1)
  | Infinite => Infinite
  end.

(** The two nested [for] loops of a round: every child not yet in [visited]
    is appended to [new_frontier] and to [visited]. *)
Definition visit (acc : list string * list string) (uuid : string)
  : list string * list string :=
  let '(new_frontier, visited) := acc in
  if bool_decide (uuid ∈ visited) then (new_frontier, visited)
  else (new_frontier ++ [uuid], visited ++ [uuid]).

Definition expand (result : gmap string (list string))
    (visited : list string) : list string * list string :=
  foldl visit ([], visited) (concat (map_to_list result).*2).

(** The [while] loop of [get_self_and_descendants]; [None] when [fuel] rounds
    did not reach the end of the loop. *)
Fixpoint walk (fuel : nat) (db : database) (frontier visited : list string)
    (d : depth) : option (outcome (list string)) :=
  if bool_decide (frontier ≠ []) && positive d then
    match fuel with
    | O => None
    | S fuel' =>
        match get_children_uuids db frontier with
        | Raise e => Some (Raise e)
        | Return result =>
            let '(new_frontier, visited') := expand result visited in
            walk fuel' db new_frontier visited' (decrement d)
        end
    end
  else Some (Return visited).

(** One round per dependency row, and one more, is enough for any loop. *)
Definition rounds (db : database) : nat := S (length (bundle_dependency db)).

Definition get_self_and_descendants (db : database) (uuids : list string)
    (d : depth) : option (outcome (list string)) :=
  let frontier := uuids in
  let visited := frontier in
  walk (rounds db) db frontier visited d.

(** *** Search *)

(** [keyword.replace('.*', '%')]. *)
Fixpoint replace_dot_star (s : string) : string :=
  match s with
  | String c rest =>
      match rest with
      | String c' rest' =>
          if bool_decide (c = "."%char) && bool_decide (c' = "*"%char)
          then String "%" (replace_dot_star rest')
          else String c (replace_dot_star rest)
      | EmptyString => s
      end
  | EmptyString => EmptyString
  end.

(** A character of the key: a word character, a dot or a slash. *)
Definition is_key_char (c : ascii) : bool :=
  let n := nat_of_ascii c in
  bool_decide (48 ≤ n ≤ 57)%nat || bool_decide (65 ≤ n ≤ 90)%nat
  || bool_decide (97 ≤ n ≤ 122)%nat || bool_decide (c = "_"%char)
  || bool_decide (c = "."%char) || bool_decide (c = "/"%char).

(** The longest prefix made of key characters, and what follows it. *)
Fixpoint span_key (s : string) : string * string :=
  match s with
  | String c rest =>
      if is_key_char c
      then let '(key, after) := span_key rest in (String c key, after)
      else (EmptyString, s)
  | EmptyString => (EmptyString, EmptyString)
  end.

Definition newline : ascii := ascii_of_nat 10.

Fixpoint has_newline (s : string) : bool :=
  match s with
  | String c rest => bool_decide (c = newline) || has_newline rest
  | EmptyString => false
  end.

(** The string without its last character, when that is a newline. *)
Fixpoint chomp (s : string) : option string :=
  match s with
  | EmptyString => None
  | String c EmptyString =>
      if bool_decide (c = newline) then Some EmptyString else None
  | String c rest => String c <$> chomp rest
  end.

(** [CONDITION_REGEX.match(keyword)]: the groups [(key, value)] of a keyword
    made of one or more key characters, the sign [=], and any characters but
    a newline up to the end.  A newline at the very end of the keyword is
    left out of the value, as [$] matches before it. *)
Definition CONDITION_REGEX_match (keyword : string)
  : option (string * string) :=
  match span_key keyword with
  | (String c key, String eq value) =>
      if bool_decide (eq = "="%char) then
        if has_newline value then
          match chomp value with
          | Some value' =>
              if has_newline value' then None
              else Some (String c key, value')
          | None => None
          end
        else Some (String c key, value)
      else None
  | _ => None
  end.

Definition is_space (c : ascii) : bool :=
  let n := nat_of_ascii c in
  bool_decide (n = 32)%nat || bool_decide (9 ≤ n ≤ 13)%nat.

Fixpoint lstrip (l : list ascii) : list ascii :=
  match l with
  | c :: rest => if is_space c then lstrip rest else l
  | [] => []
  end.

Fixpoint decimal (acc : Z) (l : list ascii) : option Z :=
  match l with
  | [] => Some acc
  | c :: rest =>
      let n := Z.of_nat (nat_of_ascii c) in
      if bool_decide (48 ≤ n ≤ 57) then decimal (10 * acc + (n - 48)) rest
      else None
  end.

(** [int(value)]: surrounding white space, an optional sign, decimal
    digits; [ValueError] otherwise. *)
Definition python_int (value : string) : outcome Z :=
  let l := rev (lstrip (rev (lstrip (list_ascii_of_string value)))) in
  let number digits :=
    match digits with
    | [] => None
    | _ => decimal 0 digits
    end in
  let parsed :=
    match l with
    | c :: digits =>
        if bool_decide (c = "-"%char) then Z.opp <$> number digits
        else if bool_decide (c = "+"%char) then number digits
        else number l
    | [] => None
    end in
  match parsed with
  | Some z => Return z
  | None => Raise (ValueError "invalid literal for int() with base 10")
  end.

(** [sort_key[0]]: [field * 1] or [desc(field * 1)]. *)
Inductive order :=
| Ascending (field : column)
| Descending (field : column).

(** The variables of [search_bundle_uuids] that the loop over the keywords
    updates. *)
Record plan := mk_plan {
  clauses : list clause;
  offset : Z;
  limit : option Z;
  count : bool;
  sort_key : option order;
  sum_key : option column
}.

Definition initial_plan : plan := mk_plan [] 0 (Some 10) false None None.

Definition set_sort_key (o : order) (p : plan) : plan :=
  mk_plan (clauses p) (offset p) (limit p) (count p) (Some o) (sum_key p).

Definition set_sum_key (field : column) (p : plan) : plan :=
  mk_plan (clauses p) (offset p) (limit p) (count p) (sort_key p)
    (Some field).

Definition set_offset (z : Z) (p : plan) : plan :=
  mk_plan (clauses p) z (limit p) (count p) (sort_key p) (sum_key p).

Definition set_limit (z : option Z) (p : plan) : plan :=
  mk_plan (clauses p) (offset p) z (count p) (sort_key p) (sum_key p).

Definition set_count (p : plan) : plan :=
  mk_plan (clauses p) (offset p) (limit p) true (sort_key p) (sum_key p).

Definition append_clause (cl : clause) (p : plan) : plan :=
  mk_plan (clauses p ++ [cl]) (offset p) (limit p) (count p) (sort_key p)
    (sum_key p).

Fixpoint has_percent (s : string) : bool :=
  match s with
  | String c rest => bool_decide (c = "%"%char) || has_percent rest
  | EmptyString => false
  end.

Definition make_condition (p : plan) (field : column) (value : string)
  : plan * clause :=
  if bool_decide (value = ".sort") then
    (set_sort_key (Ascending field) p, CTrue)
  else if bool_decide (value = ".sort-") then
    (set_sort_key (Descending field) p, CTrue)
  else if bool_decide (value = ".sum") then
    (set_sum_key field p, CTrue)
  else if has_percent value then (p, CLike field value)
  else (p, col_eq field (VStr value)).

(** [condition == true()]: the condition is the constant that
    [make_condition] returns for [.sort], [.sort-] and [.sum]. *)
Definition is_true_constant (condition : clause) : bool :=
  match condition with
  | CTrue => true
  | _ => false
  end.

Definition shortcuts (key : string) : string :=
  if bool_decide (key = "type") then "bundle_type"
  else if bool_decide (key = "size") then "data_size"
  else if bool_decide (key = "worksheet") then "host_worksheet"
  else key.

(** A column of [cl_bundle] that a key names. *)
Definition bundle_field (key : string) : option column :=
  if bool_decide (key = "bundle_type") then Some c_bundle_bundle_type
  else if bool_decide (key = "id") then Some c_bundle_id
  else if bool_decide (key = "uuid") then Some c_bundle_uuid
  else if bool_decide (key = "data_hash") then Some c_bundle_data_hash
  else if bool_decide (key = "state") then Some c_bundle_state
  else if bool_decide (key = "command") then Some c_bundle_command
  else if bool_decide (key = "owner_id") then Some c_bundle_owner_id
  else None.

(** The branch [if m:] of the loop, for the groups [key] and [value]. *)
Definition search_condition (p : plan) (key value : string) : outcome plan :=
  let key := shortcuts key in
  match bundle_field key with
  | Some field =>
      let '(p, clause) := make_condition p field value in
      Return (append_clause clause p)
  | None =>
      if bool_decide (key = "dependency") then
        let '(p, condition) := make_condition p c_dep_parent_uuid value in
        let clause :=
          if is_true_constant condition
          then CAnd [CColEq c_dep_child_uuid c_bundle_uuid; condition]
          else CInSelect c_bundle_uuid c_dep_child_uuid condition in
        Return (append_clause clause p)
      else if String.prefix "dependency/" key then
        let name := String.substring 11 (String.length key - 11) key in
        let '(p, condition) := make_condition p c_dep_parent_uuid value in
        let clause :=
          if is_true_constant condition
          then CAnd [CColEq c_dep_child_uuid c_bundle_uuid;
                     col_eq c_dep_child_path (VStr name);
                     condition]
          else CInSelect c_bundle_uuid c_dep_child_uuid
                 (CAnd [col_eq c_dep_child_path (VStr name); condition]) in
        Return (append_clause clause p)
      else if bool_decide (key = "host_worksheet") then
        let '(p, condition) := make_condition p c_item_worksheet_uuid value in
        let clause :=
          if is_true_constant condition
          then CAnd [CColEq c_item_bundle_uuid c_bundle_uuid; condition]
          else CInSelect c_bundle_uuid c_item_bundle_uuid condition in
        Return (append_clause clause p)
      else if bool_decide (key = ".offset") then
        match python_int value with
        | Return z => Return (set_offset z p)
        | Raise e => Raise e
        end
      else if bool_decide (key = ".limit") then
        match python_int value with
        | Return z => Return (set_limit (Some z) p)
        | Raise e => Raise e
        end
      else
        let '(p, condition) := make_condition p c_meta_metadata_value value in
        let clause :=
          if is_true_constant condition
          then CAnd [CColEq c_bundle_uuid c_meta_bundle_uuid;
                     col_eq c_meta_metadata_key (VStr key);
                     condition]
          else CInSelect c_bundle_uuid c_meta_bundle_uuid
                 (CAnd [col_eq c_meta_metadata_key (VStr key); condition]) in
        Return (append_clause clause p)
  end.

(** One turn of the loop over the keywords. *)
Definition search_keyword (acc : outcome plan) (keyword : string)
  : outcome plan :=
  match acc with
  | Raise e => Raise e
  | Return p =>
      let keyword := replace_dot_star keyword in
      match CONDITION_REGEX_match keyword with
      | Some (key, value) => search_condition p key value
      | None =>
          if bool_decide (keyword = ".count") then
            Return (set_limit None (set_count p))
          else if bool_decide (keyword = ".orphan") then
            let with_hosts := CColEq c_bundle_uuid c_item_bundle_uuid in
            Return (append_clause
                      (CNot (CInSelect c_bundle_uuid c_bundle_uuid with_hosts))
                      p)
          else
            let pattern := ("%" ++ keyword ++ "%")%string in
            Return (append_clause
                      (COr [CLike c_bundle_uuid pattern;
                            CLike c_bundle_command pattern;
                            CInSelect c_bundle_uuid c_meta_bundle_uuid
                              (CLike c_meta_metadata_value pattern)])
                      p)
      end
  end.

(** What [search_bundle_uuids] returns: a list of uuids, or a single
    number. *)
Inductive search_result :=
| Uuids (l : list val)
| Number (v : val).

(** The rows of [select(columns).where(clause)]: the FROM list is made of
    the tables of the columns and of the clause, and the rows that the
    clause keeps come back in the order of the engine. *)
Definition select_where (db : database) (columns : list table)
    (cl : clause) : outcome (list row) :=
  let froms := remove_dups (columns ++ tables_of cl) in
  if without_from froms cl then Raise InvalidRequestError
  else Return (fetch_order (filter (fun e => holds db froms cl e)
                                   (product db froms no_row))).

(** [ORDER BY]: an insertion sort with the order of the engine. *)
Fixpoint insert_row (leb : row -> row -> bool) (e : row) (l : list row)
  : list row :=
  match l with
  | [] => [e]
  | x :: l' => if leb e x then e :: l else x :: insert_row leb e l'
  end.

Definition order_by (o : order) (rows : list row) : list row :=
  let leb :=
    match o with
    | Ascending field => fun e1 e2 => num_leb (e1 field) (e2 field)
    | Descending field => fun e1 e2 => num_leb (e2 field) (e1 field)
    end in
  foldr (insert_row leb) [] rows.

(** [.offset(offset).limit(limit)]; a negative offset or limit is refused
    by the engine. *)
Definition window {A} (offset : Z) (limit : option Z) (l : list A)
  : outcome (list A) :=
  if bool_decide (offset < 0) then Raise OperationalError
  else
    match limit with
    | None => Return (drop (Z.to_nat offset) l)
    | Some n =>
        if bool_decide (n < 0) then Raise OperationalError
        else Return (take (Z.to_nat n) (drop (Z.to_nat offset) l))
    end.

(** [query.count()]: the number of rows of the query whose column is not
    null. *)
Definition count_rows (l : list val) : val :=
  VInt (Z.of_nat (length (filter (fun v => v ≠ VNull) l))).

Context `{PermissionLevels}.

(** The clause that restricts a search to the bundles [user_id] can read. *)
Definition access_clause (self : model) (user_id : option string) : clause :=
  let access_via_owner := col_eq c_bundle_owner_id (opt_str user_id) in
  let access_via_group := CAnd [
    CColEq (c_perm_object_uuid of_bundle) c_bundle_uuid;
    COr [
      col_eq (c_perm_group_uuid of_bundle) (VStr (public_group_uuid self));
      CInSelect (c_perm_group_uuid of_bundle) c_ug_group_uuid
        (col_eq c_ug_user_id (opt_str user_id))
    ];
    CGe (c_perm_permission of_bundle) GROUP_OBJECT_PERMISSION_READ
  ] in
  COr [access_via_owner; access_via_group].

Definition search_bundle_uuids (self : model) (db : database)
    (user_id : option string) (worksheet_uuid : option string)
    (keywords : list string) : outcome search_result :=
  match foldl search_keyword (Return initial_plan) keywords with
  | Raise e => Raise e
  | Return p =>
      let clause := CAnd (clauses p) in
      let clause :=
        if bool_decide (user_id ≠ root_user_id self)
        then CAnd [clause; access_clause self user_id]
        else clause in
      match sum_key p with
      | Some field =>
          (* An aggregate has one row, which ORDER BY leaves as it is. *)
          match select_where db [table_of field] clause with
          | Raise e => Raise e
          | Return rows =>
              let total := sql_sum ((fun e => e field) <$> rows) in
              match window (offset p) (limit p) [total] with
              | Raise e => Raise e
              | Return result =>
                  let result :=
                    if count p then [count_rows result] else result in
                  match result with
                  | [] => Raise IndexError
                  | v :: _ => Return (Number v)
                  end
              end
          end
      | None =>
          match select_where db [t_bundle] clause with
          | Raise e => Raise e
          | Return rows =>
              let rows :=
                match sort_key p with
                | Some o => order_by o rows
                | None => rows
                end in
              let uuids := remove_dups ((fun e => e c_bundle_uuid) <$> rows) in
              match window (offset p) (limit p) uuids with
              | Raise e => Raise e
              | Return result =>
                  if count p then Return (Number (count_rows result))
                  else Return (Uuids result)
              end
          end
      end
  end.

(** *** Groups and permissions *)

(** [cl_user_group.select().where(clause)], as a list of row dicts. *)
Definition batch_get_user_in_group (db : database)
    (kwargs : list (column * value)) : list user_group_row :=
  let clause := make_kwargs_clause kwargs in
  filter (fun r => holds db [t_user_group] clause (row_of_user_group r))
         (user_group db).

(** The group uuids [user_id] is in; everyone is in the public group. *)
Definition _get_user_groups (self : model) (db : database)
    (user_id : option string) : list string :=
  let groups := [public_group_uuid self] in
  match user_id with
  | Some u =>
      groups ++ (ug_group_uuid <$>
                   batch_get_user_in_group db
                     [(c_ug_user_id, PyScalar (VStr u))])
  | None => groups
  end.

(** An entry [{group_uuid: ..., group_name: ..., permission: ...}]. *)
Record group_permission := mk_group_permission {
  gp_group_uuid : string;
  gp_group_name : string;
  gp_permission : Z
}.

(** [result[row.object_uuid].append(...)] on a [defaultdict(list)]. *)
Definition append_permission (result : gmap string (list group_permission))
    (row : permission_row * group_row) : gmap string (list group_permission) :=
  let '(p, g) := row in
  <[p_object_uuid p :=
      default [] (result !! p_object_uuid p)
      ++ [mk_group_permission (p_group_uuid p) (g_name g) (p_permission p)]]>
    result.

(** Returns the map from object uuid to the entries of its permission rows,
    each joined with the group it names. *)
Definition batch_get_group_permissions (db : database) (table : object_kind)
    (object_uuids : list string) : gmap string (list group_permission) :=
  let clause := CAnd [
    CColEq (c_perm_group_uuid table) c_group_uuid;
    CIn (c_perm_object_uuid table) (VStr <$> object_uuids)
  ] in
  let rows :=
    filter (fun '(p, g) =>
              holds db [permission_table table; t_group] clause
                (bind_row t_group (row_of_group g)
                   (row_of_permission table p)))
           (p ← permission_rows db table; g ← group db; [(p, g)]) in
  foldl append_permission ∅ rows.


(** The first loop of [get_user_permissions]: owner and root have all
    permissions, the other objects remain to be looked up. *)
Definition grant_owner (self : model) (user_id : option string)
    (owner_ids : gmap string (option string))
    (acc : gmap string Z * list string) (object_uuid : string)
  : gmap string Z * list string :=
  let '(object_permissions, remaining_object_uuids) := acc in
  let owner_id := owner_ids !! object_uuid ≫= id in
  if bool_decide (user_id = owner_id)
     || bool_decide (user_id = root_user_id self)
  then (<[object_uuid := GROUP_OBJECT_PERMISSION_ALL]> object_permissions,
        remaining_object_uuids)
  else (object_permissions, remaining_object_uuids ++ [object_uuid]).

(** [object_permissions[object_uuid] = max(object_permissions[object_uuid],
    row['permission'])] for a row of one of the user's groups. *)
Definition raise_permission (user_groups : list string)
    (object_uuid : string) (acc : outcome (gmap string Z))
    (row : group_permission) : outcome (gmap string Z) :=
  match acc with
  | Return object_permissions =>
      if bool_decide (gp_group_uuid row ∈ user_groups) then
        match object_permissions !! object_uuid with
        | Some current =>
            Return (<[object_uuid := Z.max current (gp_permission row)]>
                      object_permissions)
        | None => Raise KeyError
        end
      else Return object_permissions
  | Raise e => Raise e
  end.

Definition get_user_permissions (self : model) (db : database)
    (table : object_kind) (user_id : option string) (object_uuids : list string)
    (owner_ids : gmap string (option string)) : outcome (gmap string Z) :=
  let object_permissions : gmap string Z :=
    foldl (fun m object_uuid =>
             <[object_uuid := GROUP_OBJECT_PERMISSION_NONE]> m)
          ∅ object_uuids in
  let '(object_permissions, remaining_object_uuids) :=
    foldl (grant_owner self user_id owner_ids) (object_permissions, [])
          object_uuids in
  match remaining_object_uuids with
  | [] => Return object_permissions
  | _ =>
      let result :=
        batch_get_group_permissions db table remaining_object_uuids in
      let user_groups := _get_user_groups self db user_id in
      foldl (fun acc '(object_uuid, permissions) =>
               foldl (raise_permission user_groups object_uuid) acc
                     permissions)
            (Return object_permissions) (map_to_list result)
  end.

Definition get_user_bundle_permissions (self : model) (db : database)
    (user_id : option string) (bundle_uuids : list string)
    (owner_ids : gmap string (option string)) : outcome (gmap string Z) :=
  get_user_permissions self db of_bundle user_id
    bundle_uuids owner_ids.

Definition get_user_worksheet_permissions (self : model) (db : database)
    (user_id : option string) (worksheet_uuids : list string)
    (owner_ids : gmap string (option string)) : outcome (gmap string Z) :=
  get_user_permissions self db of_worksheet user_id
    worksheet_uuids owner_ids.

End Methods.
End BundleModel.
Export BundleModel.

(** ** Vocabulary of the properties *)
Module Spec.

(** The items [update_worksheet] replaces: those of the worksheet whose
    storage id is at most [last_item_id]. *)
Definition replaced (worksheet_uuid : string) (last_item_id : Z)
    (i : item_row) : Prop :=
  i_worksheet_uuid i = worksheet_uuid ∧ i_id i ≤ last_item_id.

#[global] Instance replaced_dec w l i : Decision (replaced w l i).
Proof. unfold replaced. apply _. Defined.

(** How many rows the DELETE of [update_worksheet] removes. *)
Definition deleted_count (db : database) (worksheet_uuid : string)
    (last_item_id : Z) : Z :=
  Z.of_nat (length (filter (replaced worksheet_uuid last_item_id)
                           (worksheet_item db))).

(** The items [update_worksheet] leaves in place. *)
Definition kept (db : database) (worksheet_uuid : string) (last_item_id : Z)
  : list item_row :=
  filter (fun i => ¬ replaced worksheet_uuid last_item_id i)
         (worksheet_item db).

(** The row stores the caller's item. *)
Definition stores (r : item_row) (worksheet_uuid : string) (it : item)
  : Prop :=
  let '(bundle_uuid, subworksheet_uuid, value, type) := it in
  i_worksheet_uuid r = worksheet_uuid ∧ i_bundle_uuid r = bundle_uuid ∧
  i_subworksheet_uuid r = subworksheet_uuid ∧ i_value r = value ∧
  i_type r = type.

(** [d1 < d2] on depths, the unbounded depth being above every integer. *)
Definition depth_lt (d1 d2 : depth) : Prop :=
  match d1, d2 with
  | Finite a, Finite b => a < b
  | Finite _, Infinite => True
  | Infinite, _ => False
  end.

(** The bundles that depend directly on [parent]. *)
Definition children_of (db : database) (parent : string) : list string :=
  d_child_uuid <$>
    filter (fun d => d_parent_uuid d = parent) (bundle_dependency db).

(** How many dependency rows have a child that is not in [visited]: the
    measure that bounds the rounds of the walk. *)
Definition unvisited (db : database) (visited : list string) : nat :=
  length (filter (fun u => u ∉ visited)
                 (d_child_uuid <$> bundle_dependency db)).

(** [s] holds the children of all its members. *)
Definition closed_under_children (db : database) (s : list string) : Prop :=
  ∀ d, d ∈ bundle_dependency db → d_parent_uuid d ∈ s → d_child_uuid d ∈ s.

(** The value is an empty list, set or tuple. *)
Definition empty_collection (v : value) : Prop :=
  v = PyList [] ∨ v = PySet [] ∨ v = PyTuple [].


(** The keyword arguments name columns of table [t]. *)
Definition columns_of (t : table) (kwargs : list (column * value)) : Prop :=
  ∀ key value, (key, value) ∈ kwargs → table_of key = t.

(** The condition of an update, when there is one, names columns of table
    [t]. *)
Definition condition_on (t : table)
    (condition : option (list (column * value))) : Prop :=
  match condition with
  | Some kwargs => columns_of t kwargs
  | None => True
  end.


(** The bundle rows the UPDATE of [batch_update_bundles] matches: those with
    the id of one of the bundles that satisfy the condition, when there is
    one. *)
Definition matched `{StorageEngine} `{BundleDomain} (db : database)
    (bundles : list bundle_object)
    (condition : option (list (column * value))) (b : bundle_row) : bool :=
  bool_decide (b_id b ∈ bundle_id <$> bundles)
  && match condition with
     | Some ((_ :: _) as condition) =>
         holds db [t_bundle] (make_kwargs_clause condition) (row_of_bundle b)
     | _ => true
     end.

(** No row of a dependent table belongs to a bundle of [uuids]: no
    permission row is on one, no worksheet item refers to one, no metadata
    row is of one, no dependency row has one as its child. *)
Definition dependents_gone (uuids : list string) (db : database) : Prop :=
  (∀ p, p ∈ group_bundle_permission db → p_object_uuid p ∉ uuids)
  ∧ (∀ i u, i ∈ worksheet_item db → i_bundle_uuid i = Some u → u ∉ uuids)
  ∧ (∀ m, m ∈ bundle_metadata db → m_bundle_uuid m ∉ uuids)
  ∧ (∀ d, d ∈ bundle_dependency db → d_child_uuid d ∉ uuids).

(** The worksheet item refers to a bundle of [uuids]. *)
Definition refers_to (uuids : list string) (i : item_row) : bool :=
  match i_bundle_uuid i with
  | Some u => bool_decide (u ∈ uuids)
  | None => false
  end.

(** The database after the five DELETE statements of [delete_bundles]. *)
Definition cascade (uuids : list string) (db : database) : database :=
  mk_database
    (filter (fun b => b_uuid b ∉ uuids) (bundle db))
    (filter (fun d => d_child_uuid d ∉ uuids) (bundle_dependency db))
    (filter (fun m => m_bundle_uuid m ∉ uuids) (bundle_metadata db))
    (filter (fun i => ¬ refers_to uuids i) (worksheet_item db))
    (next_item_id db) (group db) (user_group db)
    (filter (fun p => p_object_uuid p ∉ uuids) (group_bundle_permission db))
    (group_worksheet_permission db).

(** The principal is in group [g]: the public group, or a group it has a
    membership row in.  The anonymous principal has no membership row. *)
Definition member (self : model) (db : database) (user_id : option string)
    (g : string) : Prop :=
  g = public_group_uuid self
  ∨ ∃ r, r ∈ user_group db ∧ user_id = Some (ug_user_id r)
         ∧ ug_group_uuid r = g.

(** The group table has a group of uuid [g]. *)
Definition known_group (db : database) (g : string) : Prop :=
  ∃ r, r ∈ group db ∧ g_uuid r = g.

(** The principal can read the bundle: it owns it, or a permission row of
    level at least READ on the bundle is attached to a group the principal
    is in. *)
Definition readable `{PermissionLevels} (self : model) (db : database)
    (user_id : option string) (b : bundle_row) : Prop :=
  b_owner_id b = user_id
  ∨ ∃ p, p ∈ group_bundle_permission db ∧ p_object_uuid p = b_uuid b
         ∧ GROUP_OBJECT_PERMISSION_READ ≤ p_permission p
         ∧ member self db user_id (p_group_uuid p).

(** The owner recorded for an object: absent from the mapping, or recorded
    as null, reads as [None]. *)
Definition recorded_owner (owner_ids : gmap string (option string))
    (object_uuid : string) : option string :=
  owner_ids !! object_uuid ≫= id.

(** The principal owns the object or is the root principal. *)
Definition privileged (self : model) (user_id : option string)
    (owner_ids : gmap string (option string)) (object_uuid : string) : Prop :=
  user_id = recorded_owner owner_ids object_uuid
  ∨ user_id = root_user_id self.

(** [level] is the level of a permission row on the object whose group the
    principal is in. *)
Definition row_level (self : model) (db : database) (table : object_kind)
    (user_id : option string) (object_uuid : string) (level : Z) : Prop :=
  ∃ p, p ∈ permission_rows db table ∧ p_object_uuid p = object_uuid
       ∧ member self db user_id (p_group_uuid p) ∧ p_permission p = level.

(** As [row_level], for the rows whose group is in the group table. *)
Definition joined_row_level (self : model) (db : database)
    (table : object_kind) (user_id : option string) (object_uuid : string)
    (level : Z) : Prop :=
  ∃ p, p ∈ permission_rows db table ∧ p_object_uuid p = object_uuid
       ∧ member self db user_id (p_group_uuid p)
       ∧ known_group db (p_group_uuid p) ∧ p_permission p = level.

(** The entries that the joined rows contribute to an object. *)
Definition entries_for (object_uuid : string)
    (rows : list (permission_row * group_row)) : list group_permission :=
  (fun '(p, g) =>
     mk_group_permission (p_group_uuid p) (g_name g) (p_permission p))
  <$> filter (fun '(p, g) => p_object_uuid p = object_uuid) rows.

(** The level [current] raised by the entries of the user's groups. *)
Definition lift (user_groups : list string) (current : Z)
    (permissions : list group_permission) : Z :=
  foldl (fun c e =>
           if bool_decide (gp_group_uuid e ∈ user_groups)
           then Z.max c (gp_permission e) else c)
        current permissions.

(** [v] is the maximum of [floor] and of the numbers in [levels]. *)
Definition maximum_of (floor : Z) (levels : Z -> Prop) (v : Z) : Prop :=
  (v = floor ∨ levels v) ∧ floor ≤ v ∧ ∀ x, levels x → x ≤ v.

End Spec.
Export Spec.

(** ** A reference storage engine and sample data *)
Module Reference.

(** LIKE with [%] (any run of characters) and [_] (any one character),
    case-sensitive. *)
Fixpoint like_pattern (pat : string) : string -> bool :=
  match pat with
  | EmptyString => fun s => bool_decide (s = EmptyString)
  | String c pat' =>
      if bool_decide (c = "%"%char) then
        fix star (s : string) : bool :=
          like_pattern pat' s
          || match s with
             | EmptyString => false
             | String _ s' => star s'
             end
      else fun s =>
        match s with
        | EmptyString => false
        | String d s' =>
            (bool_decide (c = "_"%char) || bool_decide (c = d))
            && like_pattern pat' s'
        end
  end.

Definition digit_of (c : ascii) : option Z :=
  let n := Z.of_nat (nat_of_ascii c) in
  if bool_decide (48 ≤ n ≤ 57) then Some (n - 48) else None.

Fixpoint digits (acc : Z) (s : string) : option Z :=
  match s with
  | EmptyString => Some acc
  | String c s' =>
      match digit_of c with
      | Some d => digits (10 * acc + d) s'
      | None => None
      end
  end.

(** A string read as a number: an optional sign and decimal digits. *)
Definition number_of (s : string) : option Z :=
  match s with
  | EmptyString => None
  | String c s' =>
      if bool_decide (c = "-"%char) then
        match s' with EmptyString => None | _ => Z.opp <$> digits 0 s' end
      else digits 0 s
  end.

Definition number_of_val (v : val) : Z :=
  match v with
  | VNull => 0
  | VInt z => z
  | VStr s => default 0 (number_of s)
  end.

#[global] Instance engine : StorageEngine := {|
  like_match s pat := like_pattern pat s;
  cast_num := number_of;
  num_leb a b := bool_decide (number_of_val a ≤ number_of_val b);
  sql_sum vs := VInt (foldr Z.add 0 (number_of_val <$> vs));
  str_of_num z := DecimalString.NilZero.string_of_int (Z.to_int z);
  fetch_order rows := rows;
  fetch_order_perm rows := Permutation_refl rows;
  fetch_metadata_order rows := rows;
  fetch_metadata_order_perm rows := Permutation_refl rows
|}.

Definition sample_item (id : Z) (w : string) (sort_key : option Z)
  : item_row :=
  mk_item id w None None (Some "text") "markup" sort_key.

(** A worksheet ["w"] with three items, and one item of a worksheet ["v"]. *)
Definition worksheet_db : database :=
  set_worksheet_item
    [sample_item 1 "w" None; sample_item 2 "v" None;
     sample_item 3 "w" None; sample_item 4 "w" None] 5 empty_database.

Definition sample_items : list item :=
  [(Some "0xb1", None, None, "bundle"); (None, None, Some "note", "markup")].

(** The permission levels as integers 0, 1, 2. *)
#[global] Instance levels : PermissionLevels := {|
  GROUP_OBJECT_PERMISSION_NONE := 0;
  GROUP_OBJECT_PERMISSION_READ := 1;
  GROUP_OBJECT_PERMISSION_ALL := 2
|}.

(** Bundle objects that are their values, always valid. *)
#[global] Instance domain : BundleDomain := {|
  bundle_object := bundle_value;
  get_bundle_subclass _ v := Return v;
  validate _ := Return tt;
  bundle_id v := b_id (bv_row v);
  update_in_memory v update :=
    mk_bundle_value (values update (bv_row v)) (bv_dependencies v)
      (bv_metadata v);
  State_RUNNING := "running"
|}.

(** A bundle object in memory. *)
Definition in_memory (id : Z) (uuid : string) : @bundle_object domain :=
  mk_bundle_value (mk_bundle id uuid "run" None None "ready" None) [] [].

(** Bundle ["b"] depends on ["a"] and ["c"] on ["b"]; ["a"] has a metadata
    row, a permission row and a worksheet item. *)
Definition lineage_db : database :=
  mk_database
    [mk_bundle 1 "a" "program" None None "ready" (Some "u");
     mk_bundle 2 "b" "run" None None "ready" (Some "u");
     mk_bundle 3 "c" "run" None None "running" (Some "u")]
    [mk_dependency "b" "program" "a"; mk_dependency "c" "input" "b"]
    [mk_metadata "a" "name" "prog"; mk_metadata "b" "name" "out"]
    [mk_item 1 "w" (Some "a") None None "bundle" None;
     mk_item 2 "w" (Some "b") None None "bundle" None;
     mk_item 3 "w" None None (Some "text") "markup" None] 4
    [mk_group "pub" "public" None] []
    [mk_permission "pub" "a" 1; mk_permission "pub" "b" 1] [].

Definition sample_model : model := mk_model "pub" (Some "root").

(** User ["u"] is in group ["g1"], which may read bundle ["o"] and has all
    permissions on bundle ["q"]; the public group may read ["q"]; bundle
    ["r"] is owned by ["u"]. *)
Definition permission_db : database :=
  mk_database
    [mk_bundle 1 "o" "run" None None "ready" (Some "v");
     mk_bundle 2 "q" "run" None None "ready" None;
     mk_bundle 3 "r" "run" None None "ready" (Some "u")]
    [] [] [] 1
    [mk_group "pub" "public" None; mk_group "g1" "team" (Some "v")]
    [mk_user_group "g1" "u" false]
    [mk_permission "g1" "o" 1; mk_permission "pub" "q" 1;
     mk_permission "g1" "q" 2]
    [].

(** As [permission_db], without the row of group ["g1"] in the group table:
    the membership and permission rows of ["g1"] name a group that is not
    there. *)
Definition dangling_db : database :=
  mk_database (bundle permission_db) [] [] [] 1
    [mk_group "pub" "public" None]
    (user_group permission_db) (group_bundle_permission permission_db) [].

(** Children: a -> b -> c -> a (a cycle), a -> c, and the chain d -> e -> f. *)
Definition graph_db : database :=
  set_bundle_dependency
    [mk_dependency "b" "x" "a"; mk_dependency "c" "y" "b";
     mk_dependency "a" "z" "c"; mk_dependency "c" "x" "a";
     mk_dependency "e" "x" "d"; mk_dependency "f" "x" "e"] empty_database.

End Reference.

(** ** More of the model

    The methods of [BundleModel] that the definitions above do not
    include: the look-ups of names, owners and host worksheets, the
    additions of worksheet items, and the changes of groups, memberships
    and permissions. *)
Module More.

(** [worksheet_util.TYPE_BUNDLE], the type of a worksheet item that refers
    to a bundle. *)
Class WorksheetUtil := {
  TYPE_BUNDLE : string
}.

Section Methods.
Context `{StorageEngine}.

(** *** Look-ups *)

(** [result[row.bundle_uuid].append(row.worksheet_uuid)]; the dictionary
    has no key [None]. *)
Definition append_host (result : outcome (gmap string (list string)))
    (row : item_row) : outcome (gmap string (list string)) :=
  match result with
  | Return m =>
      match i_bundle_uuid row with
      | Some b =>
          match m !! b with
          | Some l => Return (<[b := l ++ [i_worksheet_uuid row]]> m)
          | None => Raise KeyError
          end
      | None => Raise KeyError
      end
  | Raise e => Raise e
  end.

(** Returns [{bundle_uuid: [host_worksheet_uuid, ...], ...}]. *)
Definition get_host_worksheet_uuids (db : database)
    (bundle_uuids : list string) : outcome (gmap string (list string)) :=
  let rows :=
    filter (fun i => holds db [t_worksheet_item]
                       (CIn c_item_bundle_uuid (VStr <$> bundle_uuids))
                       (row_of_item i))
           (worksheet_item db) in
  let result : gmap string (list string) :=
    list_to_map ((fun uuid => (uuid, [])) <$> bundle_uuids) in
  foldl append_host (Return result) rows.

(** What [get_owner_ids] returns: the list [[]] for no uuid, a dictionary
    otherwise. *)
Inductive owner_ids :=
| NoOwners
| Owners (m : gmap string (option string)).

(** [get_owner_ids(cl_bundle, uuids)]: [{uuid: owner_id}] for the rows of
    the given uuids, a later row replacing an earlier one of the same
    uuid. *)
Definition get_bundle_owner_ids (db : database) (uuids : list string)
  : owner_ids :=
  match uuids with
  | [] => NoOwners
  | _ =>
      let rows :=
        filter (fun b => holds db [t_bundle]
                           (CIn c_bundle_uuid (VStr <$> uuids))
                           (row_of_bundle b))
               (bundle db) in
      Owners (foldl (fun m row => <[b_uuid row := b_owner_id row]> m) ∅ rows)
  end.

(** *** Bundles *)
Context `{BundleDomain}.

Definition remove_data_hash_references (uuids : list string) : M unit :=
  (_check_not_running uuids;;;
   transaction (
     _ <- update_bundle_where (CIn c_bundle_uuid (VStr <$> uuids))
            [set_data_hash None];;
     ret tt))%txn.

(** *** Worksheet items *)

(** Appends a new item to the end of the worksheet; a null value is stored
    as the empty string, and the item has no sort key. *)
Definition add_worksheet_item (worksheet_uuid : string) (it : item)
  : M unit :=
  let '(bundle_uuid, subworksheet_uuid, value, type) := it in
  let value :=
    match value with
    | None => Some EmptyString
    | Some _ => value
    end in
  let item_value :=
    mk_item_value worksheet_uuid bundle_uuid subworksheet_uuid value type
      None in
  transaction (insert_worksheet_item [item_value]).

Context `{WorksheetUtil}.

(** The item that shadows [old_item]: the new bundle, on the same worksheet
    with the same sort key. *)
Definition shadow (new_bundle_uuid : string) (old_item : item_row)
  : item_value :=
  mk_item_value (i_worksheet_uuid old_item) (Some new_bundle_uuid) None
    (Some EmptyString) TYPE_BUNDLE (i_sort_key old_item).

(** For each occurrence of [old_bundle_uuid] in any worksheet, adds
    [new_bundle_uuid] with the same sort key, one INSERT per occurrence. *)
Definition add_shadow_worksheet_items (old_bundle_uuid new_bundle_uuid : string)
  : M unit :=
  transaction (fun db =>
    let old_items :=
      filter (fun i => holds db [t_worksheet_item]
                         (col_eq c_item_bundle_uuid (VStr old_bundle_uuid))
                         (row_of_item i))
             (worksheet_item db) in
    foldl (fun acc old_item =>
             (acc;;; insert_worksheet_item [shadow new_bundle_uuid old_item])%txn)
          (ret tt) old_items db).

(** *** Names *)

(** What [get_bundle_names] returns: the list [[]] for no uuid, a
    dictionary otherwise. *)
Inductive bundle_names :=
| NoNames
| Names (m : gmap string string).

(** [{bundle_uuid: metadata_value}] for the metadata rows of key [name] of
    the given uuids.  The SELECT has no ORDER BY: the rows come back in
    the order of the engine, and of two rows of the same bundle the one
    that comes later replaces the other. *)
Definition get_bundle_names (db : database) (uuids : list string)
  : bundle_names :=
  match uuids with
  | [] => NoNames
  | _ =>
      let rows :=
        fetch_metadata_order
          (filter (fun m => holds db [t_bundle_metadata]
                              (CAnd [col_eq c_meta_metadata_key (VStr "name");
                                     CIn c_meta_bundle_uuid (VStr <$> uuids)])
                              (row_of_metadata m))
                  (bundle_metadata db)) in
      Names (foldl (fun m row => <[m_bundle_uuid row := m_metadata_value row]> m)
                   ∅ rows)
  end.

(** *** Groups and memberships *)

(** The DELETE statements of [delete_group], in the order in which they are
    executed. *)
Definition delete_group_statements (uuid : string) : list (table * clause) :=
  [ (t_group_bundle_permission,
     col_eq (c_perm_group_uuid of_bundle) (VStr uuid));
    (t_group_worksheet_permission,
     col_eq (c_perm_group_uuid of_worksheet) (VStr uuid));
    (t_user_group, col_eq c_ug_group_uuid (VStr uuid));
    (t_group, col_eq c_group_uuid (VStr uuid)) ].

Definition delete_group (uuid : string) : M unit :=
  transaction (execute_all (delete_group_statements uuid)).

(** [cl_user_group.insert().values(row)]. *)
Definition insert_user_group (row : user_group_row) : M unit := fun db =>
  (Return tt, set_user_group (user_group db ++ [row]) db).

(** Returns the row added.  The id that the engine gives to the row is not
    a column of the rows of [user_group] here, and is left out of the row
    returned. *)
Definition add_user_in_group (user_id group_uuid : string) (is_admin : bool)
  : M user_group_row :=
  let row := mk_user_group group_uuid user_id is_admin in
  transaction (insert_user_group row;;; ret row)%txn.

(** [.where(a).where(b)] is the conjunction of [a] and [b]. *)
Definition delete_user_in_group (user_id : option string)
    (group_uuid : string) : M unit :=
  transaction (
    _ <- delete_from t_user_group
           (CAnd [col_eq c_ug_user_id (opt_str user_id);
                  col_eq c_ug_group_uuid (VStr group_uuid)]);;
    ret tt)%txn.

(** [cl_user_group.update().where(clause).values({'is_admin': is_admin})];
    returns [result.rowcount]. *)
Definition update_user_group_where (cl : clause) (is_admin : bool) : M Z :=
  fun db =>
  let hit u := holds db [t_user_group] cl (row_of_user_group u) in
  (Return (Z.of_nat (length (filter hit (user_group db)))),
   set_user_group
     ((fun u => if hit u
                then mk_user_group (ug_group_uuid u) (ug_user_id u) is_admin
                else u) <$> user_group db) db).

Definition update_user_in_group (user_id : option string)
    (group_uuid : string) (is_admin : bool) : M unit :=
  transaction (
    _ <- update_user_group_where
           (CAnd [col_eq c_ug_user_id (opt_str user_id);
                  col_eq c_ug_group_uuid (VStr group_uuid)])
           is_admin;;
    ret tt)%txn.

(** *** Permissions *)

Definition set_permission_rows (table : object_kind) (l : list permission_row)
    (db : database) : database :=
  match table with
  | of_bundle => set_group_bundle_permission l db
  | of_worksheet => set_group_worksheet_permission l db
  end.

(** [table.insert().values(row)]. *)
Definition insert_permission (table : object_kind) (row : permission_row)
  : M unit := fun db =>
  (Return tt,
   set_permission_rows table (permission_rows db table ++ [row]) db).

(** Returns the row added, without the id that the engine gives it. *)
Definition add_permission (table : object_kind)
    (group_uuid object_uuid : string) (permission : Z) : M permission_row :=
  let row := mk_permission group_uuid object_uuid permission in
  transaction (insert_permission table row;;; ret row)%txn.

Definition add_bundle_permission (group_uuid bundle_uuid : string)
    (permission : Z) : M unit :=
  (_ <- add_permission of_bundle group_uuid bundle_uuid permission;;
   ret tt)%txn.

Definition add_worksheet_permission (group_uuid worksheet_uuid : string)
    (permission : Z) : M unit :=
  (_ <- add_permission of_worksheet group_uuid worksheet_uuid permission;;
   ret tt)%txn.

Definition delete_permission (table : object_kind)
    (group_uuid object_uuid : string) : M unit :=
  transaction (
    _ <- delete_from (permission_table table)
           (CAnd [col_eq (c_perm_group_uuid table) (VStr group_uuid);
                  col_eq (c_perm_object_uuid table) (VStr object_uuid)]);;
    ret tt)%txn.

Definition delete_bundle_permission (group_uuid bundle_uuid : string)
  : M unit :=
  delete_permission of_bundle group_uuid bundle_uuid.

Definition delete_worksheet_permission (group_uuid worksheet_uuid : string)
  : M unit :=
  delete_permission of_worksheet group_uuid worksheet_uuid.

(** [table.update().where(clause).values({'permission': permission})];
    returns [result.rowcount]. *)
Definition update_permission_where (table : object_kind) (cl : clause)
    (permission : Z) : M Z := fun db =>
  let hit p :=
    holds db [permission_table table] cl (row_of_permission table p) in
  (Return (Z.of_nat (length (filter hit (permission_rows db table)))),
   set_permission_rows table
     ((fun p => if hit p
                then mk_permission (p_group_uuid p) (p_object_uuid p)
                       permission
                else p) <$> permission_rows db table) db).

Definition update_permission (table : object_kind)
    (group_uuid object_uuid : string) (permission : Z) : M unit :=
  transaction (
    _ <- update_permission_where table
           (CAnd [col_eq (c_perm_group_uuid table) (VStr group_uuid);
                  col_eq (c_perm_object_uuid table) (VStr object_uuid)])
           permission;;
    ret tt)%txn.

Definition update_bundle_permission (group_uuid bundle_uuid : string)
    (permission : Z) : M unit :=
  update_permission of_bundle group_uuid bundle_uuid permission.

Definition update_worksheet_permission (group_uuid worksheet_uuid : string)
    (permission : Z) : M unit :=
  update_permission of_worksheet group_uuid worksheet_uuid permission.

(** The entries of the given object; [result] is a [defaultdict(list)], so
    an object without entries has the empty list. *)
Definition get_group_permissions (db : database) (table : object_kind)
    (object_uuid : string) : list group_permission :=
  default [] (batch_get_group_permissions db table [object_uuid]
                !! object_uuid).

Definition get_group_bundle_permissions (db : database) (bundle_uuid : string)
  : list group_permission :=
  get_group_permissions db of_bundle bundle_uuid.

Definition get_group_worksheet_permissions (db : database)
    (worksheet_uuid : string) : list group_permission :=
  get_group_permissions db of_worksheet worksheet_uuid.

Context `{PermissionLevels}.

(** The loop of [get_group_permission]: the permission of the first entry
    of the group, and NONE when there is none. *)
Fixpoint first_permission (group_uuid : string)
    (rows : list group_permission) : Z :=
  match rows with
  | [] => GROUP_OBJECT_PERMISSION_NONE
  | row :: rest =>
      if bool_decide (gp_group_uuid row = group_uuid) then gp_permission row
      else first_permission group_uuid rest
  end.

Definition get_group_permission (db : database) (table : object_kind)
    (group_uuid object_uuid : string) : Z :=
  first_permission group_uuid (get_group_permissions db table object_uuid).

Definition get_group_bundle_permission (db : database)
    (group_uuid bundle_uuid : string) : Z :=
  get_group_permission db of_bundle group_uuid bundle_uuid.

Definition get_group_worksheet_permission (db : database)
    (group_uuid worksheet_uuid : string) : Z :=
  get_group_permission db of_worksheet group_uuid worksheet_uuid.

End Methods.

(** *** Vocabulary *)

(** The worksheets that have an item on bundle [b], one per item. *)
Definition hosts_of (db : database) (b : string) : list string :=
  i_worksheet_uuid <$>
    filter (fun i => i_bundle_uuid i = Some b) (worksheet_item db).

(** [u] is [n] child edges away from one of the seeds. *)
Inductive reach (db : database) (seeds : list string) : nat -> string -> Prop :=
| reach_seed u : u ∈ seeds -> reach db seeds 0 u
| reach_child n d :
    reach db seeds n (d_parent_uuid d) -> d ∈ bundle_dependency db ->
    reach db seeds (S n) (d_child_uuid d).

(** The bundles of [uuids] that are running. *)
Definition running `{BundleDomain} (db : database) (uuids : list string)
  : list bundle_row :=
  filter (fun b => b_uuid b ∈ uuids ∧ b_state b = State_RUNNING) (bundle db).

(** The bundle row without its data hash. *)
Definition without_data_hash (b : bundle_row) : bundle_row :=
  mk_bundle (b_id b) (b_uuid b) (b_bundle_type b) (b_command b) None
    (b_state b) (b_owner_id b).

(** The row that [add_worksheet_item] stores for the caller's item. *)
Definition appended (id : Z) (worksheet_uuid : string) (it : item)
  : item_row :=
  let '(bundle_uuid, subworksheet_uuid, value, type) := it in
  mk_item id worksheet_uuid bundle_uuid subworksheet_uuid
    (Some (default EmptyString value)) type None.

(** The items that refer to bundle [b]. *)
Definition occurrences (db : database) (b : string) : list item_row :=
  filter (fun i => i_bundle_uuid i = Some b) (worksheet_item db).

(** The permission rows of the pair of a group and an object. *)
Definition pair_rows (db : database) (table : object_kind)
    (group_uuid object_uuid : string) : list permission_row :=
  filter (fun p => p_group_uuid p = group_uuid ∧ p_object_uuid p = object_uuid)
         (permission_rows db table).

(** The membership rows of a user. *)
Definition memberships (db : database) (user_id : string)
  : list user_group_row :=
  filter (fun r => ug_user_id r = user_id) (user_group db).

(** The database without the group [uuid], its memberships and its
    permission rows. *)
Definition without_group (uuid : string) (db : database) : database :=
  mk_database (bundle db) (bundle_dependency db) (bundle_metadata db)
    (worksheet_item db) (next_item_id db)
    (filter (fun g => g_uuid g ≠ uuid) (group db))
    (filter (fun r => ug_group_uuid r ≠ uuid) (user_group db))
    (filter (fun p => p_group_uuid p ≠ uuid) (group_bundle_permission db))
    (filter (fun p => p_group_uuid p ≠ uuid) (group_worksheet_permission db)).

(** The metadata rows that give a name to bundle [u]. *)
Definition name_rows (db : database) (u : string) : list metadata_row :=
  filter (fun r => m_bundle_uuid r = u ∧ m_metadata_key r = "name")
         (bundle_metadata db).

(** [n] child edges are within the depth. *)
Definition within (d : depth) (n : nat) : Prop :=
  match d with
  | Finite z => (n ≤ Z.to_nat z)%nat
  | Infinite => True
  end.

End More.

(** ** More sample data *)
Module Samples.

(** The type of the items that refer to a bundle. *)
#[global] Instance worksheet_util : More.WorksheetUtil := {|
  More.TYPE_BUNDLE := "bundle"
|}.

(** [Reference.permission_db] after group ["g1"] is given all permissions
    on bundle ["r"]. *)
Definition granted_db : database :=
  (More.add_permission of_bundle "g1" "r" 2 Reference.permission_db).2.

(** [Reference.permission_db] after user ["x"] joins group ["g1"]. *)
Definition joined_db : database :=
  (More.add_user_in_group "x" "g1" false Reference.permission_db).2.

(** [Reference.permission_db] without any permission row on a bundle. *)
Definition unshared_db : database :=
  set_group_bundle_permission [] Reference.permission_db.

End Samples.

(** ** Properties *)

(** *** Worksheet update *)
Section WorksheetUpdate.
Context `{StorageEngine}.

Lemma holds_update_clause db w last i :
  holds db [t_worksheet_item]
    (CAnd [col_eq c_item_worksheet_uuid (VStr w); CLe c_item_id last])
    (row_of_item i)
  ↔ replaced w last i.
Proof.
  unfold holds, replaced. rewrite bool_decide_spec. simpl.
  destruct (decide (i_worksheet_uuid i = w)) as [Hw|Hw];
    destruct (decide (i_id i ≤ last)) as [Hl|Hl];
    rewrite ?(bool_decide_true _ Hw), ?(bool_decide_false _ Hw),
            ?(bool_decide_true _ Hl), ?(bool_decide_false _ Hl); simpl;
    split; intros; try done; try tauto; destruct_and?; done.
Qed.

Lemma update_worksheet_cases db w last len items :
  update_worksheet w last len items db =
    if decide (len < deleted_count db w last)
    then (Raise (IntegrityError ("Found extra items for worksheet " ++ w)%string), db)
    else if decide (deleted_count db w last < len)
    then (Raise (UsageError
                   ("Worksheet " ++ w ++ " was updated concurrently!")%string),
          db)
    else do_multirow_insert (new_item_values w last items)
           (set_worksheet_item (kept db w last) (next_item_id db) db).
Proof.
  unfold update_worksheet, transaction, bind, delete_worksheet_item,
    precondition, deleted_count, kept.
  rewrite (list_filter_iff _ (replaced w last))
    by (intros i; apply holds_update_clause).
  rewrite (list_filter_iff (fun i => negb _) (fun i => ¬ replaced w last i)).
  2:{ intros i. rewrite negb_True. by rewrite holds_update_clause. }
  set (n := Z.of_nat (length (filter (replaced w last) (worksheet_item db)))).
  destruct (decide (len < n)) as [Hgt|Hle].
  - rewrite (proj2 (Z.leb_gt n len)) by lia. done.
  - rewrite (proj2 (Z.leb_le n len)) by lia. unfold ret.
    destruct (decide (n < len)) as [Hlt|Hge].
    + rewrite (proj2 (Z.ltb_lt n len)) by lia. done.
    + rewrite (proj2 (Z.ltb_ge n len)) by lia.
      destruct (do_multirow_insert _ _) as [[a|e] db'] eqn:E; [done|].
      unfold do_multirow_insert in E. destruct (new_item_values _ _ _); done.
Qed.

(** C4. [update_worksheet] is rejected when the DELETE removes a number of
    rows other than [length]: fewer rows raise a [UsageError] (the worksheet
    was updated concurrently), more rows fail the precondition with an
    integrity error, and in both cases the transaction rolls back, so the
    database (the worksheet's items included) is the one before the call. *)
Theorem update_worksheet_rejects db w last len items :
  (deleted_count db w last < len →
     ∃ msg, update_worksheet w last len items db = (Raise (UsageError msg), db))
  ∧ (len < deleted_count db w last →
     ∃ msg,
       update_worksheet w last len items db = (Raise (IntegrityError msg), db)).
Proof.
  rewrite update_worksheet_cases. split; intros Hn.
  - rewrite decide_False by lia. rewrite decide_True by done. eauto.
  - rewrite decide_True by done. eauto.
Qed.

Lemma inserted_lookup n w last (items : list item) index row :
  imap (fun k v => stored (n + Z.of_nat k) v) (new_item_values w last items)
    !! index = Some row →
  ∃ it, items !! index = Some it ∧ stores row w it ∧
        i_sort_key row
        = Some (last + Z.of_nat index - Z.of_nat (length items)).
Proof.
  unfold new_item_values. rewrite !list_lookup_imap.
  unfold item in *.
  destruct (items !! index) as [[[[b s] v] t]|] eqn:E; simpl; [|done].
  intros [= <-]. exists (b, s, v, t). by repeat split.
Qed.

(** C3. A successful [update_worksheet] with a non-empty [new_items] appends
    one row per new item, in the caller's order; the row at position [index]
    has sort key [last_item_id + index - len(new_items)], so every new sort
    key is below [last_item_id] and the sort keys increase strictly with
    [index]. *)
Theorem update_worksheet_sort_keys db w last len (items : list item) db' :
  items ≠ [] →
  update_worksheet w last len items db = (Return tt, db') →
  ∃ inserted : list item_row,
    worksheet_item db' = kept db w last ++ inserted
    ∧ length inserted = length items
    ∧ (∀ index row, inserted !! index = Some row →
         i_sort_key row
         = Some (last + Z.of_nat index - Z.of_nat (length items))
         ∧ ∃ it, items !! index = Some it ∧ stores row w it)
    ∧ (∀ index row, inserted !! index = Some row →
         ∃ k, i_sort_key row = Some k ∧ k < last)
    ∧ (∀ i j ri rj, (i < j)%nat →
         inserted !! i = Some ri → inserted !! j = Some rj →
         ∃ ki kj, i_sort_key ri = Some ki ∧ i_sort_key rj = Some kj
                  ∧ ki < kj).
Proof.
  intros Hne. rewrite update_worksheet_cases.
  repeat case_decide; try done.
  unfold do_multirow_insert.
  destruct (new_item_values w last items) as [|v vs] eqn:Ev.
  { apply (f_equal length) in Ev. unfold new_item_values in Ev.
    rewrite length_imap in Ev. destruct items; done. }
  rewrite <- Ev. clear v vs Ev.
  unfold insert_worksheet_item. simpl. intros [= <-]. simpl.
  eexists. split; [reflexivity|].
  split. { unfold new_item_values. by rewrite !length_imap. }
  assert (Hlen : ∀ index row,
    imap (fun k v => stored (next_item_id db + Z.of_nat k) v)
         (new_item_values w last items) !! index = Some row →
    (index < length items)%nat).
  { intros index row Hrow. apply lookup_lt_Some in Hrow.
    unfold new_item_values in Hrow. by rewrite !length_imap in Hrow. }
  split; [|split].
  - intros index row Hrow.
    destruct (inserted_lookup _ _ _ _ _ _ Hrow) as (it & Hit & Hst & Hk).
    eauto.
  - intros index row Hrow. pose proof (Hlen _ _ Hrow).
    destruct (inserted_lookup _ _ _ _ _ _ Hrow) as (it & Hit & Hst & Hk).
    eexists. split; [done|]. lia.
  - intros i j ri rj Hij Hi Hj.
    destruct (inserted_lookup _ _ _ _ _ _ Hi) as (? & _ & _ & Hki).
    destruct (inserted_lookup _ _ _ _ _ _ Hj) as (? & _ & _ & Hkj).
    eexists _, _. repeat split; [done..|]. lia.
Qed.

End WorksheetUpdate.

Lemma update_worksheet_sort_keys_witness :
  ∃ inserted : list item_row,
    worksheet_item
      (update_worksheet "w" 3 2 Reference.sample_items
         Reference.worksheet_db).2
    = kept Reference.worksheet_db "w" 3 ++ inserted
    ∧ length inserted = 2%nat
    ∧ (∀ index row, inserted !! index = Some row →
         i_sort_key row = Some (3 + Z.of_nat index - 2)
         ∧ ∃ it, Reference.sample_items !! index = Some it
                 ∧ stores row "w" it)
    ∧ (∀ index row, inserted !! index = Some row →
         ∃ k, i_sort_key row = Some k ∧ k < 3)
    ∧ (∀ i j ri rj, (i < j)%nat →
         inserted !! i = Some ri → inserted !! j = Some rj →
         ∃ ki kj, i_sort_key ri = Some ki ∧ i_sort_key rj = Some kj
                  ∧ ki < kj).
Proof.
  apply (update_worksheet_sort_keys Reference.worksheet_db "w" 3 2
           Reference.sample_items).
  - discriminate.
  - vm_compute. reflexivity.
Defined.

Lemma update_worksheet_rejects_witness :
  (∃ msg, update_worksheet "w" 3 3 Reference.sample_items
            Reference.worksheet_db
          = (Raise (UsageError msg), Reference.worksheet_db))
  ∧ (∃ msg, update_worksheet "w" 3 1 Reference.sample_items
              Reference.worksheet_db
            = (Raise (IntegrityError msg), Reference.worksheet_db)).
Proof.
  split.
  - apply (update_worksheet_rejects Reference.worksheet_db "w" 3 3
             Reference.sample_items).
    vm_compute. reflexivity.
  - apply (update_worksheet_rejects Reference.worksheet_db "w" 3 1
             Reference.sample_items).
    vm_compute. reflexivity.
Defined.

(** *** Membership clauses *)
Section Membership.
Context `{StorageEngine}.

Lemma sql_in_strs x (l : list string) :
  sql_in (VStr x) (VStr <$> l) = Some (bool_decide (x ∈ l)).
Proof.
  unfold sql_in. induction l as [|a l IH]; [done|].
  rewrite fmap_cons. cbn [foldr]. rewrite IH. cbn [sql_eq].
  - destruct (decide (x = a)) as [->|Hne].
    + rewrite (bool_decide_true (a = a)) by done.
      rewrite (bool_decide_true (a ∈ a :: l)) by apply list_elem_of_here.
      done.
    + rewrite (bool_decide_false (x = a)) by done.
      destruct (decide (x ∈ l)) as [Hin|Hin].
      * rewrite (bool_decide_true (x ∈ l)) by done.
        by rewrite bool_decide_true by by apply list_elem_of_further.
      * rewrite (bool_decide_false (x ∈ l)) by done.
        rewrite bool_decide_false; [done|].
        by intros [?|?]%elem_of_cons.
Qed.

Lemma holds_in_strs db outer c (l : list string) env x :
  env c = VStr x →
  holds db outer (CIn c (VStr <$> l)) env ↔ x ∈ l.
Proof.
  intros Hc. unfold holds. rewrite bool_decide_spec. simpl.
  rewrite Hc, sql_in_strs. split.
  - intros [= Hb]. by apply bool_decide_eq_true in Hb.
  - intros Hin. by rewrite bool_decide_true.
Qed.

Lemma sql_in_ints x (l : list Z) :
  sql_in (VInt x) (VInt <$> l) = Some (bool_decide (x ∈ l)).
Proof.
  unfold sql_in. induction l as [|a l IH]; [done|].
  rewrite fmap_cons. cbn [foldr]. rewrite IH. cbn [sql_eq].
  destruct (decide (x = a)) as [->|Hne].
  - rewrite (bool_decide_true (a = a)) by done.
    rewrite (bool_decide_true (a ∈ a :: l)) by apply list_elem_of_here.
    done.
  - rewrite (bool_decide_false (x = a)) by done.
    destruct (decide (x ∈ l)) as [Hin|Hin].
    + rewrite (bool_decide_true (x ∈ l)) by done.
      by rewrite bool_decide_true by by apply list_elem_of_further.
    + rewrite (bool_decide_false (x ∈ l)) by done.
      rewrite bool_decide_false; [done|].
      by intros [?|?]%elem_of_cons.
Qed.

(** NULL is in no list. *)
Lemma sql_in_null (l : list val) : sql_in VNull l ≠ Some true.
Proof.
  unfold sql_in. induction l as [|a l IH]; [done|]. cbn [foldr sql_eq].
  destruct (foldr _ _ l) as [[]|]; done.
Qed.

Lemma holds_in_opt_strs db outer c (l : list string) env (o : option string) :
  env c = opt_str o →
  holds db outer (CIn c (VStr <$> l)) env ↔ ∃ x, o = Some x ∧ x ∈ l.
Proof.
  intros Hc. destruct o as [x|].
  - rewrite (holds_in_strs _ _ _ _ _ x) by done. naive_solver.
  - unfold holds. rewrite bool_decide_spec. simpl. rewrite Hc. simpl.
    split; [by intros ?%sql_in_null|]. by intros (? & ? & _).
Qed.

(** A conjunction is true exactly when all its conjuncts are. *)
Lemma eval_and_true db outer env (cs : list clause) :
  eval db outer env (CAnd cs) = Some true
  ↔ ∀ c, c ∈ cs → eval db outer env c = Some true.
Proof.
  cbn [eval]. induction cs as [|c cs IH]; cbn [foldr].
  - split; [by intros _ c ?%elem_of_nil|done].
  - split.
    + intros Hand c' [->|Hin]%elem_of_cons.
      * by destruct (eval db outer env c) as [[]|], (foldr _ _ cs) as [[]|].
      * apply IH; [|done].
        by destruct (eval db outer env c) as [[]|], (foldr _ _ cs) as [[]|].
    + intros Hall. rewrite (Hall c) by apply list_elem_of_here.
      rewrite (proj2 IH); [done|].
      intros c' Hin. apply Hall. by apply list_elem_of_further.
Qed.

(** A disjunction is true exactly when one of its disjuncts is. *)
Lemma eval_or_true db outer env (cs : list clause) :
  eval db outer env (COr cs) = Some true
  ↔ ∃ c, c ∈ cs ∧ eval db outer env c = Some true.
Proof.
  cbn [eval]. induction cs as [|c cs IH]; cbn [foldr].
  - split; [done|]. by intros (c & ?%elem_of_nil & _).
  - split.
    + intros Hor. destruct (eval db outer env c) as [[]|] eqn:Hc.
      * exists c. split; [apply list_elem_of_here|done].
      * destruct (proj1 IH) as (c' & Hin & Hc');
          [by destruct (foldr _ _ cs) as [[]|]|].
        exists c'. split; [by apply list_elem_of_further|done].
      * destruct (proj1 IH) as (c' & Hin & Hc');
          [by destruct (foldr _ _ cs) as [[]|]|].
        exists c'. split; [by apply list_elem_of_further|done].
    + intros (c' & [->|Hin]%elem_of_cons & Hc').
      * rewrite Hc'. by destruct (foldr _ _ cs) as [[]|].
      * rewrite (proj2 IH) by eauto.
        by destruct (eval db outer env c) as [[]|].
Qed.

End Membership.

(** *** Clauses from keyword arguments *)
Section KwargsClauses.
Context `{StorageEngine}.

Lemma make_kwargs_clause_unfold (kwargs : list (column * value)) :
  make_kwargs_clause kwargs
  = CAnd (CTrue :: ((fun kv => make_clause kv.1 kv.2) <$> kwargs)).
Proof.
  unfold make_kwargs_clause. f_equal.
  change (CTrue :: ((fun kv => make_clause kv.1 kv.2) <$> kwargs))
    with ([CTrue] ++ ((fun kv => make_clause kv.1 kv.2) <$> kwargs)).
  generalize [CTrue].
  induction kwargs as [|[k v] kwargs IH]; intros cs; cbn [foldl].
  - by rewrite fmap_nil, app_nil_r.
  - rewrite IH, fmap_cons, <- app_assoc. done.
Qed.

(** A conjunction with a false conjunct is false, whatever the others are. *)
Lemma eval_and_false db outer env (cs : list clause) c :
  c ∈ cs → eval db outer env c = Some false →
  eval db outer env (CAnd cs) = Some false.
Proof.
  intros Hin Hc. cbn [eval].
  induction cs as [|c' cs IH]; [by apply elem_of_nil in Hin|].
  cbn [foldr]. apply elem_of_cons in Hin as [<-|Hin].
  - rewrite Hc. done.
  - rewrite IH by done. by destruct (eval db outer env c') as [[]|].
Qed.

(** C9. For an empty list, set or tuple, [make_clause] returns a clause that
    is false on every row, and so is every clause [make_kwargs_clause]
    builds from keyword arguments that hold such a value: the clause matches
    nothing, and building or evaluating it raises no error. *)
Theorem make_clause_empty_matches_nothing db outer env key value :
  empty_collection value →
  eval db outer env (make_clause key value) = Some false
  ∧ holds db outer (make_clause key value) env = false
  ∧ ∀ kwargs, (key, value) ∈ kwargs →
      eval db outer env (make_kwargs_clause kwargs) = Some false
      ∧ holds db outer (make_kwargs_clause kwargs) env = false.
Proof.
  intros Hempty.
  assert (Hc : eval db outer env (make_clause key value) = Some false)
    by by destruct Hempty as [->|[->| ->]].
  split; [done|]. split; [unfold holds; by rewrite Hc|].
  intros kwargs Hin.
  assert (Hk : eval db outer env (make_kwargs_clause kwargs) = Some false).
  { rewrite make_kwargs_clause_unfold.
    apply (eval_and_false _ _ _ _ (make_clause key value)); [|done].
    apply list_elem_of_further, list_elem_of_fmap. by exists (key, value). }
  split; [done|]. unfold holds. by rewrite Hk.
Qed.

End KwargsClauses.

Lemma make_clause_empty_matches_nothing_witness :
  eval Reference.permission_db [t_bundle]
    (row_of_bundle (mk_bundle 1 "o" "run" None None "ready" (Some "v")))
    (make_clause c_bundle_uuid (PyList [])) = Some false
  ∧ holds Reference.permission_db [t_bundle]
      (make_clause c_bundle_uuid (PyList []))
      (row_of_bundle (mk_bundle 1 "o" "run" None None "ready" (Some "v")))
    = false
  ∧ ∀ kwargs, (c_bundle_uuid, PyList []) ∈ kwargs →
      eval Reference.permission_db [t_bundle]
        (row_of_bundle (mk_bundle 1 "o" "run" None None "ready" (Some "v")))
        (make_kwargs_clause kwargs) = Some false
      ∧ holds Reference.permission_db [t_bundle]
          (make_kwargs_clause kwargs)
          (row_of_bundle (mk_bundle 1 "o" "run" None None "ready" (Some "v")))
        = false.
Proof.
  apply (make_clause_empty_matches_nothing Reference.permission_db
           [t_bundle]
           (row_of_bundle (mk_bundle 1 "o" "run" None None "ready" (Some "v")))
           c_bundle_uuid (PyList [])).
  left. reflexivity.
Defined.

(** *** Bundles *)
Section Bundles.
Context `{StorageEngine} `{BundleDomain}.

Lemma holds_uuid db uuid b :
  holds db [t_bundle]
    (make_kwargs_clause [(c_bundle_uuid, PyScalar (VStr uuid))])
    (row_of_bundle b)
  ↔ b_uuid b = uuid.
Proof.
  unfold holds. rewrite bool_decide_spec. simpl.
  destruct (decide (b_uuid b = uuid)) as [Heq|Hne].
  - by rewrite bool_decide_true.
  - rewrite bool_decide_false by done. simpl. split; [done|congruence].
Qed.




Lemma filter_none {A} (P : A → Prop) `{∀ x, Decision (P x)} (l : list A) :
  (∀ x, x ∈ l → ¬ P x) → filter P l = [].
Proof.
  induction l as [|x l IH]; [done|]. intros Hall. rewrite filter_cons.
  rewrite decide_False by (apply Hall, list_elem_of_here).
  apply IH. intros y Hy. apply Hall. by apply list_elem_of_further.
Qed.



Lemma holds_and2 db outer env c1 c2 :
  holds db outer (CAnd [c1; c2]) env
  = holds db outer c1 env && holds db outer c2 env.
Proof.
  unfold holds. cbn [eval foldr].
  by destruct (eval db outer env c1) as [[]|],
              (eval db outer env c2) as [[]|].
Qed.

Lemma holds_id_in db (ids : list Z) b :
  holds db [t_bundle] (CIn c_bundle_id (VInt <$> remove_dups ids))
    (row_of_bundle b)
  = bool_decide (b_id b ∈ ids).
Proof.
  unfold holds. cbn [eval row_of_bundle]. rewrite sql_in_ints.
  apply bool_decide_ext. split.
  - intros [= Hb]. apply bool_decide_eq_true in Hb.
    by apply elem_of_remove_dups.
  - intros Hin. rewrite bool_decide_true; [done|].
    by apply elem_of_remove_dups.
Qed.

(** What a call with a legal update of some column, on some bundles, does:
    it executes the UPDATE and compares the number of rows it matched with
    the number of distinct ids. *)
Lemma batch_update_bundles_run db (bundles : list bundle_object) update
    condition :
  legal_update update = true → update ≠ [] → bundles ≠ [] →
  batch_update_bundles bundles update condition db
  = let success :=
      Z.of_nat (length (filter (fun b => matched db bundles condition b)
                               (bundle db)))
      =? Z.of_nat (length (remove_dups (bundle_id <$> bundles))) in
    (Return (success,
             if success
             then (fun bundle => update_in_memory bundle update) <$> bundles
             else bundles),
     set_bundle
       ((fun b => if matched db bundles condition b
                  then values update b else b) <$> bundle db) db).
Proof.
  intros Hlegal Hupdate Hne.
  unfold batch_update_bundles, bind, precondition. rewrite Hlegal.
  unfold ret. destruct bundles as [|x bundles'] eqn:E; [done|].
  rewrite <- E in *. clear E x bundles' Hne.
  set (clause := match condition with
                 | Some ((_ :: _) as condition) => CAnd [_; _]
                 | _ => CIn _ _
                 end).
  assert (Hhit : ∀ b, holds db [t_bundle] clause (row_of_bundle b)
                      = matched db bundles condition b).
  { intros b. unfold clause, matched.
    destruct condition as [[|kv condition]|];
      rewrite ?holds_and2, holds_id_in; by rewrite ?andb_true_r. }
  unfold transaction, update_bundle_where.
  destruct update as [|a update'] eqn:Eu; [done|].
  rewrite <- Eu in *. clear Eu a update' Hupdate.
  rewrite (list_filter_iff
             (fun b => Is_true (holds db [t_bundle] clause (row_of_bundle b)))
             (fun b => Is_true (matched db bundles condition b)))
    by (intros b; by rewrite Hhit).
  cbn zeta.
  assert (Hrows :
    (fun b => if holds db [t_bundle] clause (row_of_bundle b)
              then values update b else b) <$> bundle db
    = (fun b => if matched db bundles condition b
                then values update b else b) <$> bundle db).
  { apply list_fmap_ext. intros i b _. by rewrite Hhit. }
  rewrite Hrows. by destruct (_ =? _).
Qed.

(** With no column to set, the UPDATE is refused by the engine: the call
    raises and the database is as before. *)
Lemma batch_update_bundles_no_column db (bundles : list bundle_object)
    condition :
  bundles ≠ [] →
  batch_update_bundles bundles [] condition db = (Raise OperationalError, db).
Proof. intros Hne. by destruct bundles. Qed.

(** C6, as amended.  When the UPDATE of [batch_update_bundles], for a legal
    update of at least one column and a condition on columns of the bundle
    table, matches a number of rows other than the number of distinct ids
    of the bundles given, the method returns [False] without raising and
    updates no bundle object in memory; the transaction is committed, so
    the rows the UPDATE matched keep the new values, and the other rows are
    as before. *)
Theorem batch_update_bundles_mismatch db (bundles : list bundle_object)
    update condition :
  legal_update update = true →
  update ≠ [] →
  bundles ≠ [] →
  condition_on t_bundle condition →
  length (filter (fun b => matched db bundles condition b) (bundle db))
  ≠ length (remove_dups (bundle_id <$> bundles)) →
  batch_update_bundles bundles update condition db
  = (Return (false, bundles),
     set_bundle
       ((fun b => if matched db bundles condition b
                  then values update b else b) <$> bundle db) db).
Proof.
  intros Hlegal Hupdate Hne _ Hcount.
  rewrite batch_update_bundles_run by done. cbn zeta.
  by rewrite (proj2 (Z.eqb_neq _ _)) by lia.
Qed.

(** Each DELETE of [delete_bundles] keeps the rows that belong to no bundle
    of [uuids]. *)
Lemma delete_permission_in (uuids : list string) db :
  ∃ n, delete_from t_group_bundle_permission
         (CIn (c_perm_object_uuid of_bundle) (VStr <$> uuids)) db
       = (Return n,
          set_group_bundle_permission
            (filter (fun p => p_object_uuid p ∉ uuids)
                    (group_bundle_permission db)) db).
Proof.
  eexists. cbn [delete_from]. unfold delete_group_bundle_permission.
  do 2 f_equal. apply list_filter_iff. intros p. rewrite negb_True.
  by rewrite (holds_in_strs _ _ _ _ _ (p_object_uuid p)).
Qed.

Lemma delete_item_in (uuids : list string) db :
  ∃ n, delete_from t_worksheet_item
         (CIn c_item_bundle_uuid (VStr <$> uuids)) db
       = (Return n,
          set_worksheet_item
            (filter (fun i => ¬ refers_to uuids i) (worksheet_item db))
            (next_item_id db) db).
Proof.
  eexists. cbn [delete_from]. unfold delete_worksheet_item.
  do 2 f_equal. apply list_filter_iff. intros i. rewrite negb_True.
  rewrite (holds_in_opt_strs _ _ _ _ _ (i_bundle_uuid i)) by done.
  unfold refers_to. destruct (i_bundle_uuid i) as [u|].
  - rewrite bool_decide_spec. naive_solver.
  - naive_solver.
Qed.

Lemma delete_metadata_in (uuids : list string) db :
  ∃ n, delete_from t_bundle_metadata
         (CIn c_meta_bundle_uuid (VStr <$> uuids)) db
       = (Return n,
          set_bundle_metadata
            (filter (fun m => m_bundle_uuid m ∉ uuids) (bundle_metadata db))
            db).
Proof.
  eexists. cbn [delete_from]. unfold delete_bundle_metadata.
  do 2 f_equal. apply list_filter_iff. intros m. rewrite negb_True.
  by rewrite (holds_in_strs _ _ _ _ _ (m_bundle_uuid m)).
Qed.

Lemma delete_dependency_in (uuids : list string) db :
  ∃ n, delete_from t_bundle_dependency
         (CIn c_dep_child_uuid (VStr <$> uuids)) db
       = (Return n,
          set_bundle_dependency
            (filter (fun d => d_child_uuid d ∉ uuids) (bundle_dependency db))
            db).
Proof.
  eexists. cbn [delete_from]. unfold delete_bundle_dependency.
  do 2 f_equal. apply list_filter_iff. intros d. rewrite negb_True.
  by rewrite (holds_in_strs _ _ _ _ _ (d_child_uuid d)).
Qed.

Lemma delete_bundle_in (uuids : list string) db :
  ∃ n, delete_from t_bundle (CIn c_bundle_uuid (VStr <$> uuids)) db
       = (Return n,
          set_bundle (filter (fun b => b_uuid b ∉ uuids) (bundle db)) db).
Proof.
  eexists. cbn [delete_from]. unfold delete_bundle.
  do 2 f_equal. apply list_filter_iff. intros b. rewrite negb_True.
  by rewrite (holds_in_strs _ _ _ _ _ (b_uuid b)).
Qed.

(** The database once the four DELETE statements on the dependent tables
    are executed: the bundle rows are still there. *)
Lemma delete_bundles_dependents (uuids : list string) db :
  execute_all (take 4 (delete_bundles_statements uuids)) db
  = (Return tt, set_bundle (bundle db) (cascade uuids db)).
Proof.
  cbn [delete_bundles_statements take execute_all]. unfold bind.
  destruct (delete_permission_in uuids db) as [n1 ->].
  destruct (delete_item_in uuids (set_group_bundle_permission
              (filter (fun p => p_object_uuid p ∉ uuids)
                      (group_bundle_permission db)) db)) as [n2 ->].
  match goal with
  | |- context [delete_from t_bundle_metadata _ ?d] =>
      destruct (delete_metadata_in uuids d) as [n3 ->]
  end.
  match goal with
  | |- context [delete_from t_bundle_dependency _ ?d] =>
      destruct (delete_dependency_in uuids d) as [n4 ->]
  end.
  done.
Qed.

Lemma delete_bundles_cases (uuids : list string) db :
  delete_bundles uuids db
  = match _check_not_running uuids db with
    | (Return _, _) => (Return tt, cascade uuids db)
    | (Raise e, _) => (Raise e, db)
    end.
Proof.
  unfold delete_bundles, bind, _check_not_running.
  destruct (b_uuid <$> filter _ _); [|done].
  unfold transaction.
  change (delete_bundles_statements uuids)
    with (take 4 (delete_bundles_statements uuids)
          ++ [(t_bundle, CIn c_bundle_uuid (VStr <$> uuids))]).
  assert (Happ : ∀ s1 s2 d d1,
            execute_all s1 d = (Return tt, d1) →
            execute_all (s1 ++ s2) d = execute_all s2 d1).
  { induction s1 as [|[t cl] s1 IH]; intros s2 d d1; cbn [execute_all app].
    - by intros [= ->].
    - unfold bind. destruct (delete_from t cl d) as [[n|e] d']; [|done].
      apply IH. }
  rewrite (Happ _ _ _ _ (delete_bundles_dependents uuids db)).
  cbn [execute_all]. unfold bind.
  destruct (delete_bundle_in uuids (set_bundle (bundle db) (cascade uuids db)))
    as [n ->].
  done.
Qed.

Lemma cascade_dependents_gone (uuids : list string) db :
  dependents_gone uuids (cascade uuids db).
Proof.
  unfold dependents_gone, cascade. cbn. repeat split.
  - by intros p [? _]%list_elem_of_filter.
  - intros i u [Hi _]%list_elem_of_filter Hu Hin. apply Hi.
    unfold refers_to. rewrite Hu. by apply bool_decide_pack.
  - by intros m [? _]%list_elem_of_filter.
  - by intros d [? _]%list_elem_of_filter.
Qed.

(** C7, as amended.  A successful [delete_bundles] first deletes, from the
    permission rows, the worksheet items, the metadata rows and the
    dependency rows, those that belong to the bundles (for a dependency row:
    those whose child is one of the bundles), while the bundle rows are
    still there, and deletes the bundle rows last.  Afterwards no bundle row
    has one of the uuids, no permission row is on one of them, no worksheet
    item refers to one, no metadata row is of one, and no dependency row has
    one as its child; the dependency rows of the other bundles are kept,
    those that name a deleted bundle as parent included. *)
Theorem delete_bundles_cascade (uuids : list string) db db' :
  delete_bundles uuids db = (Return tt, db') →
  (∃ db4 n,
      execute_all (take 4 (delete_bundles_statements uuids)) db
      = (Return tt, db4)
      ∧ bundle db4 = bundle db
      ∧ dependents_gone uuids db4
      ∧ delete_bundles_statements uuids !! 4%nat
        = Some (t_bundle, CIn c_bundle_uuid (VStr <$> uuids))
      ∧ delete_from t_bundle (CIn c_bundle_uuid (VStr <$> uuids)) db4
        = (Return n, db'))
  ∧ dependents_gone uuids db'
  ∧ (∀ b, b ∈ bundle db' → b_uuid b ∉ uuids)
  ∧ bundle_dependency db'
    = filter (fun d => d_child_uuid d ∉ uuids) (bundle_dependency db).
Proof.
  rewrite delete_bundles_cases.
  destruct (_check_not_running uuids db) as [[[]|e] d]; [|done].
  intros [= <-]. split; [|split; [|split]].
  - destruct (delete_bundle_in uuids
                (set_bundle (bundle db) (cascade uuids db))) as [n Hn].
    exists (set_bundle (bundle db) (cascade uuids db)), n.
    split; [apply delete_bundles_dependents|]. split; [done|].
    split; [apply (cascade_dependents_gone uuids db)|]. split; [done|].
    by rewrite Hn.
  - apply cascade_dependents_gone.
  - by intros b [? _]%list_elem_of_filter.
  - done.
Qed.

End Bundles.


Example get_bundle_found_and_not_found :
  get_bundle Reference.permission_db "zz"
  = Raise (UsageError "Could not find bundle with uuid zz")
  ∧ get_bundle Reference.permission_db "q"
    = Return (mk_bundle_value
                (mk_bundle 2 "q" "run" None None "ready" None) [] []).
Proof. split; vm_compute; reflexivity. Qed.

Example batch_update_bundles_partial :
  batch_update_bundles [Reference.in_memory 1 "o"; Reference.in_memory 5 "z"]
    [set_state "running"] None Reference.permission_db
  = (Return (false, [Reference.in_memory 1 "o"; Reference.in_memory 5 "z"]),
     set_bundle
       [mk_bundle 1 "o" "run" None None "running" (Some "v");
        mk_bundle 2 "q" "run" None None "ready" None;
        mk_bundle 3 "r" "run" None None "ready" (Some "u")]
       Reference.permission_db).
Proof. vm_compute. reflexivity. Qed.

(** The claim of C6 as it is stated fails: with two bundles given and one
    row matched, the call returns [False] and the matched row is modified in
    the database. *)
Lemma batch_update_bundles_applies_partially :
  length (filter (fun b => matched Reference.permission_db
                             [Reference.in_memory 1 "o"; Reference.in_memory 5 "z"] None b)
                 (bundle Reference.permission_db))
  ≠ length [Reference.in_memory 1 "o"; Reference.in_memory 5 "z"]
  ∧ bundle (batch_update_bundles [Reference.in_memory 1 "o"; Reference.in_memory 5 "z"]
              [set_state "running"] None Reference.permission_db).2
    ≠ bundle Reference.permission_db.
Proof.
  split; [vm_compute; lia|].
  rewrite batch_update_bundles_partial. discriminate.
Qed.

Lemma batch_update_bundles_mismatch_witness :
  batch_update_bundles [Reference.in_memory 1 "o"; Reference.in_memory 5 "z"]
    [set_state "running"] None Reference.permission_db
  = (Return (false, [Reference.in_memory 1 "o"; Reference.in_memory 5 "z"]),
     set_bundle
       ((fun b => if matched Reference.permission_db
                       [Reference.in_memory 1 "o"; Reference.in_memory 5 "z"] None b
                  then values [set_state "running"] b else b)
        <$> bundle Reference.permission_db) Reference.permission_db).
Proof.
  apply (batch_update_bundles_mismatch Reference.permission_db
           [Reference.in_memory 1 "o"; Reference.in_memory 5 "z"] [set_state "running"] None).
  - reflexivity.
  - discriminate.
  - discriminate.
  - exact I.
  - vm_compute. lia.
Defined.

Example delete_bundles_a :
  delete_bundles ["a"] Reference.lineage_db
  = (Return tt,
     mk_database
       [mk_bundle 2 "b" "run" None None "ready" (Some "u");
        mk_bundle 3 "c" "run" None None "running" (Some "u")]
       [mk_dependency "b" "program" "a"; mk_dependency "c" "input" "b"]
       [mk_metadata "b" "name" "out"]
       [mk_item 2 "w" (Some "b") None None "bundle" None;
        mk_item 3 "w" None None (Some "text") "markup" None] 4
       [mk_group "pub" "public" None] []
       [mk_permission "pub" "b" 1] []).
Proof. vm_compute. reflexivity. Qed.

Example delete_bundles_running :
  delete_bundles ["a"; "c"] Reference.lineage_db
  = (Raise (UsageError "Can't delete running bundles: c"),
     Reference.lineage_db).
Proof. vm_compute. reflexivity. Qed.

(** The claim of C7 as it is stated fails: after ["a"] is deleted, the
    dependency row of ["b"] on ["a"] remains, and it names the deleted
    bundle as its parent. *)
Lemma delete_bundles_keeps_parent_edges :
  ∃ db', delete_bundles ["a"] Reference.lineage_db = (Return tt, db')
    ∧ ¬ (∀ d, d ∈ bundle_dependency db' →
              (d_child_uuid d ∉ ["a"]) ∧ (d_parent_uuid d ∉ ["a"])).
Proof.
  eexists. split; [apply delete_bundles_a|]. cbn. intros Hnone.
  destruct (Hnone (mk_dependency "b" "program" "a")) as [_ Hp];
    [set_solver|].
  apply Hp. set_solver.
Qed.

Lemma delete_bundles_cascade_witness :
  dependents_gone ["a"] (delete_bundles ["a"] Reference.lineage_db).2
  ∧ (∀ b, b ∈ bundle (delete_bundles ["a"] Reference.lineage_db).2 →
          b_uuid b ∉ ["a"]).
Proof.
  destruct (delete_bundles_cascade ["a"] Reference.lineage_db
              (delete_bundles ["a"] Reference.lineage_db).2)
    as (_ & Hgone & Hbundle & _).
  - vm_compute. reflexivity.
  - split; [exact Hgone|exact Hbundle].
Defined.

(** *** The dependency graph *)
Section Graph.
Context `{StorageEngine}.

Lemma elem_of_concat {A} (x : A) (ls : list (list A)) :
  x ∈ concat ls ↔ ∃ l, x ∈ l ∧ l ∈ ls.
Proof.
  induction ls as [|l ls IH]; simpl.
  - split; [by intros ?%elem_of_nil|by intros (? & _ & ?%elem_of_nil)].
  - rewrite elem_of_app, IH. split.
    + intros [Hx|(l' & Hx & Hl')].
      * exists l. split; [done|apply list_elem_of_here].
      * exists l'. split; [done|by apply list_elem_of_further].
    + intros (l' & Hx & [->|Hl']%elem_of_cons); [by left|]. right. eauto.
Qed.

Lemma lookup_initial_children (uuids : list string) p :
  (list_to_map ((fun uuid => (uuid, [])) <$> uuids)
     : gmap string (list string)) !! p
  = if decide (p ∈ uuids) then Some [] else None.
Proof.
  induction uuids as [|u uuids IH].
  - rewrite fmap_nil, list_to_map_nil, lookup_empty.
    case_decide; [set_solver|done].
  - rewrite fmap_cons, list_to_map_cons.
    destruct (decide (u = p)) as [->|Hne];
      [rewrite lookup_insert_eq|rewrite lookup_insert_ne by done; rewrite IH];
      repeat case_decide; try done; set_solver.
Qed.

Lemma foldl_append_child (rs : list dependency_row) :
  ∀ m : gmap string (list string),
  (∀ d, d ∈ rs → is_Some (m !! d_parent_uuid d)) →
  ∃ m', foldl append_child (Return m) rs = Return m'
        ∧ ∀ p, m' !! p
               = (fun l => l ++ (d_child_uuid <$>
                                   filter (fun d => d_parent_uuid d = p) rs))
                 <$> m !! p.
Proof.
  induction rs as [|r rs IH]; intros m Hkeys; simpl.
  - exists m. split; [done|]. intros p.
    destruct (m !! p); simpl; [|done]. by rewrite app_nil_r.
  - destruct (Hkeys r) as [l Hl]; [apply list_elem_of_here|].
    rewrite Hl.
    destruct (IH (<[d_parent_uuid r := l ++ [d_child_uuid r]]> m))
      as (m' & Hm' & Hlk).
    { intros d Hd. destruct (decide (d_parent_uuid r = d_parent_uuid d))
        as [<-|Hne].
      - rewrite lookup_insert_eq. eauto.
      - rewrite lookup_insert_ne by done.
        apply Hkeys. by apply list_elem_of_further. }
    exists m'. split; [done|]. intros p. rewrite Hlk.
    rewrite filter_cons.
    destruct (decide (d_parent_uuid r = p)) as [<-|Hne].
    + rewrite lookup_insert_eq, Hl. simpl.
      by rewrite <- app_assoc.
    + by rewrite lookup_insert_ne.
Qed.

(** [get_children_uuids] never raises, and the lists of its dictionary hold
    exactly the children of the given parents. *)
Lemma get_children_uuids_spec db (uuids : list string) :
  ∃ m, get_children_uuids db uuids = Return m
       ∧ ∀ u, u ∈ concat (map_to_list m).*2
              ↔ ∃ d, d ∈ bundle_dependency db
                     ∧ d_parent_uuid d ∈ uuids ∧ d_child_uuid d = u.
Proof.
  unfold get_children_uuids.
  set (rows := filter _ (bundle_dependency db)).
  assert (Hrows : ∀ d, d ∈ rows
                       ↔ d ∈ bundle_dependency db ∧ d_parent_uuid d ∈ uuids).
  { intros d. unfold rows. rewrite list_elem_of_filter.
    rewrite (holds_in_strs _ _ _ _ _ (d_parent_uuid d)) by done. tauto. }
  destruct (foldl_append_child rows
              (list_to_map ((fun uuid => (uuid, [])) <$> uuids)))
    as (m & Hm & Hlk).
  { intros d Hd%Hrows. rewrite lookup_initial_children.
    rewrite decide_True by tauto. eauto. }
  exists m. split; [done|]. intros u.
  rewrite elem_of_concat. split.
  - intros (l & Hu & Hl). apply list_elem_of_fmap in Hl as ([p l'] & -> & Hpl).
    apply elem_of_map_to_list in Hpl. rewrite Hlk in Hpl.
    rewrite lookup_initial_children in Hpl. simpl in *.
    destruct (decide (p ∈ uuids)) as [Hp|Hp]; simpl in Hpl; [|done].
    injection Hpl as <-.
    apply list_elem_of_fmap in Hu as (d & -> & Hd).
    apply list_elem_of_filter in Hd as [<- Hd%Hrows]. naive_solver.
  - intros (d & Hd & Hp & <-).
    exists (d_child_uuid <$> filter (fun d' => d_parent_uuid d' = d_parent_uuid d) rows).
    split.
    + apply list_elem_of_fmap. exists d. split; [done|].
      apply list_elem_of_filter. split; [done|]. apply Hrows. done.
    + apply list_elem_of_fmap.
      exists (d_parent_uuid d, d_child_uuid <$>
                filter (fun d' => d_parent_uuid d' = d_parent_uuid d) rows).
      split; [done|]. apply elem_of_map_to_list. rewrite Hlk.
      rewrite lookup_initial_children. by rewrite decide_True.
Qed.

Lemma foldl_visit (xs : list string) :
  ∀ new_frontier visited,
  ∃ new, foldl visit (new_frontier, visited) xs
         = (new_frontier ++ new, visited ++ new)
         ∧ NoDup new
         ∧ ∀ u, u ∈ new ↔ u ∈ xs ∧ u ∉ visited.
Proof.
  induction xs as [|x xs IH]; intros nf V; simpl.
  - exists []. rewrite !app_nil_r. split; [done|]. split; [constructor|].
    set_solver.
  - case_bool_decide as Hx.
    + destruct (IH nf V) as (new & Heq & Hnd & Hin).
      exists new. split; [done|]. split; [done|]. set_solver.
    + destruct (IH (nf ++ [x]) (V ++ [x])) as (new & Heq & Hnd & Hin).
      exists (x :: new). rewrite Heq, <- !app_assoc. simpl.
      split; [done|]. split.
      * apply NoDup_cons. split; [|done]. set_solver.
      * intros u. rewrite elem_of_cons, Hin.
        destruct (decide (u = x)) as [->|]; set_solver.
Qed.

(** A round of the walk: the new frontier is made of the children of the
    frontier that were not visited, each once, and is appended to the
    visited list. *)
Lemma round_spec db (frontier visited : list string) :
  ∃ m new, get_children_uuids db frontier = Return m
    ∧ expand m visited = (new, visited ++ new)
    ∧ NoDup new
    ∧ ∀ u, u ∈ new ↔
           (∃ d, d ∈ bundle_dependency db
                 ∧ d_parent_uuid d ∈ frontier ∧ d_child_uuid d = u)
           ∧ u ∉ visited.
Proof.
  destruct (get_children_uuids_spec db frontier) as (m & Hm & Hch).
  destruct (foldl_visit (concat (map_to_list m).*2) [] visited)
    as (new & Heq & Hnd & Hin).
  exists m, new. split; [done|]. split; [done|]. split; [done|].
  intros u. by rewrite Hin, Hch.
Qed.

Lemma unvisited_le db visited :
  (unvisited db visited ≤ length (bundle_dependency db))%nat.
Proof.
  unfold unvisited. etrans; [apply length_filter|]. by rewrite length_fmap.
Qed.

(** Visiting a child that was not visited lowers the measure. *)
Lemma unvisited_lt db (visited new : list string) u d :
  d ∈ bundle_dependency db → d_child_uuid d = u → u ∉ visited → u ∈ new →
  (unvisited db (visited ++ new) < unvisited db visited)%nat.
Proof.
  intros Hd Hu Hnot Hnew. unfold unvisited.
  set (cs := d_child_uuid <$> bundle_dependency db).
  assert (Heq : filter (fun u => u ∉ visited ++ new) cs
                = filter (fun u => u ∉ new) (filter (fun u => u ∉ visited) cs)).
  { rewrite list_filter_filter. apply list_filter_iff. intros x.
    rewrite not_elem_of_app. tauto. }
  rewrite Heq. apply (length_filter_lt _ _ u); [|tauto].
  apply list_elem_of_filter. split; [done|].
  apply list_elem_of_fmap. eauto.
Qed.

Lemma positive_lt d1 d2 : depth_lt d1 d2 → positive d1 → positive d2.
Proof.
  destruct d1, d2; simpl; try done.
  rewrite !bool_decide_spec. lia.
Qed.

Lemma decrement_lt d1 d2 :
  depth_lt d1 d2 → depth_lt (decrement d1) (decrement d2).
Proof. destruct d1, d2; simpl; try done. lia. Qed.

(** With enough fuel the walk returns; it returns the visited list it was
    given followed by the nodes it discovered, each of them once. *)
Lemma walk_spec db fuel :
  ∀ (frontier visited : list string) d,
  (frontier ≠ [] → (unvisited db visited < fuel)%nat) →
  ∃ new, walk fuel db frontier visited d = Some (Return (visited ++ new))
         ∧ NoDup new ∧ ∀ u, u ∈ new → u ∉ visited.
Proof.
  induction fuel as [|fuel IH]; intros F V d Hfuel; simpl;
    destruct (bool_decide (F ≠ []) && positive d) eqn:Hc;
    try (exists []; rewrite app_nil_r;
         split; [done|split; [constructor|set_solver]]).
  - apply andb_true_iff in Hc as [HF%bool_decide_eq_true _].
    specialize (Hfuel HF). lia.
  - apply andb_true_iff in Hc as [HF%bool_decide_eq_true _].
    destruct (round_spec db F V) as (m & new & Hm & Hex & Hnd & Hin).
    rewrite Hm, Hex.
    destruct (IH new (V ++ new) (decrement d)) as (new2 & Hw & Hnd2 & Hin2).
    { intros Hne. destruct new as [|u new']; [done|].
      destruct (proj1 (Hin u)) as ((r & Hr & _ & Hu) & Hnot);
        [apply list_elem_of_here|].
      pose proof (unvisited_lt db V (u :: new') u r Hr Hu Hnot
                    (list_elem_of_here _ _)).
      specialize (Hfuel HF). lia. }
    exists (new ++ new2). rewrite Hw, app_assoc. split; [done|]. split.
    + apply NoDup_app. split; [done|]. split; [|done].
      intros x Hx Hx2. apply (Hin2 x Hx2). set_solver.
    + intros u [Hu|Hu]%elem_of_app; [by apply Hin|].
      specialize (Hin2 u Hu). set_solver.
Qed.

(** A walk to a smaller depth returns a prefix of the walk to a larger one. *)
Lemma walk_mono db fuel :
  ∀ (frontier visited : list string) d1 d2,
  depth_lt d1 d2 →
  (frontier ≠ [] → (unvisited db visited < fuel)%nat) →
  ∃ n1 n2,
    walk fuel db frontier visited d1 = Some (Return (visited ++ n1))
    ∧ walk fuel db frontier visited d2 = Some (Return (visited ++ n1 ++ n2)).
Proof.
  induction fuel as [|fuel IH]; intros F V d1 d2 Hlt Hfuel.
  - destruct (decide (F = [])) as [->|HF]; [|specialize (Hfuel HF); lia].
    exists [], []. by rewrite !app_nil_r.
  - destruct (decide (F = [])) as [->|HF].
    { exists [], []. by rewrite !app_nil_r. }
    destruct (positive d1) eqn:Hp1.
    + assert (Hp2 : positive d2 = true).
      { apply Is_true_true. apply (positive_lt d1 d2 Hlt).
        by apply Is_true_true. }
      simpl. rewrite (bool_decide_true (F ≠ [])), Hp1, Hp2 by done. simpl.
      destruct (round_spec db F V) as (m & new & Hm & Hex & Hnd & Hin).
      rewrite Hm, Hex.
      destruct (IH new (V ++ new) _ _ (decrement_lt _ _ Hlt))
        as (n1 & n2 & Hw1 & Hw2).
      { intros Hne. destruct new as [|u new']; [done|].
        destruct (proj1 (Hin u)) as ((r & Hr & _ & Hu) & Hnot);
          [apply list_elem_of_here|].
        pose proof (unvisited_lt db V (u :: new') u r Hr Hu Hnot
                      (list_elem_of_here _ _)).
        specialize (Hfuel HF). lia. }
      exists (new ++ n1), n2. rewrite Hw1, Hw2.
      by rewrite <- !app_assoc.
    + destruct (walk_spec db (S fuel) F V d2 Hfuel) as (new & Hw & _).
      exists [], new. rewrite Hw. split; [|done].
      simpl. rewrite Hp1, andb_false_r. by rewrite app_nil_r.
Qed.

(** What an unbounded walk returns holds the children of all its members. *)
Lemma walk_closed db fuel :
  ∀ (frontier visited result : list string),
  (∀ d, d ∈ bundle_dependency db → d_parent_uuid d ∈ visited →
        d_parent_uuid d ∈ frontier ∨ d_child_uuid d ∈ visited) →
  walk fuel db frontier visited Infinite = Some (Return result) →
  closed_under_children db result.
Proof.
  assert (Hend : ∀ (V R : list string),
            (∀ d, d ∈ bundle_dependency db → d_parent_uuid d ∈ V →
                  d_parent_uuid d ∈ [] ∨ d_child_uuid d ∈ V) →
            Some (Return V) = Some (Return R) →
            closed_under_children db R).
  { intros V R Hinv [= <-] d Hd Hp.
    destruct (Hinv d Hd Hp) as [HpF|]; [|done]. by apply elem_of_nil in HpF. }
  induction fuel as [|fuel IH]; intros F V R Hinv;
    (destruct (decide (F = [])) as [->|HF]; [by apply Hend|]);
    simpl; rewrite (bool_decide_true (F ≠ [])) by done; simpl; [done|].
  destruct (round_spec db F V) as (m & new & Hm & Hex & Hnd & Hin).
  rewrite Hm, Hex. apply IH.
  intros d Hd [Hp|Hp]%elem_of_app; [|by left].
  right. apply elem_of_app.
  destruct (Hinv d Hd Hp) as [HpF|Hc]; [|by left].
  destruct (decide (d_child_uuid d ∈ V)); [by left|right].
  apply Hin. eauto.
Qed.

(** Walking again from a closed list discovers nothing. *)
Lemma walk_again db fuel (result : list string) d :
  closed_under_children db result →
  walk (S fuel) db result result d = Some (Return result).
Proof.
  intros Hcl. simpl.
  destruct (bool_decide (result ≠ []) && positive d) eqn:Hc; [|done].
  destruct (round_spec db result result) as (m & new & Hm & Hex & Hnd & Hin).
  rewrite Hm, Hex.
  assert (new = []) as ->.
  { apply elem_of_nil_inv. intros u Hu.
    apply Hin in Hu as ((r & Hr & Hp & <-) & Hnot). by apply Hnot, Hcl. }
  rewrite app_nil_r. by destruct fuel.
Qed.

Lemma rounds_enough db (uuids : list string) :
  uuids ≠ [] → (unvisited db uuids < rounds db)%nat.
Proof. intros _. pose proof (unvisited_le db uuids). unfold rounds. lia. Qed.

(** C5. [get_self_and_descendants] always returns.  For depths [d1 < d2]
    what it returns at [d1] is included in what it returns at [d2].  At
    unbounded depth the result holds the children of all its members, so
    that walking one more round from it (and indeed to any depth) returns
    it unchanged.  The result is the seeds followed by the discovered nodes,
    none of which is a seed or occurs twice: no node is visited twice. *)
Theorem get_self_and_descendants_monotone_fixpoint db (uuids : list string) :
  (∀ d1 d2, depth_lt d1 d2 →
     ∃ v1 v2, get_self_and_descendants db uuids d1 = Some (Return v1)
              ∧ get_self_and_descendants db uuids d2 = Some (Return v2)
              ∧ v1 ⊆ v2)
  ∧ (∃ v, get_self_and_descendants db uuids Infinite = Some (Return v)
          ∧ closed_under_children db v
          ∧ ∀ d, get_self_and_descendants db v d = Some (Return v))
  ∧ (∀ d, ∃ new,
       get_self_and_descendants db uuids d = Some (Return (uuids ++ new))
       ∧ NoDup new ∧ ∀ u, u ∈ new → u ∉ uuids).
Proof.
  unfold get_self_and_descendants. split; [|split].
  - intros d1 d2 Hlt.
    destruct (walk_mono db (rounds db) uuids uuids d1 d2 Hlt
                (rounds_enough db uuids)) as (n1 & n2 & H1 & H2).
    eexists _, _. split; [done|]. split; [done|]. set_solver.
  - destruct (walk_spec db (rounds db) uuids uuids Infinite
                (rounds_enough db uuids)) as (new & Hw & _).
    eexists. split; [done|].
    assert (Hcl : closed_under_children db (uuids ++ new)).
    { apply (walk_closed db (rounds db) uuids uuids); [|done]. by left. }
    split; [done|]. intros d. by apply walk_again.
  - intros d. apply walk_spec, rounds_enough.
Qed.

End Graph.

Example descendants_depth_1 :
  get_self_and_descendants Reference.graph_db ["d"] (Finite 1)
  = Some (Return ["d"; "e"]).
Proof. vm_compute. reflexivity. Qed.

Example descendants_unbounded :
  get_self_and_descendants Reference.graph_db ["d"; "a"] Infinite
  = Some (Return ["d"; "a"; "b"; "c"; "e"; "f"]).
Proof. vm_compute. reflexivity. Qed.

Lemma get_self_and_descendants_monotone_fixpoint_witness :
  ∃ v1 v2,
    get_self_and_descendants Reference.graph_db ["d"] (Finite 1)
    = Some (Return v1)
    ∧ get_self_and_descendants Reference.graph_db ["d"] Infinite
      = Some (Return v2)
    ∧ v1 ⊆ v2.
Proof.
  apply (proj1 (get_self_and_descendants_monotone_fixpoint
                  Reference.graph_db ["d"]) (Finite 1) Infinite).
  exact I.
Defined.

(** *** The permission resolver *)
Section Permissions.
Context `{StorageEngine} `{PermissionLevels}.

Implicit Types (m : gmap string Z) (o : string).

Lemma lookup_initial_permissions (l : list string) :
  ∀ m o,
  foldl (fun m object_uuid =>
           <[object_uuid := GROUP_OBJECT_PERMISSION_NONE]> m) m l !! o
  = if decide (o ∈ l) then Some GROUP_OBJECT_PERMISSION_NONE else m !! o.
Proof.
  induction l as [|x l IH]; intros m o; cbn [foldl].
  - case_decide; [set_solver|done].
  - rewrite IH. destruct (decide (o ∈ l)) as [Hin|Hin].
    + by rewrite decide_True by by apply list_elem_of_further.
    + destruct (decide (x = o)) as [->|Hne].
      * rewrite lookup_insert_eq.
        by rewrite decide_True by apply list_elem_of_here.
      * rewrite lookup_insert_ne by done.
        rewrite decide_False; [done|]. set_solver.
Qed.

Lemma grant_owner_privileged self user_id owner_ids o :
  bool_decide (user_id = owner_ids !! o ≫= id)
  || bool_decide (user_id = root_user_id self)
  ↔ privileged self user_id owner_ids o.
Proof.
  unfold privileged, recorded_owner.
  rewrite orb_True, !bool_decide_spec. done.
Qed.

Lemma foldl_grant_owner self user_id owner_ids (l : list string) :
  ∀ m (rem : list string),
  ∃ m', foldl (grant_owner self user_id owner_ids) (m, rem) l
        = (m', rem ++ filter (fun o => ¬ privileged self user_id owner_ids o) l)
        ∧ ∀ o, m' !! o
               = if decide (o ∈ l ∧ privileged self user_id owner_ids o)
                 then Some GROUP_OBJECT_PERMISSION_ALL else m !! o.
Proof.
  induction l as [|x l IH]; intros m rem.
  - exists m. cbn [foldl]. rewrite filter_nil, app_nil_r.
    split; [done|]. intros o. case_decide; [set_solver|done].
  - cbn [foldl]. unfold grant_owner at 2. rewrite filter_cons.
    pose proof (grant_owner_privileged self user_id owner_ids x) as Hb.
    destruct (bool_decide (user_id = owner_ids !! x ≫= id)
              || bool_decide (user_id = root_user_id self)).
    + assert (Hp : privileged self user_id owner_ids x) by by apply Hb.
      rewrite decide_False by tauto.
      destruct (IH (<[x := GROUP_OBJECT_PERMISSION_ALL]> m) rem)
        as (m' & -> & Hlk).
      exists m'. split; [done|]. intros o. rewrite Hlk.
      destruct (decide (x = o)) as [->|Hne].
      * rewrite lookup_insert_eq.
        rewrite (decide_True (P := o ∈ o :: l ∧ _));
          [by destruct (decide _)|].
        split; [apply list_elem_of_here|done].
      * rewrite lookup_insert_ne by done.
        apply decide_ext. set_solver.
    + assert (Hp : ¬ privileged self user_id owner_ids x)
        by (intros Hp; by apply Hb in Hp).
      rewrite decide_True by done.
      destruct (IH m (rem ++ [x])) as (m' & -> & Hlk).
      exists m'. rewrite <- app_assoc. split; [done|]. intros o. rewrite Hlk.
      apply decide_ext. split; [set_solver|].
      intros [[->|?]%elem_of_cons ?]; [done|set_solver].
Qed.

Lemma lookup_foldl_append_permission
    (rows : list (permission_row * group_row)) :
  ∀ (r : gmap string (list group_permission)) o,
  foldl append_permission r rows !! o
  = match r !! o, entries_for o rows with
    | None, [] => None
    | x, es => Some (default [] x ++ es)
    end.
Proof.
  induction rows as [|[p g] rows IH]; intros r o; cbn [foldl].
  - unfold entries_for. rewrite filter_nil, fmap_nil.
    destruct (r !! o); simpl; [by rewrite app_nil_r|done].
  - rewrite IH. unfold append_permission, entries_for.
    rewrite filter_cons.
    destruct (decide (p_object_uuid p = o)) as [<-|Hne].
    + rewrite lookup_insert_eq, fmap_cons.
      destruct (r !! p_object_uuid p); simpl; by rewrite <- ?app_assoc.
    + by rewrite lookup_insert_ne.
Qed.

Lemma holds_permission_join db table (object_uuids : list string) p g :
  holds db [permission_table table; t_group]
    (CAnd [CColEq (c_perm_group_uuid table) c_group_uuid;
           CIn (c_perm_object_uuid table) (VStr <$> object_uuids)])
    (bind_row t_group (row_of_group g) (row_of_permission table p))
  ↔ p_group_uuid p = g_uuid g ∧ p_object_uuid p ∈ object_uuids.
Proof.
  unfold holds. rewrite bool_decide_spec. cbn [eval foldr].
  assert (Hg : bind_row t_group (row_of_group g) (row_of_permission table p)
                 (c_perm_group_uuid table) = VStr (p_group_uuid p)).
  { unfold bind_row. rewrite decide_False by by destruct table.
    simpl. by rewrite decide_True. }
  assert (Ho : bind_row t_group (row_of_group g) (row_of_permission table p)
                 (c_perm_object_uuid table) = VStr (p_object_uuid p)).
  { unfold bind_row. rewrite decide_False by by destruct table.
    simpl. by rewrite decide_True. }
  assert (Hu : bind_row t_group (row_of_group g) (row_of_permission table p)
                 c_group_uuid = VStr (g_uuid g)) by done.
  rewrite Hg, Ho, Hu, sql_in_strs. cbn [sql_eq].
  destruct (decide (p_group_uuid p = g_uuid g)) as [Heq|Hne];
    destruct (decide (p_object_uuid p ∈ object_uuids)) as [Hin|Hin];
    rewrite ?(bool_decide_true _ Heq), ?(bool_decide_false _ Hne),
            ?(bool_decide_true _ Hin), ?(bool_decide_false _ Hin);
    simpl; split; try done; tauto.
Qed.

(** The dictionary of [batch_get_group_permissions] has, for an object, the
    entries of its permission rows joined with the rows of their groups. *)
Lemma batch_get_group_permissions_entries db table (objs : list string) o :
  (∀ ps, batch_get_group_permissions db table objs !! o = Some ps →
     o ∈ objs ∧
     ∀ uuid level,
       (∃ e, e ∈ ps ∧ gp_group_uuid e = uuid ∧ gp_permission e = level)
       ↔ ∃ p, p ∈ permission_rows db table ∧ p_object_uuid p = o
              ∧ p_group_uuid p = uuid ∧ known_group db uuid
              ∧ p_permission p = level)
  ∧ (batch_get_group_permissions db table objs !! o = None →
     o ∈ objs →
     ∀ p, p ∈ permission_rows db table → p_object_uuid p = o →
          ¬ known_group db (p_group_uuid p)).
Proof.
  unfold batch_get_group_permissions.
  set (rows := filter _ _).
  assert (Hrows : ∀ p g, (p, g) ∈ rows ↔
            p ∈ permission_rows db table ∧ g ∈ group db
            ∧ p_group_uuid p = g_uuid g ∧ p_object_uuid p ∈ objs).
  { intros p g. unfold rows. rewrite list_elem_of_filter.
    rewrite holds_permission_join. rewrite list_elem_of_bind. split.
    - intros (Hj & p' & Hg & Hp). apply list_elem_of_bind in Hg
        as (g' & [=-> ->]%list_elem_of_singleton & Hg'). tauto.
    - intros (Hp & Hg & Hj). split; [done|]. exists p. split; [|done].
      apply list_elem_of_bind. exists g. split; [|done].
      by apply list_elem_of_singleton. }
  assert (Hent : ∀ e, e ∈ entries_for o rows ↔
            ∃ p g, (p, g) ∈ rows ∧ p_object_uuid p = o
                   ∧ e = mk_group_permission (p_group_uuid p) (g_name g)
                           (p_permission p)).
  { intros e. unfold entries_for. rewrite list_elem_of_fmap. split.
    - intros ([p g] & -> & [Ho Hin]%list_elem_of_filter). eauto.
    - intros (p & g & Hin & Ho & ->). exists (p, g). split; [done|].
      by apply list_elem_of_filter. }
  assert (Hobj : entries_for o rows ≠ [] → o ∈ objs).
  { intros Hne. destruct (entries_for o rows) as [|e es]; [done|].
    destruct (proj1 (Hent e)) as (p & g & Hin%Hrows & <- & _);
      [apply list_elem_of_here|tauto]. }
  rewrite lookup_foldl_append_permission, lookup_empty. cbn [default app].
  split.
  - intros ps Hps.
    assert (ps = entries_for o rows ∧ entries_for o rows ≠ []) as [-> Hne]
      by (destruct (entries_for o rows); by simplify_eq).
    split; [by apply Hobj|].
    intros uuid level. split.
    + intros (e & (p & g & Hin%Hrows & Ho & ->)%Hent & <- & <-). simpl.
      exists p. unfold known_group. naive_solver.
    + intros (p & Hp & Ho & Hu & (g & Hg & Hgu) & Hl).
      exists (mk_group_permission (p_group_uuid p) (g_name g)
                (p_permission p)).
      split; [|done]. apply Hent. exists p, g. split; [|done].
      apply Hrows. rewrite Ho, Hu. auto.
  - intros Hnone Ho p Hp Hpo (g & Hg & Hgu).
    assert (Hin : mk_group_permission (p_group_uuid p) (g_name g)
                    (p_permission p) ∈ entries_for o rows).
    { apply Hent. exists p, g. split; [|done]. apply Hrows.
      rewrite Hpo. auto. }
    destruct (entries_for o rows); [by apply elem_of_nil in Hin|done].
Qed.

Lemma holds_user_id db u r :
  holds db [t_user_group]
    (make_kwargs_clause [(c_ug_user_id, PyScalar (VStr u))])
    (row_of_user_group r)
  ↔ ug_user_id r = u.
Proof.
  unfold holds. rewrite bool_decide_spec. simpl.
  destruct (decide (ug_user_id r = u)) as [Heq|Hne].
  - by rewrite bool_decide_true.
  - by rewrite bool_decide_false.
Qed.

Lemma elem_of_get_user_groups self db user_id g :
  g ∈ _get_user_groups self db user_id ↔ member self db user_id g.
Proof.
  unfold _get_user_groups, member, batch_get_user_in_group.
  destruct user_id as [u|].
  - rewrite elem_of_app, list_elem_of_singleton, list_elem_of_fmap.
    split; (intros [?|Hm]; [by left|right]).
    + destruct Hm as (r & -> & [Hu Hr]%list_elem_of_filter).
      apply holds_user_id in Hu. exists r. by rewrite Hu.
    + destruct Hm as (r & Hr & [= ->] & <-).
      exists r. split; [done|]. apply list_elem_of_filter.
      by rewrite holds_user_id.
  - rewrite list_elem_of_singleton. split; [by left|].
    intros [?|(r & _ & ? & _)]; done.
Qed.

Lemma lift_maximum ug (ps : list group_permission) :
  ∀ cur,
  maximum_of cur
    (fun x => ∃ e, e ∈ ps ∧ gp_group_uuid e ∈ ug ∧ gp_permission e = x)
    (lift ug cur ps).
Proof.
  unfold lift, maximum_of.
  induction ps as [|e ps IH]; intros cur; cbn [foldl].
  - split; [by left|]. split; [lia|]. by intros x (e & ?%elem_of_nil & _).
  - destruct (IH (if bool_decide (gp_group_uuid e ∈ ug)
                  then Z.max cur (gp_permission e) else cur))
      as (Hv & Hfloor & Hmax).
    case_bool_decide as Hg.
    + split; [|split].
      * destruct Hv as [Hv|(e' & He' & ? & ?)].
        -- destruct (Z.max_spec cur (gp_permission e)) as [[_ Hm]|[_ Hm]];
             [right|left; lia].
           exists e. split; [apply list_elem_of_here|split; [done|lia]].
        -- right. exists e'. split; [by apply list_elem_of_further|done].
      * lia.
      * intros x (e' & [->|He']%elem_of_cons & ? & <-); [lia|].
        apply Hmax. eauto.
    + split; [|split; [done|]].
      * destruct Hv as [Hv|(e' & He' & ? & ?)]; [by left|right].
        exists e'. split; [by apply list_elem_of_further|done].
      * intros x (e' & [->|He']%elem_of_cons & ? & <-); [done|].
        apply Hmax. eauto.
Qed.

Lemma foldl_raise_permission ug o (ps : list group_permission) :
  ∀ m cur, m !! o = Some cur →
  ∃ m', foldl (raise_permission ug o) (Return m) ps = Return m'
        ∧ m' !! o = Some (lift ug cur ps)
        ∧ ∀ o', o' ≠ o → m' !! o' = m !! o'.
Proof.
  induction ps as [|e ps IH]; intros m cur Hcur; cbn [foldl].
  - exists m. done.
  - unfold raise_permission at 2, lift. cbn [foldl]. fold (lift ug).
    case_bool_decide as Hg.
    + rewrite Hcur.
      destruct (IH (<[o := Z.max cur (gp_permission e)]> m)
                  (Z.max cur (gp_permission e))) as (m' & Hm' & Ho & Hoth);
        [apply lookup_insert_eq|].
      exists m'. split; [done|]. split; [done|].
      intros o' Hne. rewrite Hoth by done. by rewrite lookup_insert_ne.
    + apply IH. done.
Qed.

Lemma foldl_raise_all ug (l : list (string * list group_permission)) :
  NoDup l.*1 →
  ∀ m, (∀ o ps, (o, ps) ∈ l → is_Some (m !! o)) →
  ∃ m',
    foldl (fun acc '(object_uuid, permissions) =>
             foldl (raise_permission ug object_uuid) acc permissions)
          (Return m) l = Return m'
    ∧ (∀ o ps cur, (o, ps) ∈ l → m !! o = Some cur →
                   m' !! o = Some (lift ug cur ps))
    ∧ (∀ o, o ∉ l.*1 → m' !! o = m !! o).
Proof.
  induction l as [|[o ps] l IH]; intros Hnd m Hkeys; cbn [foldl].
  - exists m. split; [done|]. split; [|done].
    by intros ??? ?%elem_of_nil.
  - rewrite fmap_cons in Hnd. apply NoDup_cons in Hnd as [Ho Hnd].
    destruct (Hkeys o ps) as [cur Hcur]; [apply list_elem_of_here|].
    destruct (foldl_raise_permission ug o ps m cur Hcur)
      as (m1 & -> & Hm1 & Hoth).
    destruct (IH Hnd m1) as (m' & -> & Hin & Hout).
    { intros o' ps' Hin'. destruct (decide (o' = o)) as [->|Hne]; [eauto|].
      rewrite Hoth by done. apply (Hkeys o' ps').
      by apply list_elem_of_further. }
    exists m'. split; [done|]. split.
    + intros o' ps' cur' [[= -> ->]|Hin']%elem_of_cons Hcur'.
      * rewrite Hout by done. rewrite Hm1. congruence.
      * assert (o' ≠ o).
        { intros ->. apply Ho. apply list_elem_of_fmap. by exists (o, ps'). }
        apply Hin; [done|]. by rewrite Hoth.
    + intros o' Hnot. rewrite fmap_cons in Hnot.
      apply not_elem_of_cons in Hnot as [Hne Hnot].
      rewrite Hout by done. by apply Hoth.
Qed.

Lemma maximum_of_ext floor (P Q : Z → Prop) v :
  (∀ x, P x ↔ Q x) → maximum_of floor P v → maximum_of floor Q v.
Proof.
  intros Hext (Hv & Hfloor & Hmax). split; [|split; [done|]].
  - destruct Hv as [?|?%Hext]; auto.
  - intros x Hx%Hext. auto.
Qed.

(** What [get_user_permissions] computes: it returns a map over exactly the
    given objects, with ALL for the objects the principal owns and for the
    root principal, and for the others the maximum of NONE and of the levels
    of the permission rows of the principal's groups, the rows being joined
    with the group table. *)
Lemma get_user_permissions_spec self db table user_id (objs : list string)
    owner_ids :
  ∃ m, get_user_permissions self db table user_id objs owner_ids = Return m
    ∧ (∀ o, is_Some (m !! o) ↔ o ∈ objs)
    ∧ (∀ o, o ∈ objs → privileged self user_id owner_ids o →
            m !! o = Some GROUP_OBJECT_PERMISSION_ALL)
    ∧ (∀ o, o ∈ objs → ¬ privileged self user_id owner_ids o →
            ∃ v, m !! o = Some v
                 ∧ maximum_of GROUP_OBJECT_PERMISSION_NONE
                     (joined_row_level self db table user_id o) v).
Proof.
  unfold get_user_permissions.
  set (m0 := foldl _ ∅ objs).
  assert (Hm0 : ∀ o, m0 !! o = if decide (o ∈ objs)
                               then Some GROUP_OBJECT_PERMISSION_NONE
                               else None).
  { intros o. unfold m0. by rewrite lookup_initial_permissions, lookup_empty. }
  destruct (foldl_grant_owner self user_id owner_ids objs m0 [])
    as (m1 & -> & Hm1).
  cbn [app].
  set (rem := filter _ objs).
  assert (Hrem : ∀ o, o ∈ rem ↔ ¬ privileged self user_id owner_ids o ∧ o ∈ objs).
  { intros o. unfold rem. by rewrite list_elem_of_filter. }
  assert (Hkeys1 : ∀ o, is_Some (m1 !! o) ↔ o ∈ objs).
  { intros o. rewrite Hm1, Hm0.
    repeat case_decide; split; intros; try done; try tauto;
      try by apply is_Some_None in H1. all: eauto. }
  assert (Hpriv1 : ∀ o, o ∈ objs → privileged self user_id owner_ids o →
                        m1 !! o = Some GROUP_OBJECT_PERMISSION_ALL).
  { intros o Ho Hp. rewrite Hm1. by rewrite decide_True. }
  assert (Hnone1 : ∀ o, o ∈ rem → m1 !! o = Some GROUP_OBJECT_PERMISSION_NONE).
  { intros o [Hp Ho]%Hrem. rewrite Hm1, Hm0.
    rewrite decide_False by tauto. by rewrite decide_True. }
  destruct rem as [|x rem'] eqn:E.
  { exists m1. split; [done|]. split; [done|]. split; [done|].
    intros o Ho Hp. exfalso. eapply not_elem_of_nil, Hrem. eauto. }
  rewrite <- E in *. clear E x rem'.
  set (result := batch_get_group_permissions db table rem).
  set (ug := _get_user_groups self db user_id).
  destruct (foldl_raise_all ug (map_to_list result)
              (NoDup_fst_map_to_list result) m1) as (m & -> & Hin & Hout).
  { intros o ps Hops%elem_of_map_to_list.
    apply (batch_get_group_permissions_entries db table rem o) in Hops
      as [Ho _]. apply Hkeys1, Hrem, Ho. }
  assert (Hlk : ∀ o, m !! o = match result !! o with
                              | Some ps =>
                                  Some (lift ug GROUP_OBJECT_PERMISSION_NONE ps)
                              | None => m1 !! o
                              end).
  { intros o. destruct (result !! o) as [ps|] eqn:Hr.
    - pose proof Hr as Hr'.
      apply (batch_get_group_permissions_entries db table rem o) in Hr'
        as [Ho _].
      apply (Hin o ps GROUP_OBJECT_PERMISSION_NONE).
      + by apply elem_of_map_to_list.
      + by apply Hnone1.
    - apply Hout. intros ([o' ps] & -> & Hops%elem_of_map_to_list)
        %list_elem_of_fmap. simpl in Hr. congruence. }
  exists m. split; [done|]. split; [|split].
  - intros o. rewrite Hlk. destruct (result !! o) as [ps|] eqn:Hr; [|done].
    apply (batch_get_group_permissions_entries db table rem o) in Hr
      as [Ho _].
    split; [|eauto]. intros _. by apply Hrem.
  - intros o Ho Hp. rewrite Hlk.
    destruct (result !! o) as [ps|] eqn:Hr; [|by apply Hpriv1].
    apply (batch_get_group_permissions_entries db table rem o) in Hr
      as [Ho' _]. apply Hrem in Ho'. tauto.
  - intros o Ho Hp. assert (Hor : o ∈ rem) by by apply Hrem.
    rewrite Hlk.
    destruct (result !! o) as [ps|] eqn:Hr; [|rewrite (Hnone1 o Hor)].
    + eexists. split; [done|].
      apply (batch_get_group_permissions_entries db table rem o) in Hr
        as [_ Hent].
      eapply maximum_of_ext; [|apply lift_maximum].
      intros level. unfold joined_row_level. split.
      * intros (e & He & Hg%elem_of_get_user_groups & Hl).
        destruct (proj1 (Hent (gp_group_uuid e) level))
          as (p & Hp' & Hpo & Hpg & Hk & Hpl); [eauto|].
        exists p. rewrite Hpg. done.
      * intros (p & Hp' & Hpo & Hmem & Hk & Hpl).
        destruct (proj2 (Hent (p_group_uuid p) level))
          as (e & He & Heg & Hel); [eauto 10|].
        exists e. split; [done|]. split; [|done].
        apply elem_of_get_user_groups. by rewrite Heg.
    + eexists. split; [done|].
      pose proof (proj2 (batch_get_group_permissions_entries db table rem o)
                    Hr) as Hunk.
      split; [by left|]. split; [lia|].
      intros level (p & Hp' & Hpo & _ & Hk & _).
      by destruct (Hunk Hor p Hp' Hpo).
Qed.

(** C2, as amended.  [get_user_permissions] returns a map over exactly the
    given objects.  It assigns ALL to every object whose recorded owner is
    the principal, and to every object when the principal is root; to every
    other object it assigns the maximum of NONE and of the levels of the
    permission rows on that object whose group is in the principal's group
    set (the public group, and the explicit memberships of a principal that
    is not anonymous) and has a row in the group table. *)
Theorem get_user_permissions_resolves self db table user_id
    (object_uuids : list string) owner_ids :
  ∃ m,
    get_user_permissions self db table user_id object_uuids owner_ids
    = Return m
    ∧ (∀ o, is_Some (m !! o) ↔ o ∈ object_uuids)
    ∧ ∀ o, o ∈ object_uuids →
        (privileged self user_id owner_ids o →
           m !! o = Some GROUP_OBJECT_PERMISSION_ALL)
        ∧ (¬ privileged self user_id owner_ids o →
           ∃ v, m !! o = Some v
                ∧ maximum_of GROUP_OBJECT_PERMISSION_NONE
                    (joined_row_level self db table user_id o) v).
Proof.
  destruct (get_user_permissions_spec self db table user_id object_uuids
              owner_ids) as (m & Hm & Hkeys & Hall & Hmax).
  exists m. split; [done|]. split; [done|]. intros o Ho. split; auto.
Qed.

(** When every permission row names a group of the group table, the joined
    rows are all the rows. *)
Lemma joined_row_level_integrity self db table user_id o level :
  (∀ p, p ∈ permission_rows db table → known_group db (p_group_uuid p)) →
  joined_row_level self db table user_id o level
  ↔ row_level self db table user_id o level.
Proof.
  intros Hfk. unfold joined_row_level, row_level. split.
  - intros (p & ? & ? & ? & _ & ?). eauto.
  - intros (p & Hp & ? & ? & ?). exists p. pose proof (Hfk p Hp). done.
Qed.

(** C10. For the anonymous principal ([user_id] null), an object of the call
    whose uuid is absent from [owner_ids], or whose recorded owner is null,
    resolves to ALL: the null principal compares equal to the missing
    owner. *)
Theorem anonymous_owns_ownerless self db table (object_uuids : list string)
    (owner_ids : gmap string (option string)) o :
  o ∈ object_uuids →
  owner_ids !! o = None ∨ owner_ids !! o = Some None →
  ∃ m,
    get_user_permissions self db table None object_uuids owner_ids = Return m
    ∧ m !! o = Some GROUP_OBJECT_PERMISSION_ALL.
Proof.
  intros Ho Howner.
  destruct (get_user_permissions_spec self db table None object_uuids
              owner_ids) as (m & Hm & _ & Hall & _).
  exists m. split; [done|]. apply Hall; [done|]. left.
  unfold recorded_owner. by destruct Howner as [->| ->].
Qed.

End Permissions.

Example permissions_of_u :
  get_user_permissions Reference.sample_model Reference.permission_db
    of_bundle (Some "u") ["o"; "q"; "r"; "s"]
    {["o" := Some "v"; "q" := None; "r" := Some "u"]}
  = Return {["o" := 1; "q" := 2; "r" := 2; "s" := 0]}.
Proof. vm_compute. reflexivity. Qed.

Lemma get_user_permissions_resolves_witness :
  ∃ m,
    get_user_permissions Reference.sample_model Reference.permission_db
      of_bundle (Some "u") ["o"; "r"] {["o" := Some "v"; "r" := Some "u"]}
    = Return m
    ∧ m !! "r" = Some 2
    ∧ ∃ v, m !! "o" = Some v
           ∧ maximum_of 0
               (joined_row_level Reference.sample_model
                  Reference.permission_db of_bundle (Some "u") "o") v.
Proof.
  destruct (get_user_permissions_resolves Reference.sample_model
              Reference.permission_db of_bundle (Some "u") ["o"; "r"]
              {["o" := Some "v"; "r" := Some "u"]}) as (m & Hm & _ & Hall).
  exists m. split; [exact Hm|]. split.
  - apply (Hall "r"); [set_solver|]. left. reflexivity.
  - apply (Hall "o"); [set_solver|]. intros [Hown|Hroot]; discriminate.
Defined.

(** The claim of C2 as it is stated, with every permission row of the
    principal's groups counted, fails when a permission row names a group
    that has no row in the group table: the row is lost in the join. *)
Lemma get_user_permissions_dangling_group :
  ¬ ∃ m v,
      get_user_permissions Reference.sample_model Reference.dangling_db
        of_bundle (Some "u") ["o"] {["o" := Some "v"]} = Return m
      ∧ m !! "o" = Some v
      ∧ maximum_of GROUP_OBJECT_PERMISSION_NONE
          (row_level Reference.sample_model Reference.dangling_db of_bundle
             (Some "u") "o") v.
Proof.
  intros (m & v & Hm & Hv & _ & _ & Hmax).
  assert (Hrun :
    get_user_permissions Reference.sample_model Reference.dangling_db
      of_bundle (Some "u") ["o"] {["o" := Some "v"]}
    = Return {["o" := 0]}) by (vm_compute; reflexivity).
  rewrite Hrun in Hm. injection Hm as <-.
  rewrite lookup_singleton_eq in Hv. injection Hv as <-.
  assert (Hle : 1 ≤ 0); [|lia].
  apply Hmax. exists (mk_permission "g1" "o" 1).
  split; [set_solver|]. split; [done|]. split; [|done].
  right. exists (mk_user_group "g1" "u" false).
  split; [set_solver|]. done.
Qed.

Lemma anonymous_owns_ownerless_witness :
  ∃ m,
    get_user_permissions Reference.sample_model Reference.permission_db
      of_bundle None ["o"; "q"] {["o" := Some "v"; "q" := None]} = Return m
    ∧ m !! "q" = Some GROUP_OBJECT_PERMISSION_ALL.
Proof.
  apply (anonymous_owns_ownerless Reference.sample_model
           Reference.permission_db of_bundle ["o"; "q"]
           {["o" := Some "v"; "q" := None]} "q").
  - set_solver.
  - right. reflexivity.
Defined.

(** *** Search *)
Section Search.
Context `{StorageEngine} `{PermissionLevels}.

Lemma product_other db (ts : list table) :
  ∀ env e, e ∈ product db ts env →
  ∀ c, table_of c ∉ ts → e c = env c.
Proof.
  induction ts as [|t ts IH]; intros env e He c Hc; cbn [product] in He.
  - by apply list_elem_of_singleton in He as ->.
  - apply list_elem_of_bind in He as (r & He & Hr).
    rewrite (IH _ _ He) by set_solver.
    unfold bind_row. rewrite decide_False; [done|]. set_solver.
Qed.

(** A row of the product reads each table of the FROM list from one of
    its rows. *)
Lemma product_row db (ts : list table) :
  ∀ env e, e ∈ product db ts env →
  ∀ t, t ∈ ts →
  ∃ r, r ∈ rows_of db t ∧ ∀ c, table_of c = t → e c = r c.
Proof.
  induction ts as [|t0 ts IH]; intros env e He t Ht; cbn [product] in He.
  - by apply elem_of_nil in Ht.
  - apply list_elem_of_bind in He as (r & He & Hr).
    destruct (decide (t ∈ ts)) as [Hin|Hout]; [by eapply IH|].
    assert (t = t0) as -> by set_solver.
    exists r. split; [done|]. intros c Hc.
    rewrite (product_other _ _ _ _ He) by by rewrite Hc.
    unfold bind_row. by rewrite decide_True.
Qed.

Lemma sql_in_true a (vs : list val) :
  sql_in a vs = Some true → ∃ v, v ∈ vs ∧ sql_eq a v = Some true.
Proof.
  unfold sql_in. induction vs as [|v vs IH]; cbn [foldr]; [done|].
  intros Hor. destruct (sql_eq a v) as [[]|] eqn:Hv.
  - exists v. split; [apply list_elem_of_here|done].
  - destruct IH as (v' & Hin & Hv');
      [by destruct (foldr _ _ vs) as [[]|]|].
    exists v'. split; [by apply list_elem_of_further|done].
  - destruct IH as (v' & Hin & Hv');
      [by destruct (foldr _ _ vs) as [[]|]|].
    exists v'. split; [by apply list_elem_of_further|done].
Qed.

Lemma elem_of_insert_row leb e x (l : list row) :
  e ∈ insert_row leb x l → e = x ∨ e ∈ l.
Proof.
  induction l as [|y l IH]; cbn [insert_row].
  - intros ->%list_elem_of_singleton. by left.
  - destruct (leb x y).
    + intros [->|?]%elem_of_cons; auto.
    + intros [->|Hin]%elem_of_cons.
      * right. apply list_elem_of_here.
      * destruct (IH Hin); [by left|right]. by apply list_elem_of_further.
Qed.

Lemma elem_of_order_by o (rows : list row) e :
  e ∈ order_by o rows → e ∈ rows.
Proof.
  unfold order_by. induction rows as [|x rows IH]; cbn [foldr]; [done|].
  intros [->|Hin]%elem_of_insert_row; [apply list_elem_of_here|].
  apply list_elem_of_further. by apply IH.
Qed.

Lemma elem_of_fetch_order (rows : list row) e :
  e ∈ fetch_order rows ↔ e ∈ rows.
Proof. by rewrite fetch_order_perm. Qed.

Lemma elem_of_window {A} off lim (l result : list A) x :
  window off lim l = Return result → x ∈ result → x ∈ l.
Proof.
  unfold window. case_bool_decide; [done|].
  destruct lim as [n|].
  - case_bool_decide; [done|]. intros [= <-] Hx.
    by apply subseteq_take, subseteq_drop in Hx.
  - intros [= <-] Hx. by apply subseteq_drop in Hx.
Qed.

Lemma access_via_owner_true db outer e user_id b :
  e c_bundle_owner_id = opt_str (b_owner_id b) →
  eval db outer e (col_eq c_bundle_owner_id (opt_str user_id)) = Some true →
  b_owner_id b = user_id.
Proof.
  intros He. destruct user_id as [u|]; cbn [opt_str col_eq eval];
    rewrite He; destruct (b_owner_id b) as [x|]; cbn; try done.
  intros [= Hx]. apply bool_decide_eq_true in Hx. by subst.
Qed.

Lemma access_via_user_group_true db outer e user_id g :
  e (c_perm_group_uuid of_bundle) = VStr g →
  eval db outer e
    (CInSelect (c_perm_group_uuid of_bundle) c_ug_group_uuid
       (col_eq c_ug_user_id (opt_str user_id))) = Some true →
  ∃ r, r ∈ user_group db ∧ user_id = Some (ug_user_id r)
       ∧ ug_group_uuid r = g.
Proof.
  intros Hg. cbn [eval]. rewrite Hg.
  assert (Hfs : sub_froms outer c_ug_group_uuid
                  (col_eq c_ug_user_id (opt_str user_id)) = [t_user_group])
    by by destruct user_id.
  rewrite Hfs. intros (v & Hv & Heq)%sql_in_true.
  apply list_elem_of_fmap in Hv as (e' & -> & [Hwhr He']%list_elem_of_filter).
  cbn [product] in He'.
  apply list_elem_of_bind in He' as (r & ->%list_elem_of_singleton & Hr).
  cbn [rows_of] in Hr. apply list_elem_of_fmap in Hr as (ug & -> & Hug).
  exists ug. split; [done|].
  unfold bind_row in Heq, Hwhr. cbn in Heq.
  destruct user_id as [u|]; cbn in Hwhr.
  - injection Hwhr as Hu%bool_decide_eq_true.
    injection Heq as Hq%bool_decide_eq_true. by subst.
  - done.
Qed.

Lemma access_via_group_true self db outer e user_id b p :
  e c_bundle_uuid = VStr (b_uuid b) →
  (∀ c, table_of c = t_group_bundle_permission →
        e c = row_of_permission of_bundle p c) →
  eval db outer e
    (CAnd [
       CColEq (c_perm_object_uuid of_bundle) c_bundle_uuid;
       COr [
         col_eq (c_perm_group_uuid of_bundle) (VStr (public_group_uuid self));
         CInSelect (c_perm_group_uuid of_bundle) c_ug_group_uuid
           (col_eq c_ug_user_id (opt_str user_id))
       ];
       CGe (c_perm_permission of_bundle) GROUP_OBJECT_PERMISSION_READ
     ]) = Some true →
  p_object_uuid p = b_uuid b
  ∧ GROUP_OBJECT_PERMISSION_READ ≤ p_permission p
  ∧ member self db user_id (p_group_uuid p).
Proof.
  intros Hb Hp Hand.
  assert (Ho : e (c_perm_object_uuid of_bundle) = VStr (p_object_uuid p))
    by by rewrite Hp.
  assert (Hg : e (c_perm_group_uuid of_bundle) = VStr (p_group_uuid p))
    by by rewrite Hp.
  assert (Hl : e (c_perm_permission of_bundle) = VInt (p_permission p))
    by by rewrite Hp.
  pose proof (proj1 (eval_and_true _ _ _ _) Hand) as Hall.
  split; [|split].
  - specialize (Hall (CColEq (c_perm_object_uuid of_bundle) c_bundle_uuid)).
    cbn [eval] in Hall. rewrite Ho, Hb in Hall.
    assert (Heq : sql_eq (VStr (p_object_uuid p)) (VStr (b_uuid b))
                  = Some true) by (apply Hall; set_solver).
    injection Heq as Heq. by apply bool_decide_eq_true in Heq.
  - specialize (Hall (CGe (c_perm_permission of_bundle)
                        GROUP_OBJECT_PERMISSION_READ)).
    cbn [eval] in Hall. rewrite Hl in Hall.
    assert (Hge : sql_ge (VInt (p_permission p)) GROUP_OBJECT_PERMISSION_READ
                  = Some true) by (apply Hall; set_solver).
    injection Hge as Hge. by apply bool_decide_eq_true in Hge.
  - match type of Hand with
    | eval _ _ _ (CAnd [_; ?c; _]) = _ =>
        assert (Hor : eval db outer e c = Some true)
          by (apply Hall; set_solver)
    end.
    apply eval_or_true in Hor as (c & Hc & Hor).
    apply elem_of_cons in Hc as [->|Hc].
    + left. cbn [col_eq eval] in Hor. rewrite Hg in Hor.
      injection Hor as Hor. by apply bool_decide_eq_true in Hor.
    + apply list_elem_of_singleton in Hc as ->. right.
      by apply (access_via_user_group_true db outer e).
Qed.

(** The rows the access clause keeps are rows of a bundle the principal can
    read. *)
Lemma access_clause_readable self db (froms : list table) e user_id :
  t_bundle ∈ froms → t_group_bundle_permission ∈ froms →
  e ∈ product db froms no_row →
  eval db froms e (access_clause self user_id) = Some true →
  ∃ b, b ∈ bundle db ∧ e c_bundle_uuid = VStr (b_uuid b)
       ∧ readable self db user_id b.
Proof.
  intros Hfb Hfp He Hacc.
  destruct (product_row db froms no_row e He t_bundle Hfb) as (rb & Hrb & Hb).
  cbn [rows_of] in Hrb. apply list_elem_of_fmap in Hrb as (b & -> & Hbin).
  destruct (product_row db froms no_row e He t_group_bundle_permission Hfp)
    as (rp & Hrp & Hp).
  cbn [rows_of] in Hrp. apply list_elem_of_fmap in Hrp as (p & -> & Hpin).
  exists b. split; [done|]. split; [by rewrite Hb|].
  unfold access_clause in Hacc.
  apply eval_or_true in Hacc as (c & Hc & Hacc).
  apply elem_of_cons in Hc as [->|Hc].
  - left. apply (access_via_owner_true db froms e); [by rewrite Hb|done].
  - apply list_elem_of_singleton in Hc as ->. right.
    destruct (access_via_group_true self db froms e user_id b p)
      as (Ho & Hl & Hm); [by rewrite Hb|done|done|].
    exists p. done.
Qed.

(** C1. For a principal that is not root, every uuid that
    [search_bundle_uuids] returns is the uuid of a bundle that the principal
    owns, or on which a permission row of level at least READ is attached
    to a group the principal is in (the public group included), whatever
    the keywords are.  So a uuid all of whose bundles the principal cannot
    read is never returned. *)
Theorem search_bundle_uuids_respects_access self db user_id worksheet_uuid
    keywords (l : list val) :
  user_id ≠ root_user_id self →
  search_bundle_uuids self db user_id worksheet_uuid keywords
  = Return (Uuids l) →
  (∀ v, v ∈ l →
     ∃ b, b ∈ bundle db ∧ v = VStr (b_uuid b) ∧ readable self db user_id b)
  ∧ (∀ uuid,
       (∀ b, b ∈ bundle db → b_uuid b = uuid → ¬ readable self db user_id b) →
       VStr uuid ∉ l).
Proof.
  intros Hroot Hrun.
  assert (Hall : ∀ v, v ∈ l →
            ∃ b, b ∈ bundle db ∧ v = VStr (b_uuid b)
                 ∧ readable self db user_id b).
  2:{ split; [done|]. intros uuid Hnone Hin.
      destruct (Hall _ Hin) as (b & Hb & [= ->] & Hread).
      by apply (Hnone b). }
  unfold search_bundle_uuids in Hrun.
  destruct (foldl search_keyword _ keywords) as [p|]; [|done].
  rewrite bool_decide_true in Hrun by done.
  destruct (sum_key p).
  { destruct (select_where _ _ _); [|done].
    destruct (window _ _ _) as [result|]; [|done].
    by destruct (if count p then _ else _). }
  unfold select_where in Hrun.
  set (clause := CAnd [CAnd (clauses p); access_clause self user_id]) in *.
  set (froms := remove_dups ([t_bundle] ++ tables_of clause)) in *.
  destruct (without_from froms clause); [done|].
  destruct (window _ _ _) as [result|] eqn:Hwin; [|done].
  destruct (count p); [done|]. injection Hrun as ->.
  intros v Hv.
  apply (elem_of_window _ _ _ _ _ Hwin) in Hv.
  apply elem_of_remove_dups, list_elem_of_fmap in Hv as (e & -> & He).
  assert (Hrow : e ∈ filter (fun e => holds db froms clause e)
                            (product db froms no_row)).
  { apply elem_of_fetch_order.
    destruct (sort_key p); [by apply elem_of_order_by in He|done]. }
  apply list_elem_of_filter in Hrow as [Hholds Hprod].
  unfold holds in Hholds. apply bool_decide_spec in Hholds.
  assert (Hacc : eval db froms e (access_clause self user_id) = Some true).
  { apply (proj1 (eval_and_true _ _ _ _) Hholds). set_solver. }
  destruct (access_clause_readable self db froms e user_id) as (b & ? & ? & ?);
    [| |done|done|by exists b].
  - unfold froms. apply elem_of_remove_dups. set_solver.
  - unfold froms. apply elem_of_remove_dups, elem_of_app. right.
    unfold clause. cbn [tables_of map concat].
    rewrite !elem_of_app. right. left.
    destruct user_id; cbn; set_solver.
Qed.

End Search.

Example search_as_member :
  search_bundle_uuids Reference.sample_model Reference.permission_db
    (Some "u") None ["type=run"]
  = Return (Uuids [VStr "o"; VStr "q"; VStr "r"]).
Proof. vm_compute. reflexivity. Qed.

Example search_as_stranger :
  search_bundle_uuids Reference.sample_model Reference.permission_db
    (Some "x") None ["uuid=o"]
  = Return (Uuids [])
  ∧ search_bundle_uuids Reference.sample_model Reference.permission_db
      (Some "root") None ["uuid=o"]
    = Return (Uuids [VStr "o"]).
Proof. split; vm_compute; reflexivity. Qed.

Lemma search_bundle_uuids_respects_access_witness :
  (∀ v, v ∈ [VStr "o"; VStr "q"; VStr "r"] →
     ∃ b, b ∈ bundle Reference.permission_db ∧ v = VStr (b_uuid b)
          ∧ readable Reference.sample_model Reference.permission_db
              (Some "u") b)
  ∧ (∀ uuid,
       (∀ b, b ∈ bundle Reference.permission_db → b_uuid b = uuid →
             ¬ readable Reference.sample_model Reference.permission_db
                 (Some "u") b) →
       VStr uuid ∉ [VStr "o"; VStr "q"; VStr "r"]).
Proof.
  apply (search_bundle_uuids_respects_access Reference.sample_model
           Reference.permission_db (Some "u") None ["type=run"]).
  - discriminate.
  - vm_compute. reflexivity.
Defined.

(** ** Properties of the rest of the model *)
Import More.

(** *** Look-ups *)
Section LookUps.
Context `{StorageEngine}.

(** X1. [get_children_uuids] raises nothing and returns a dictionary with
    exactly the given uuids as keys, each with the list of the bundles that
    depend on it, in storage order. *)
Theorem get_children_uuids_exact db (uuids : list string) :
  ∃ m, get_children_uuids db uuids = Return m
       ∧ ∀ p, m !! p
              = if decide (p ∈ uuids) then Some (children_of db p) else None.
Proof.
  unfold get_children_uuids.
  set (rows := filter _ (bundle_dependency db)).
  assert (Hrows : ∀ d, d ∈ rows
                       ↔ d ∈ bundle_dependency db ∧ d_parent_uuid d ∈ uuids).
  { intros d. unfold rows. rewrite list_elem_of_filter.
    rewrite (holds_in_strs _ _ _ _ _ (d_parent_uuid d)) by done. tauto. }
  destruct (foldl_append_child rows
              (list_to_map ((fun uuid => (uuid, [])) <$> uuids)))
    as (m & Hm & Hlk).
  { intros d Hd%Hrows. rewrite lookup_initial_children.
    rewrite decide_True by tauto. eauto. }
  exists m. split; [done|]. intros p. rewrite Hlk, lookup_initial_children.
  case_decide as Hp; [|done]. cbn. f_equal. unfold children_of. f_equal.
  unfold rows. rewrite list_filter_filter. apply list_filter_iff.
  intros d. rewrite (holds_in_strs _ _ _ _ _ (d_parent_uuid d)) by done.
  naive_solver.
Qed.

Lemma foldl_append_host (rs : list item_row) :
  ∀ m : gmap string (list string),
  (∀ i, i ∈ rs → ∃ b, i_bundle_uuid i = Some b ∧ is_Some (m !! b)) →
  ∃ m', foldl append_host (Return m) rs = Return m'
        ∧ ∀ b, m' !! b
               = (fun l => l ++ (i_worksheet_uuid <$>
                                   filter (fun i => i_bundle_uuid i = Some b) rs))
                 <$> m !! b.
Proof.
  induction rs as [|r rs IH]; intros m Hkeys; cbn [foldl].
  - exists m. split; [done|]. intros b.
    destruct (m !! b); simpl; [|done]. by rewrite app_nil_r.
  - destruct (Hkeys r) as (b0 & Hb0 & l & Hl); [apply list_elem_of_here|].
    unfold append_host at 2. rewrite Hb0, Hl.
    destruct (IH (<[b0 := l ++ [i_worksheet_uuid r]]> m)) as (m' & Hm' & Hlk).
    { intros i Hi. destruct (Hkeys i) as (b & Hb & Hsome);
        [by apply list_elem_of_further|].
      exists b. split; [done|]. destruct (decide (b0 = b)) as [<-|Hne].
      - rewrite lookup_insert_eq. eauto.
      - by rewrite lookup_insert_ne. }
    exists m'. split; [done|]. intros b. rewrite Hlk, filter_cons.
    destruct (decide (b0 = b)) as [<-|Hne].
    + rewrite lookup_insert_eq, Hl, decide_True by done. simpl.
      by rewrite <- app_assoc.
    + rewrite lookup_insert_ne by done.
      rewrite decide_False; [done|]. congruence.
Qed.

Lemma host_worksheet_uuids_lookup db (bundle_uuids : list string) :
  ∃ m, get_host_worksheet_uuids db bundle_uuids = Return m
       ∧ ∀ b, m !! b
              = if decide (b ∈ bundle_uuids) then Some (hosts_of db b)
                else None.
Proof.
  unfold get_host_worksheet_uuids.
  set (rows := filter _ (worksheet_item db)).
  assert (Hrows : ∀ i, i ∈ rows
            ↔ (∃ b, i_bundle_uuid i = Some b ∧ b ∈ bundle_uuids)
              ∧ i ∈ worksheet_item db).
  { intros i. unfold rows. rewrite list_elem_of_filter.
    by rewrite (holds_in_opt_strs _ _ _ _ _ (i_bundle_uuid i)). }
  destruct (foldl_append_host rows
              (list_to_map ((fun uuid => (uuid, [])) <$> bundle_uuids)))
    as (m & Hm & Hlk).
  { intros i [(b & Hb & Hin) _]%Hrows. exists b. split; [done|].
    rewrite lookup_initial_children. rewrite decide_True by done. eauto. }
  exists m. split; [done|]. intros b. rewrite Hlk, lookup_initial_children.
  case_decide as Hb; [|done]. cbn. f_equal. unfold hosts_of. f_equal.
  unfold rows. rewrite list_filter_filter. apply list_filter_iff.
  intros i.
  rewrite (holds_in_opt_strs _ _ _ _ _ (i_bundle_uuid i)) by done.
  naive_solver.
Qed.

(** X2. [get_host_worksheet_uuids] raises nothing and returns a dictionary
    with exactly the given bundle uuids as keys, each with the worksheets
    of the items that refer to it, one entry per item, in storage order. *)
Theorem get_host_worksheet_uuids_exact db (bundle_uuids : list string) :
  ∃ m, get_host_worksheet_uuids db bundle_uuids = Return m
       ∧ ∀ b, m !! b
              = if decide (b ∈ bundle_uuids) then Some (hosts_of db b)
                else None.
Proof. apply host_worksheet_uuids_lookup. Qed.

End LookUps.

(** *** The dependency graph *)
Section Reachability.
Context `{StorageEngine}.

Lemma reach_closed db seeds (V : list string) n u :
  (∀ s, s ∈ seeds → s ∈ V) → closed_under_children db V →
  reach db seeds n u → u ∈ V.
Proof.
  intros Hseeds Hcl. induction 1 as [u Hu|n d _ IH Hd]; [by apply Hseeds|].
  by apply Hcl.
Qed.

(** The nodes [k] rounds have visited are those at most [k] edges away from
    the seeds, and the walk ends with those within the depth that is
    left. *)
Lemma walk_reach db seeds fuel :
  ∀ (F V : list string) d (k : nat) R,
  (∀ u, u ∈ V ↔ ∃ n, (n ≤ k)%nat ∧ reach db seeds n u) →
  (∀ u, u ∈ F → u ∈ V) →
  (∀ r, r ∈ bundle_dependency db → d_parent_uuid r ∈ V →
        d_parent_uuid r ∈ F ∨ d_child_uuid r ∈ V) →
  walk fuel db F V d = Some (Return R) →
  ∀ u, u ∈ R ↔ ∃ n, match d with
                    | Finite z => (n ≤ k + Z.to_nat z)%nat
                    | Infinite => True
                    end ∧ reach db seeds n u.
Proof.
  assert (Hend : ∀ (F V : list string) d (k : nat),
    (∀ u, u ∈ V ↔ ∃ n, (n ≤ k)%nat ∧ reach db seeds n u) →
    (∀ r, r ∈ bundle_dependency db → d_parent_uuid r ∈ V →
          d_parent_uuid r ∈ F ∨ d_child_uuid r ∈ V) →
    bool_decide (F ≠ []) && positive d = false →
    ∀ u, u ∈ V ↔ ∃ n, match d with
                      | Finite z => (n ≤ k + Z.to_nat z)%nat
                      | Infinite => True
                      end ∧ reach db seeds n u).
  { intros F V d k Hball Hinv Hc u. split.
    - intros (n & Hn & Hr)%Hball. exists n. split; [|done].
      destruct d; [lia|done].
    - intros (n & Hn & Hr).
      apply andb_false_iff in Hc as [HF|Hp].
      + apply bool_decide_eq_false in HF.
        assert (F = []) as -> by by destruct F; [|destruct HF].
        apply (reach_closed db seeds V n u); [| |done].
        * intros s Hs. apply Hball. exists 0%nat.
          split; [lia|by constructor].
        * intros r Hr' Hp. destruct (Hinv r Hr' Hp) as [Hnil|]; [|done].
          by apply elem_of_nil in Hnil.
      + destruct d as [z|]; [|done]. cbn in Hp.
        apply bool_decide_eq_false in Hp.
        apply Hball. exists n. split; [lia|done]. }
  induction fuel as [|fuel IH]; intros F V d k R Hball HFV Hinv; cbn [walk];
    destruct (bool_decide (F ≠ []) && positive d) eqn:Hc; try done;
    try (intros [= <-]; by apply (Hend F)).
  destruct (round_spec db F V) as (m & new & Hm & Hex & Hnd & Hin).
  rewrite Hm, Hex. intros Hw u.
  apply andb_true_iff in Hc as [_ Hp].
  rewrite (IH new (V ++ new) (decrement d) (S k) R); [| | | |done].
  - destruct d as [z|]; [|done]. cbn in Hp. apply bool_decide_eq_true in Hp.
    cbn. split; intros (n & Hn & Hr); exists n; (split; [lia|done]).
  - intros x. rewrite elem_of_app, Hball, Hin. split.
    + intros [(n & Hn & Hr)|[(r & Hr & HpF & <-) _]].
      * exists n. split; [lia|done].
      * apply HFV, Hball in HpF as (n & Hn & Hreach).
        exists (S n). split; [lia|]. by constructor.
    + intros (n & Hn & Hr).
      destruct (decide (x ∈ V)) as [HxV|HxV]; [left; by apply Hball|].
      right. split; [|done].
      inversion Hr as [? Hseed|n' r Hparent Hdep]; subst.
      * destruct HxV. apply Hball. exists 0%nat. split; [lia|done].
      * exists r. split; [done|]. split; [|done].
        assert (HpV : d_parent_uuid r ∈ V)
          by (apply Hball; exists n'; split; [lia|done]).
        destruct (Hinv r Hdep HpV); done.
  - intros x Hx. apply elem_of_app. by right.
  - intros r Hr [HpV|Hpn]%elem_of_app; [|by left].
    right. apply elem_of_app.
    destruct (Hinv r Hr HpV) as [HpF|Hc]; [|by left].
    destruct (decide (d_child_uuid r ∈ V)); [by left|right].
    apply Hin. eauto.
Qed.

(** X3. [get_self_and_descendants] returns exactly the bundles that are at
    most [depth] child edges away from one of the given bundles, and all
    the bundles reachable from them when the depth is unbounded. *)
Theorem get_self_and_descendants_reachable db (uuids : list string) d :
  ∃ v, get_self_and_descendants db uuids d = Some (Return v)
       ∧ ∀ u, u ∈ v ↔ ∃ n, within d n ∧ reach db uuids n u.
Proof.
  unfold get_self_and_descendants.
  destruct (walk_spec db (rounds db) uuids uuids d (rounds_enough db uuids))
    as (new & Hw & _).
  eexists. split; [done|]. intros u.
  rewrite (walk_reach db uuids (rounds db) uuids uuids d 0 _); [| | | |done].
  - unfold within. by destruct d.
  - intros x. split.
    + intros Hx. exists 0%nat. split; [lia|by constructor].
    + intros (n & Hn & Hr). inversion Hr; subst; [done|lia].
  - done.
  - by left.
Qed.

End Reachability.

Example descendants_within_2 :
  get_self_and_descendants Reference.graph_db ["d"] (Finite 2)
  = Some (Return ["d"; "e"; "f"]).
Proof. vm_compute. reflexivity. Qed.

(** *** Bundles *)
Section MoreBundles.
Context `{StorageEngine} `{BundleDomain}.

Lemma check_not_running_cases (uuids : list string) db :
  _check_not_running uuids db
  = match running db uuids with
    | [] => (Return tt, db)
    | _ =>
        (Raise (UsageError
                  ("Can't delete running bundles: "
                   ++ join_spaces (b_uuid <$> running db uuids))%string), db)
    end.
Proof.
  unfold _check_not_running, running.
  rewrite list_filter_filter.
  rewrite (list_filter_iff _
             (fun b => b_uuid b ∈ uuids ∧ b_state b = State_RUNNING)).
  2:{ intros b. rewrite (holds_in_strs _ _ _ _ _ (b_uuid b)) by done. tauto. }
  by destruct (filter _ (bundle db)).
Qed.


(** X5. [remove_data_hash_references] refuses running bundles as
    [delete_bundles] does; otherwise it clears the data hash of the bundles
    of the given uuids and changes nothing else. *)
Theorem remove_data_hash_references_clears (uuids : list string) db :
  (running db uuids ≠ [] →
     ∃ msg, remove_data_hash_references uuids db
            = (Raise (UsageError msg), db))
  ∧ (running db uuids = [] →
     remove_data_hash_references uuids db
     = (Return tt,
        set_bundle
          ((fun b => if bool_decide (b_uuid b ∈ uuids)
                     then without_data_hash b else b) <$> bundle db) db)).
Proof.
  unfold remove_data_hash_references, bind.
  rewrite check_not_running_cases. split; intros Hr.
  - destruct (running db uuids); [done|]. eauto.
  - rewrite Hr. unfold transaction, update_bundle_where, bind, ret.
    do 2 f_equal. apply list_fmap_ext. intros i b _.
    assert (Hb : holds db [t_bundle] (CIn c_bundle_uuid (VStr <$> uuids))
                   (row_of_bundle b) = bool_decide (b_uuid b ∈ uuids)).
    { apply bool_decide_ext.
      pose proof (holds_in_strs db [t_bundle] c_bundle_uuid uuids
                    (row_of_bundle b) (b_uuid b) eq_refl) as Hiff.
      unfold holds in Hiff. by rewrite bool_decide_spec in Hiff. }
    rewrite Hb. by destruct (bool_decide _).
Qed.

Lemma remove_dups_same (u : string) (l : list string) :
  l ≠ [] → (∀ x, x ∈ l → x = u) → remove_dups l = [u].
Proof.
  induction l as [|x l IH]; [done|]. intros _ Hall. cbn [remove_dups].
  assert (x = u) as -> by (apply Hall, list_elem_of_here).
  destruct l as [|y l].
  - by destruct (decide_rel elem_of u []) as [?%elem_of_nil|].
  - destruct (decide_rel elem_of u (y :: l)) as [_|Hnot].
    + apply IH; [done|]. intros z Hz. apply Hall. by apply list_elem_of_further.
    + destruct Hnot. rewrite (Hall y); [apply list_elem_of_here|].
      apply list_elem_of_further, list_elem_of_here.
Qed.

(** [get_bundle] reads the rows of the bundle, of its dependencies and of
    its metadata, and nothing else. *)
Lemma get_bundle_local db1 db2 uuid :
  filter (fun b => b_uuid b = uuid) (bundle db1)
  = filter (fun b => b_uuid b = uuid) (bundle db2) →
  filter (fun d => d_child_uuid d = uuid) (bundle_dependency db1)
  = filter (fun d => d_child_uuid d = uuid) (bundle_dependency db2) →
  filter (fun m => m_bundle_uuid m = uuid) (bundle_metadata db1)
  = filter (fun m => m_bundle_uuid m = uuid) (bundle_metadata db2) →
  get_bundle db1 uuid = get_bundle db2 uuid.
Proof.
  intros Hb Hd Hm.
  assert (Hshape : ∀ db,
    batch_get_bundles db [(c_bundle_uuid, PyScalar (VStr uuid))]
    = match filter (fun b => b_uuid b = uuid) (bundle db) with
      | [] => Return []
      | (_ :: _) as bundle_rows =>
          let bundle_values : gmap string bundle_value :=
            foldl (fun vs row => <[b_uuid row := mk_bundle_value row [] []]> vs)
                  ∅ bundle_rows in
          match foldl attach_dependency (Return bundle_values)
                  (filter (fun d => d_child_uuid d = uuid)
                          (bundle_dependency db)) with
          | Raise e => Raise e
          | Return bundle_values =>
              match foldl attach_metadata (Return bundle_values)
                      (filter (fun m => m_bundle_uuid m = uuid)
                              (bundle_metadata db)) with
              | Raise e => Raise e
              | Return bundle_values =>
                  match construct_all
                          (sorted_by_id (map_to_list bundle_values).*2) with
                  | Raise e => Raise e
                  | Return bundles =>
                      match validate_all bundles with
                      | Raise e => Raise e
                      | Return _ => Return bundles
                      end
                  end
              end
          end
      end).
  { intros db. unfold batch_get_bundles.
    rewrite (list_filter_iff
               (fun b => Is_true (holds db [t_bundle] _ (row_of_bundle b)))
               (fun b => b_uuid b = uuid))
      by (intros b; apply holds_uuid).
    destruct (filter (fun b => b_uuid b = uuid) (bundle db))
      as [|b rows] eqn:E; [done|].
    assert (Hu : remove_dups (b_uuid <$> b :: rows) = [uuid]).
    { apply remove_dups_same; [done|].
      intros x (b' & -> & Hb')%list_elem_of_fmap.
      rewrite <- E in Hb'. by apply list_elem_of_filter in Hb' as [? _]. }
    rewrite Hu.
    rewrite (list_filter_iff
               (fun d => Is_true (holds _ _ _ (row_of_dependency d)))
               (fun d => d_child_uuid d = uuid)).
    2:{ intros d. rewrite (holds_in_strs _ _ _ _ _ (d_child_uuid d)) by done.
        by rewrite list_elem_of_singleton. }
    rewrite (list_filter_iff
               (fun m => Is_true (holds _ _ _ (row_of_metadata m)))
               (fun m => m_bundle_uuid m = uuid)).
    2:{ intros m. rewrite (holds_in_strs _ _ _ _ _ (m_bundle_uuid m)) by done.
        by rewrite list_elem_of_singleton. }
    done. }
  unfold get_bundle. rewrite !Hshape, Hb, Hd, Hm. done.
Qed.

Lemma filter_none_all {A} (P : A → Prop) `{∀ x, Decision (P x)}
    (l : list A) :
  (∀ x, x ∈ l → ¬ P x) → filter (fun x => ¬ P x) l = l.
Proof.
  induction l as [|x l IH]; [done|]. intros Hall. rewrite filter_cons.
  rewrite decide_True by (apply Hall, list_elem_of_here).
  f_equal. apply IH. intros y Hy. apply Hall. by apply list_elem_of_further.
Qed.

Lemma filter_fmap_comm {A B} (f : A → B) (P : B → Prop)
    `{∀ y, Decision (P y)} (l : list A) :
  filter P (f <$> l) = f <$> filter (fun x => P (f x)) l.
Proof.
  induction l as [|x l IH]; [done|].
  rewrite fmap_cons, !filter_cons, IH. by destruct (decide (P (f x))).
Qed.

Lemma filter_filter_out {A} (P Q : A → Prop) `{∀ x, Decision (P x)}
    `{∀ x, Decision (Q x)} (l : list A) :
  (∀ x, P x → Q x) → filter P (filter Q l) = filter P l.
Proof.
  intros HPQ. rewrite list_filter_filter. apply list_filter_iff.
  intros x. split; [tauto|]. intros HP. split; [done|by apply HPQ].
Qed.

(** X6. After a successful [delete_bundles], [get_bundle] finds none of the
    deleted bundles: it raises the [UsageError] of a bundle that is not
    there; and it returns for any other uuid what it returned before. *)
Theorem get_bundle_after_delete_bundles (uuids : list string) db db' uuid :
  delete_bundles uuids db = (Return tt, db') →
  (uuid ∈ uuids →
     get_bundle db' uuid
     = Raise (UsageError ("Could not find bundle with uuid " ++ uuid)%string))
  ∧ (uuid ∉ uuids → get_bundle db' uuid = get_bundle db uuid).
Proof.
  rewrite delete_bundles_cases.
  destruct (_check_not_running uuids db) as [[[]|e] d]; [|done].
  intros [= <-]. split; intros Hu.
  - unfold get_bundle, batch_get_bundles.
    rewrite (list_filter_iff
               (fun b => Is_true (holds _ [t_bundle] _ (row_of_bundle b)))
               (fun b => b_uuid b = uuid))
      by (intros b; apply holds_uuid).
    cbn [cascade bundle]. rewrite list_filter_filter.
    rewrite filter_none; [done|]. by intros b _ [-> Hnot].
  - apply get_bundle_local; cbn [cascade bundle bundle_dependency
                                 bundle_metadata];
      apply filter_filter_out; by intros x ->.
Qed.

(** X7. When the UPDATE of [batch_update_bundles], for a legal update of
    at least one column and a condition on columns of the bundle table,
    matches as many rows as the bundles given have distinct ids, the method
    returns [True], the matched rows have the new values and every bundle
    object given is updated in memory. *)
Theorem batch_update_bundles_success db (bundles : list bundle_object)
    update condition :
  legal_update update = true →
  update ≠ [] →
  bundles ≠ [] →
  condition_on t_bundle condition →
  length (filter (fun b => matched db bundles condition b) (bundle db))
  = length (remove_dups (bundle_id <$> bundles)) →
  batch_update_bundles bundles update condition db
  = (Return (true, (fun bundle => update_in_memory bundle update) <$> bundles),
     set_bundle
       ((fun b => if matched db bundles condition b
                  then values update b else b) <$> bundle db) db).
Proof.
  intros Hlegal Hupdate Hne _ Hcount.
  rewrite batch_update_bundles_run by done. cbn zeta.
  by rewrite Hcount, Z.eqb_refl.
Qed.

Lemma values_identity update b :
  legal_update update = true →
  b_id (values update b) = b_id b ∧ b_uuid (values update b) = b_uuid b.
Proof.
  unfold values, legal_update. revert b.
  induction update as [|a update IH]; intros b; cbn [foldl forallb]; [done|].
  intros [Ha Hrest]%andb_true_iff.
  destruct (IH (assign b a) Hrest) as [-> ->]. by destruct a.
Qed.

(** X8. Whatever it is given, [batch_update_bundles] changes neither the id
    nor the uuid of a bundle row, adds and removes no bundle row, and
    leaves the other tables as they are; an update of [id] or [uuid] is
    refused before anything is executed. *)
Theorem batch_update_bundles_keeps_identity db
    (bundles : list bundle_object) update condition :
  let db' := (batch_update_bundles bundles update condition db).2 in
  b_id <$> bundle db' = b_id <$> bundle db
  ∧ b_uuid <$> bundle db' = b_uuid <$> bundle db
  ∧ db' = set_bundle (bundle db') db
  ∧ (legal_update update = false →
     ∃ e, batch_update_bundles bundles update condition db = (Raise e, db)).
Proof.
  assert (Hsame : ∀ d : database, d = set_bundle (bundle d) d)
    by by intros [].
  destruct (legal_update update) eqn:Hlegal.
  - destruct (decide (bundles = [])) as [->|Hne].
    + unfold batch_update_bundles, bind, precondition. rewrite Hlegal.
      cbn. split; [done|]. split; [done|]. split; [apply Hsame|]. intros [=].
    + destruct (decide (update = [])) as [->|Hupdate].
      { rewrite batch_update_bundles_no_column by done. cbn.
        split; [done|]. split; [done|]. split; [apply Hsame|]. intros [=]. }
      rewrite batch_update_bundles_run by done. cbn.
      split; [|split; [|split; [done|intros [=]]]].
      * rewrite <- list_fmap_compose. apply list_fmap_ext. intros i b _. cbn.
        destruct (matched _ _ _ _); [|done].
        by apply values_identity.
      * rewrite <- list_fmap_compose. apply list_fmap_ext. intros i b _. cbn.
        destruct (matched _ _ _ _); [|done].
        by apply values_identity.
  - unfold batch_update_bundles, bind, precondition. rewrite Hlegal. cbn.
    split; [done|]. split; [done|]. split; [apply Hsame|]. eauto.
Qed.

End MoreBundles.


Lemma remove_data_hash_references_clears_witness :
  remove_data_hash_references ["a"] Reference.lineage_db
  = (Return tt,
     set_bundle
       ((fun b => if bool_decide (b_uuid b ∈ ["a"])
                  then without_data_hash b else b)
        <$> bundle Reference.lineage_db) Reference.lineage_db).
Proof.
  apply (proj2 (remove_data_hash_references_clears ["a"]
                  Reference.lineage_db)).
  vm_compute. reflexivity.
Defined.

Lemma get_bundle_after_delete_bundles_witness :
  get_bundle (cascade ["a"] Reference.lineage_db) "a"
  = Raise (UsageError "Could not find bundle with uuid a")
  ∧ get_bundle (cascade ["a"] Reference.lineage_db) "b"
    = get_bundle Reference.lineage_db "b".
Proof.
  destruct (get_bundle_after_delete_bundles ["a"] Reference.lineage_db
              (cascade ["a"] Reference.lineage_db) "a") as [Ha _].
  { vm_compute. reflexivity. }
  destruct (get_bundle_after_delete_bundles ["a"] Reference.lineage_db
              (cascade ["a"] Reference.lineage_db) "b") as [_ Hb].
  { vm_compute. reflexivity. }
  split.
  - apply Ha. set_solver.
  - apply Hb. set_solver.
Defined.

Example batch_update_bundles_compare_and_swap :
  batch_update_bundles [Reference.in_memory 1 "o"] [set_state "running"]
    (Some [(c_bundle_state, PyScalar (VStr "queued"))])
    Reference.permission_db
  = (Return (false, [Reference.in_memory 1 "o"]), Reference.permission_db)
  ∧ (batch_update_bundles [Reference.in_memory 1 "o"] [set_state "running"]
       (Some [(c_bundle_state, PyScalar (VStr "ready"))])
       Reference.permission_db).1
    = Return (true,
              [mk_bundle_value
                 (mk_bundle 1 "o" "run" None None "running" None) [] []]).
Proof. split; vm_compute; reflexivity. Qed.

Lemma batch_update_bundles_success_witness :
  batch_update_bundles [Reference.in_memory 1 "o"] [set_state "running"]
    (Some [(c_bundle_state, PyScalar (VStr "ready"))])
    Reference.permission_db
  = (Return (true,
             (fun bundle => update_in_memory bundle [set_state "running"])
             <$> [Reference.in_memory 1 "o"]),
     set_bundle
       ((fun b => if matched Reference.permission_db
                       [Reference.in_memory 1 "o"]
                       (Some [(c_bundle_state, PyScalar (VStr "ready"))]) b
                  then values [set_state "running"] b else b)
        <$> bundle Reference.permission_db) Reference.permission_db).
Proof.
  apply (batch_update_bundles_success Reference.permission_db
           [Reference.in_memory 1 "o"] [set_state "running"]
           (Some [(c_bundle_state, PyScalar (VStr "ready"))])).
  - reflexivity.
  - discriminate.
  - discriminate.
  - intros key value Hin%list_elem_of_singleton. by injection Hin as -> _.
  - vm_compute. reflexivity.
Defined.

Lemma batch_update_bundles_keeps_identity_witness :
  ∃ e, batch_update_bundles [Reference.in_memory 1 "o"] [set_id 7] None
         Reference.permission_db
       = (Raise e, Reference.permission_db).
Proof.
  apply (batch_update_bundles_keeps_identity Reference.permission_db
           [Reference.in_memory 1 "o"] [set_id 7] None).
  reflexivity.
Defined.

(** *** Worksheet items *)
Section MoreItems.
Context `{StorageEngine} `{WorksheetUtil}.

Lemma hosts_of_app db (rows : list item_row) n b :
  hosts_of (set_worksheet_item (worksheet_item db ++ rows) n db) b
  = hosts_of db b
    ++ (i_worksheet_uuid <$> filter (fun i => i_bundle_uuid i = Some b) rows).
Proof. unfold hosts_of. cbn. by rewrite filter_app, fmap_app. Qed.

(** X9. [add_worksheet_item] always succeeds and appends one row with a
    fresh id, no sort key and the empty string for a null value; after it
    [get_host_worksheet_uuids] lists the worksheet once more, at the end,
    for the bundle of the item, and lists what it listed for the others. *)
Theorem add_worksheet_item_then_hosts db worksheet_uuid (it : item)
    (bundle_uuids : list string) :
  ∃ db' m m',
    add_worksheet_item worksheet_uuid it db = (Return tt, db')
    ∧ worksheet_item db'
      = worksheet_item db ++ [appended (next_item_id db) worksheet_uuid it]
    ∧ get_host_worksheet_uuids db bundle_uuids = Return m
    ∧ get_host_worksheet_uuids db' bundle_uuids = Return m'
    ∧ ∀ b, m' !! b
           = if decide (it.1.1.1 = Some b)
             then (fun l => l ++ [worksheet_uuid]) <$> m !! b
             else m !! b.
Proof.
  destruct it as [[[bundle_uuid subworksheet_uuid] value] type].
  set (row := appended (next_item_id db) worksheet_uuid
                (bundle_uuid, subworksheet_uuid, value, type)).
  set (db' := set_worksheet_item (worksheet_item db ++ [row])
                (next_item_id db + 1) db).
  destruct (host_worksheet_uuids_lookup db bundle_uuids) as (m & Hm & Hlk).
  destruct (host_worksheet_uuids_lookup db' bundle_uuids) as (m' & Hm' & Hlk').
  exists db', m, m'. split; [|split; [done|split; [done|split; [done|]]]].
  - unfold add_worksheet_item, transaction, insert_worksheet_item. cbn.
    unfold db', row, appended, stored. cbn.
    rewrite Z.add_0_r. by destruct value.
  - intros b. rewrite Hlk', Hlk. unfold db'. rewrite hosts_of_app.
    rewrite filter_cons, filter_nil. cbn.
    destruct (decide (bundle_uuid = Some b)) as [->|Hne].
    + by case_decide.
    + cbn. rewrite app_nil_r. by case_decide.
Qed.

Lemma foldl_insert_shadow new_bundle_uuid (old_items : list item_row) :
  ∀ (acc : M unit) db db1,
  acc db = (Return tt, db1) →
  foldl (fun acc old_item =>
           (acc;;; insert_worksheet_item [shadow new_bundle_uuid old_item])%txn)
        acc old_items db
  = (Return tt,
     set_worksheet_item
       (worksheet_item db1
        ++ imap (fun k i => stored (next_item_id db1 + Z.of_nat k)
                              (shadow new_bundle_uuid i)) old_items)
       (next_item_id db1 + Z.of_nat (length old_items)) db1).
Proof.
  induction old_items as [|x xs IH]; intros acc db db1 Hacc; cbn [foldl].
  - rewrite Hacc. destruct db1. unfold set_worksheet_item. cbn.
    by rewrite app_nil_r, Z.add_0_r.
  - erewrite IH.
    2:{ unfold bind. rewrite Hacc. unfold insert_worksheet_item. done. }
    unfold set_worksheet_item. cbn. f_equal. f_equal.
    + rewrite <- app_assoc. f_equal. cbn. rewrite Z.add_0_r. f_equal.
      apply imap_ext. intros k i _. cbn. f_equal. lia.
    + lia.
Qed.

(** X10. [add_shadow_worksheet_items] always succeeds and appends, for each
    item that refers to the old bundle, one item of type bundle for the new
    bundle on the same worksheet with the same sort key; the items that
    were there are kept, and the new bundle is hosted once more by every
    worksheet that hosts the old one. *)
Theorem add_shadow_worksheet_items_follows db
    (old_bundle_uuid new_bundle_uuid : string) :
  old_bundle_uuid ≠ new_bundle_uuid →
  ∃ db',
    add_shadow_worksheet_items old_bundle_uuid new_bundle_uuid db
    = (Return tt, db')
    ∧ worksheet_item db'
      = worksheet_item db
        ++ imap (fun k i => stored (next_item_id db + Z.of_nat k)
                              (shadow new_bundle_uuid i))
                (occurrences db old_bundle_uuid)
    ∧ hosts_of db' new_bundle_uuid
      = hosts_of db new_bundle_uuid ++ hosts_of db old_bundle_uuid
    ∧ ∀ b, b ≠ new_bundle_uuid → hosts_of db' b = hosts_of db b.
Proof.
  intros Hne.
  assert (Hold :
    filter (fun i => holds db [t_worksheet_item]
                       (col_eq c_item_bundle_uuid (VStr old_bundle_uuid))
                       (row_of_item i)) (worksheet_item db)
    = occurrences db old_bundle_uuid).
  { apply list_filter_iff. intros i. unfold holds. cbn.
    rewrite bool_decide_spec.
    destruct (i_bundle_uuid i) as [u|]; cbn; [|done].
    split; [intros [= Hd]|intros [= ->]].
    - apply bool_decide_eq_true in Hd. by subst.
    - by rewrite bool_decide_eq_true_2. }
  eexists. split; [|split; [|split]].
  - unfold add_shadow_worksheet_items, transaction.
    erewrite foldl_insert_shadow by done. rewrite Hold. done.
  - done.
  - rewrite hosts_of_app. f_equal. unfold hosts_of, occurrences.
    induction (filter (fun i => i_bundle_uuid i = Some old_bundle_uuid)
                      (worksheet_item db)) as [|x xs IH] using rev_ind;
      [done|].
    rewrite imap_app, filter_app, !fmap_app. cbn.
    rewrite decide_True by done. cbn. by rewrite IH.
  - intros b Hb. rewrite hosts_of_app.
    rewrite filter_none; [by rewrite app_nil_r|].
    intros x (k & i & -> & _)%elem_of_lookup_imap. cbn. congruence.
Qed.

End MoreItems.

(** *** Permissions of groups *)
Section MorePermissions.
Context `{StorageEngine} `{PermissionLevels}.

Lemma holds_pair db table g o p :
  holds db [permission_table table]
    (CAnd [col_eq (c_perm_group_uuid table) (VStr g);
           col_eq (c_perm_object_uuid table) (VStr o)])
    (row_of_permission table p)
  = bool_decide (p_group_uuid p = g ∧ p_object_uuid p = o).
Proof.
  rewrite holds_and2. unfold holds. cbn [col_eq eval row_of_permission].
  rewrite !decide_True by done. cbn [sql_eq].
  repeat case_bool_decide; simplify_eq; try done; naive_solver.
Qed.

Lemma set_permission_rows_rows table l db :
  permission_rows (set_permission_rows table l db) table = l
  ∧ group (set_permission_rows table l db) = group db
  ∧ user_group (set_permission_rows table l db) = user_group db.
Proof. by destruct table. Qed.

Lemma set_permission_rows_other table table' l db :
  table' ≠ table →
  permission_rows (set_permission_rows table l db) table'
  = permission_rows db table'.
Proof. by destruct table, table'. Qed.

Lemma add_permission_run table g o permission db :
  add_permission table g o permission db
  = (Return (mk_permission g o permission),
     set_permission_rows table
       (permission_rows db table ++ [mk_permission g o permission]) db).
Proof. done. Qed.

Lemma delete_permission_run table g o db :
  delete_permission table g o db
  = (Return tt,
     set_permission_rows table
       (filter (fun p => ¬ (p_group_uuid p = g ∧ p_object_uuid p = o))
               (permission_rows db table)) db).
Proof.
  unfold delete_permission, transaction, bind.
  destruct table; cbn [permission_table delete_from];
    unfold delete_group_bundle_permission, delete_group_worksheet_permission,
      ret; cbn [set_permission_rows permission_rows];
    do 2 f_equal; apply list_filter_iff; intros p; rewrite negb_True.
  - rewrite (holds_pair db of_bundle). by rewrite bool_decide_spec.
  - rewrite (holds_pair db of_worksheet). by rewrite bool_decide_spec.
Qed.

Lemma update_permission_run table g o permission db :
  update_permission table g o permission db
  = (Return tt,
     set_permission_rows table
       ((fun p => if bool_decide (p_group_uuid p = g ∧ p_object_uuid p = o)
                  then mk_permission g o permission else p)
        <$> permission_rows db table) db).
Proof.
  unfold update_permission, transaction, bind, update_permission_where, ret.
  do 2 f_equal. apply list_fmap_ext. intros i p _. rewrite holds_pair.
  case_bool_decide as Hp; [|done]. by destruct Hp as [-> ->].
Qed.

(** The rows that [batch_get_group_permissions] reads for one object. *)
Lemma get_group_permissions_entries db table o :
  get_group_permissions db table o
  = entries_for o
      (filter (fun '(p, g) => p_group_uuid p = g_uuid g)
              (p ← permission_rows db table; g ← group db; [(p, g)])).
Proof.
  unfold get_group_permissions, batch_get_group_permissions.
  rewrite lookup_foldl_append_permission, lookup_empty.
  set (rows := filter _ _).
  set (rows' := filter _ _).
  assert (entries_for o rows = entries_for o rows') as ->.
  { unfold entries_for, rows, rows'. f_equal. rewrite !list_filter_filter.
    apply list_filter_iff. intros [p g]. rewrite holds_permission_join.
    rewrite list_elem_of_singleton. naive_solver. }
  by destruct (entries_for o rows').
Qed.

Lemma first_permission_block g gu lv (block rest : list group_permission) :
  (∀ e, e ∈ block → gp_group_uuid e = gu ∧ gp_permission e = lv) →
  first_permission g (block ++ rest)
  = if bool_decide (block ≠ [] ∧ gu = g) then lv
    else first_permission g rest.
Proof.
  induction block as [|e block IH]; intros Hall.
  - rewrite bool_decide_false; [done|]. by intros [? _].
  - destruct (Hall e) as [Hu Hl]; [apply list_elem_of_here|].
    cbn [app first_permission]. rewrite Hu, Hl.
    destruct (decide (gu = g)) as [Hg|Hg].
    + by rewrite !bool_decide_true.
    + rewrite IH by (intros e' He'; apply Hall; by apply list_elem_of_further).
      rewrite !bool_decide_false; [done|..]; naive_solver.
Qed.

Lemma first_permission_rows (G : list group_row) g o (P : list permission_row) :
  first_permission g
    (entries_for o
       (filter (fun '(p, g) => p_group_uuid p = g_uuid g)
               (p ← P; g ← G; [(p, g)])))
  = if bool_decide (g ∈ g_uuid <$> G)
    then match filter (fun p => p_group_uuid p = g ∧ p_object_uuid p = o) P with
         | p :: _ => p_permission p
         | [] => GROUP_OBJECT_PERMISSION_NONE
         end
    else GROUP_OBJECT_PERMISSION_NONE.
Proof.
  induction P as [|p P IH].
  - cbn. by case_bool_decide.
  - rewrite bind_cons, filter_app. unfold entries_for in *.
    rewrite filter_app, fmap_app.
    rewrite (first_permission_block g (p_group_uuid p) (p_permission p)).
    2:{ intros e ([p' g'] & -> & Hin)%list_elem_of_fmap.
        apply list_elem_of_filter in Hin as [_ Hin].
        apply list_elem_of_filter in Hin as [_ Hin].
        apply list_elem_of_bind in Hin as (g'' & Hin & _).
        apply list_elem_of_singleton in Hin. by simplify_eq. }
    rewrite IH, filter_cons. clear IH.
    case_bool_decide as Hblock.
    + destruct Hblock as [Hne Hg].
      assert (Hmem : ∃ g', g' ∈ G ∧ p_group_uuid p = g_uuid g'
                           ∧ p_object_uuid p = o).
      { destruct (fmap _ _) as [|e l] eqn:E; [done|].
        assert (He : e ∈ e :: l) by apply list_elem_of_here.
        rewrite <- E in He.
        apply list_elem_of_fmap in He as ([p' g'] & _ & Hin).
        apply list_elem_of_filter in Hin as [Ho Hin].
        apply list_elem_of_filter in Hin as [Hj Hin].
        apply list_elem_of_bind in Hin as (g'' & Hin & Hg'').
        apply list_elem_of_singleton in Hin. simplify_eq. eauto. }
      destruct Hmem as (g' & Hg' & Hj & Ho).
      rewrite bool_decide_true.
      2:{ apply list_elem_of_fmap. exists g'. split; [congruence|done]. }
      by rewrite decide_True.
    + case_bool_decide as Hknown; [|done].
      destruct (decide (p_group_uuid p = g ∧ p_object_uuid p = o))
        as [[Hg Ho]|Hnot]; [|done].
      destruct Hblock. split; [|done].
      apply list_elem_of_fmap in Hknown as (g' & Hgu & Hg').
      assert (Hin : mk_group_permission (p_group_uuid p) (g_name g')
                      (p_permission p)
                    ∈ (fun '(p, g) =>
                         mk_group_permission (p_group_uuid p) (g_name g)
                           (p_permission p))
                      <$> filter (fun '(p, g) => p_object_uuid p = o)
                            (filter (fun '(p, g) => p_group_uuid p = g_uuid g)
                               (g ← G; [(p, g)]))).
      { apply list_elem_of_fmap. exists (p, g'). split; [done|].
        apply list_elem_of_filter. split; [done|].
        apply list_elem_of_filter. split; [congruence|].
        apply list_elem_of_bind. exists g'.
        split; [apply list_elem_of_here|done]. }
      intros Heq. rewrite Heq in Hin. by apply elem_of_nil in Hin.
Qed.

Lemma get_group_permission_rows db table g o :
  get_group_permission db table g o
  = if bool_decide (g ∈ g_uuid <$> group db)
    then match pair_rows db table g o with
         | p :: _ => p_permission p
         | [] => GROUP_OBJECT_PERMISSION_NONE
         end
    else GROUP_OBJECT_PERMISSION_NONE.
Proof.
  unfold get_group_permission. rewrite get_group_permissions_entries.
  apply first_permission_rows.
Qed.

(** X11. [get_group_permission] returns the permission of the first row of
    the pair of the group and the object when the group is in the group
    table, and NONE when the pair has no row or the group is not there. *)
Theorem get_group_permission_first_row db table group_uuid object_uuid :
  (known_group db group_uuid →
     get_group_permission db table group_uuid object_uuid
     = match pair_rows db table group_uuid object_uuid with
       | p :: _ => p_permission p
       | [] => GROUP_OBJECT_PERMISSION_NONE
       end)
  ∧ (¬ known_group db group_uuid →
     get_group_permission db table group_uuid object_uuid
     = GROUP_OBJECT_PERMISSION_NONE).
Proof.
  rewrite get_group_permission_rows. unfold known_group. split; intros Hk.
  - rewrite bool_decide_true; [done|].
    destruct Hk as (r & Hr & <-). apply list_elem_of_fmap. eauto.
  - rewrite bool_decide_false; [done|].
    intros (r & -> & Hr)%list_elem_of_fmap. apply Hk. eauto.
Qed.

Lemma get_group_permission_same db db' table g o :
  group db' = group db →
  pair_rows db' table g o = pair_rows db table g o →
  get_group_permission db' table g o = get_group_permission db table g o.
Proof. intros Hg Hp. by rewrite !get_group_permission_rows, Hg, Hp. Qed.

Lemma pair_rows_other table table' l db g o :
  table' ≠ table →
  pair_rows (set_permission_rows table l db) table' g o
  = pair_rows db table' g o.
Proof. intros Hne. unfold pair_rows. by rewrite set_permission_rows_other. Qed.

Lemma pair_rows_set table l db g o :
  pair_rows (set_permission_rows table l db) table g o
  = filter (fun p => p_group_uuid p = g ∧ p_object_uuid p = o) l.
Proof. unfold pair_rows. by destruct table. Qed.

Lemma known_group_elem db g : known_group db g ↔ g ∈ g_uuid <$> group db.
Proof.
  unfold known_group. rewrite list_elem_of_fmap. naive_solver.
Qed.

(** X12. After [add_permission] for a group of the group table,
    [get_group_permission] returns the permission added when the pair had
    no row, and what it returned before when the pair had one: the first
    row of a pair decides.  The permissions of the other pairs are as they
    were. *)
Theorem add_permission_then_get db table group_uuid object_uuid permission
    row db' :
  add_permission table group_uuid object_uuid permission db
  = (Return row, db') →
  known_group db group_uuid →
  get_group_permission db' table group_uuid object_uuid
  = (if decide (pair_rows db table group_uuid object_uuid = [])
     then permission
     else get_group_permission db table group_uuid object_uuid)
  ∧ ∀ table' g o, (table', g, o) ≠ (table, group_uuid, object_uuid) →
      get_group_permission db' table' g o = get_group_permission db table' g o.
Proof.
  rewrite add_permission_run. intros [= <- <-] Hk. split.
  - rewrite !get_group_permission_rows.
    destruct (set_permission_rows_rows table
                (permission_rows db table
                 ++ [mk_permission group_uuid object_uuid permission]) db)
      as (_ & -> & _).
    rewrite bool_decide_true by by apply known_group_elem.
    rewrite pair_rows_set, filter_app, filter_cons, filter_nil.
    rewrite decide_True by done. fold (pair_rows db table group_uuid object_uuid).
    by destruct (pair_rows db table group_uuid object_uuid).
  - intros table' g o Hne. apply get_group_permission_same.
    + by destruct table.
    + destruct (decide (table' = table)) as [->|Ht].
      * rewrite pair_rows_set, filter_app, filter_cons, filter_nil.
        rewrite decide_False by (cbn; naive_solver).
        by rewrite app_nil_r.
      * by apply pair_rows_other.
Qed.

(** X13. After [delete_permission], which always succeeds,
    [get_group_permission] returns NONE for the pair; the permissions of
    the other pairs are as they were. *)
Theorem delete_permission_then_get db table group_uuid object_uuid :
  ∃ db',
    delete_permission table group_uuid object_uuid db = (Return tt, db')
    ∧ get_group_permission db' table group_uuid object_uuid
      = GROUP_OBJECT_PERMISSION_NONE
    ∧ ∀ table' g o, (table', g, o) ≠ (table, group_uuid, object_uuid) →
        get_group_permission db' table' g o
        = get_group_permission db table' g o.
Proof.
  rewrite delete_permission_run. eexists. split; [done|]. split.
  - rewrite get_group_permission_rows, pair_rows_set, list_filter_filter.
    rewrite (filter_none
               (fun a => (p_group_uuid a = group_uuid
                          ∧ p_object_uuid a = object_uuid)
                         ∧ ¬ (p_group_uuid a = group_uuid
                              ∧ p_object_uuid a = object_uuid)))
      by (intros p _ Hp; tauto).
    by case_bool_decide.
  - intros table' g o Hne. apply get_group_permission_same.
    + by destruct table.
    + destruct (decide (table' = table)) as [->|Ht].
      * rewrite pair_rows_set, list_filter_filter. apply list_filter_iff.
        intros p. naive_solver.
      * by apply pair_rows_other.
Qed.

Lemma filter_fmap_fixed {A} (P : A → Prop) `{∀ x, Decision (P x)}
    (f : A → A) (l : list A) :
  (∀ x, P (f x) ↔ P x) → (∀ x, P x → f x = x) →
  filter P (f <$> l) = filter P l.
Proof.
  intros Hiff Hfix. induction l as [|x l IH]; [done|].
  rewrite fmap_cons, !filter_cons, IH.
  destruct (decide (P x)) as [Hx|Hx].
  - rewrite decide_True by by apply Hiff. by rewrite Hfix.
  - rewrite decide_False; [done|]. by rewrite Hiff.
Qed.

Lemma filter_fmap_const {A} (P : A → Prop) `{∀ x, Decision (P x)}
    (f : A → A) (a : A) (l : list A) :
  P a → (∀ x, P x → f x = a) → (∀ x, ¬ P x → f x = x) →
  filter P (f <$> l) = (fun _ => a) <$> filter P l.
Proof.
  intros Ha Hhit Hmiss. induction l as [|x l IH]; [done|].
  rewrite fmap_cons, !filter_cons, IH.
  destruct (decide (P x)) as [Hx|Hx].
  - rewrite Hhit by done. by rewrite decide_True.
  - rewrite Hmiss by done. by rewrite decide_False.
Qed.

(** X14. After [update_permission], which always succeeds,
    [get_group_permission] returns the new permission for a pair that had
    a row and whose group is in the group table; a pair without a row gets
    none and the database is unchanged; the permissions of the other pairs
    are as they were. *)
Theorem update_permission_then_get db table group_uuid object_uuid
    permission :
  ∃ db',
    update_permission table group_uuid object_uuid permission db
    = (Return tt, db')
    ∧ (known_group db group_uuid →
       pair_rows db table group_uuid object_uuid ≠ [] →
       get_group_permission db' table group_uuid object_uuid = permission)
    ∧ (pair_rows db table group_uuid object_uuid = [] → db' = db)
    ∧ ∀ table' g o, (table', g, o) ≠ (table, group_uuid, object_uuid) →
        get_group_permission db' table' g o
        = get_group_permission db table' g o.
Proof.
  rewrite update_permission_run. eexists. split; [done|].
  split; [|split].
  - intros Hk Hne. rewrite get_group_permission_rows.
    destruct (set_permission_rows_rows table
                ((fun p => if bool_decide (p_group_uuid p = group_uuid
                                           ∧ p_object_uuid p = object_uuid)
                           then mk_permission group_uuid object_uuid permission
                           else p) <$> permission_rows db table) db)
      as (_ & -> & _).
    rewrite bool_decide_true by by apply known_group_elem.
    rewrite pair_rows_set.
    rewrite (filter_fmap_const _ _
               (mk_permission group_uuid object_uuid permission)).
    + fold (pair_rows db table group_uuid object_uuid).
      by destruct (pair_rows db table group_uuid object_uuid).
    + done.
    + intros p Hp. by rewrite bool_decide_true.
    + intros p Hp. by rewrite bool_decide_false.
  - intros Hnone.
    assert (Hid : (fun p => if bool_decide (p_group_uuid p = group_uuid
                                            ∧ p_object_uuid p = object_uuid)
                            then mk_permission group_uuid object_uuid permission
                            else p) <$> permission_rows db table
                  = permission_rows db table).
    { rewrite <- (list_fmap_id (permission_rows db table)) at 2.
      apply list_fmap_ext. intros i p Hp%list_elem_of_lookup_2. cbn.
      case_bool_decide as Hhit; [|done].
      assert (Hin : p ∈ pair_rows db table group_uuid object_uuid)
        by by apply list_elem_of_filter.
      rewrite Hnone in Hin. by apply elem_of_nil in Hin. }
    rewrite Hid. by destruct db, table.
  - intros table' g o Hne. apply get_group_permission_same.
    + by destruct table.
    + destruct (decide (table' = table)) as [->|Ht].
      * rewrite pair_rows_set. apply filter_fmap_fixed.
        -- intros p. case_bool_decide as Hhit; [|done]. cbn. naive_solver.
        -- intros p Hp. rewrite bool_decide_false; [done|]. naive_solver.
      * by apply pair_rows_other.
Qed.

(** X15. Adding a permission row lowers no one's permissions: after
    [add_permission], [get_user_permissions] gives every object a level at
    least as high as before, for every principal. *)
Theorem add_permission_never_lowers self db table group_uuid object_uuid
    permission row db' table' user_id (object_uuids : list string)
    owner_ids :
  add_permission table group_uuid object_uuid permission db
  = (Return row, db') →
  ∃ m m',
    get_user_permissions self db table' user_id object_uuids owner_ids
    = Return m
    ∧ get_user_permissions self db' table' user_id object_uuids owner_ids
      = Return m'
    ∧ ∀ o v, m !! o = Some v → ∃ v', m' !! o = Some v' ∧ v ≤ v'.
Proof.
  rewrite add_permission_run. intros [= <- <-].
  set (db' := set_permission_rows table _ db).
  destruct (get_user_permissions_spec self db table' user_id object_uuids
              owner_ids) as (m & Hm & Hdom & Hpriv & Hrest).
  destruct (get_user_permissions_spec self db' table' user_id object_uuids
              owner_ids) as (m' & Hm' & Hdom' & Hpriv' & Hrest').
  exists m, m'. split; [done|]. split; [done|]. intros o v Hv.
  assert (Ho : o ∈ object_uuids) by (apply Hdom; eauto).
  assert (Hdec : privileged self user_id owner_ids o
                 ∨ ¬ privileged self user_id owner_ids o).
  { unfold privileged.
    destruct (decide (user_id = recorded_owner owner_ids o)); [tauto|].
    destruct (decide (user_id = root_user_id self)); tauto. }
  destruct Hdec as [Hp|Hp].
  - rewrite (Hpriv o Ho Hp) in Hv. rewrite (Hpriv' o Ho Hp).
    simplify_eq. eexists. split; [done|lia].
  - destruct (Hrest o Ho Hp) as (v0 & Hv0 & [Hv1|Hv1] & Hfloor & Hub);
      destruct (Hrest' o Ho Hp) as (v' & Hv' & _ & Hfloor' & Hub');
      simplify_eq; exists v'; (split; [done|]); [done|].
    apply Hub'. destruct Hv1 as (p & Hin & Hpo & Hmem & Hkn & Hlv).
    exists p. split; [|split; [done|split; [|split; [|done]]]].
    + unfold db'. destruct (decide (table' = table)) as [->|Ht].
      * destruct (set_permission_rows_rows table
                    (permission_rows db table
                     ++ [mk_permission group_uuid object_uuid permission]) db)
          as (-> & _). apply elem_of_app. by left.
      * by rewrite set_permission_rows_other.
    + unfold member in *. by destruct table.
    + unfold known_group in *. by destruct table.
Qed.

End MorePermissions.

(** *** Groups and memberships *)
Section MoreGroups.
Context `{StorageEngine} `{PermissionLevels}.

Lemma holds_membership db (user_id : option string) g r :
  holds db [t_user_group]
    (CAnd [col_eq c_ug_user_id (opt_str user_id);
           col_eq c_ug_group_uuid (VStr g)])
    (row_of_user_group r)
  = bool_decide (user_id = Some (ug_user_id r) ∧ ug_group_uuid r = g).
Proof.
  rewrite holds_and2. unfold holds.
  destruct user_id as [u|]; cbn [opt_str col_eq eval row_of_user_group sql_eq];
    repeat case_bool_decide; simplify_eq; try done; naive_solver.
Qed.

Lemma holds_group_column db t (c : column) uuid (env : row) x :
  env c = VStr x →
  holds db [t] (col_eq c (VStr uuid)) env = bool_decide (x = uuid).
Proof.
  intros Hc. unfold holds. cbn [col_eq eval]. rewrite Hc. cbn [sql_eq].
  repeat case_bool_decide; simplify_eq; done.
Qed.

Lemma delete_group_run uuid db :
  delete_group uuid db = (Return tt, without_group uuid db).
Proof.
  unfold delete_group, transaction.
  cbn [delete_group_statements execute_all delete_from]. unfold bind.
  unfold delete_group_bundle_permission, delete_group_worksheet_permission,
    delete_user_group, BundleModel.delete_group, ret, without_group,
    set_group_bundle_permission, set_group_worksheet_permission,
    set_user_group, set_group.
  cbn [bundle bundle_dependency bundle_metadata
       worksheet_item next_item_id group user_group group_bundle_permission
       group_worksheet_permission].
  f_equal. f_equal; apply list_filter_iff; intros x; rewrite negb_True.
  - rewrite (holds_group_column _ _ _ _ _ (g_uuid x)) by done.
    by rewrite bool_decide_spec.
  - rewrite (holds_group_column _ _ _ _ _ (ug_group_uuid x)) by done.
    by rewrite bool_decide_spec.
  - rewrite (holds_group_column _ _ _ _ _ (p_group_uuid x)) by done.
    by rewrite bool_decide_spec.
  - rewrite (holds_group_column _ _ _ _ _ (p_group_uuid x)) by done.
    by rewrite bool_decide_spec.
Qed.

Lemma get_user_groups_unfold self db u :
  _get_user_groups self db (Some u)
  = public_group_uuid self :: (ug_group_uuid <$> memberships db u).
Proof.
  unfold _get_user_groups, batch_get_user_in_group, memberships. cbn [app].
  do 2 f_equal. apply list_filter_iff. intros r. apply holds_user_id.
Qed.

Lemma holds_group_uuid db uuid r :
  holds db [t_user_group]
    (make_kwargs_clause [(c_ug_group_uuid, PyScalar (VStr uuid))])
    (row_of_user_group r)
  ↔ ug_group_uuid r = uuid.
Proof.
  unfold holds. rewrite bool_decide_spec. simpl.
  destruct (decide (ug_group_uuid r = uuid)) as [Heq|Hne].
  - by rewrite bool_decide_true.
  - by rewrite bool_decide_false.
Qed.

(** X16. [delete_group] always succeeds; afterwards the group is not in
    the group table, it has permission NONE on every object, it has no
    member, and no principal is in it unless it is the public group, which
    everyone is in; the permissions and the members of the other groups
    are as they were. *)
Theorem delete_group_forgets self db uuid :
  ∃ db',
    delete_group uuid db = (Return tt, db')
    ∧ ¬ known_group db' uuid
    ∧ (∀ table o,
         get_group_permission db' table uuid o = GROUP_OBJECT_PERMISSION_NONE)
    ∧ batch_get_user_in_group db' [(c_ug_group_uuid, PyScalar (VStr uuid))]
      = []
    ∧ (∀ table g o, g ≠ uuid →
         get_group_permission db' table g o
         = get_group_permission db table g o)
    ∧ (∀ user_id g,
         g ∈ _get_user_groups self db' user_id
         ↔ g ∈ _get_user_groups self db user_id
           ∧ (g = uuid → g = public_group_uuid self)).
Proof.
  exists (without_group uuid db). split; [apply delete_group_run|].
  assert (Hknown : ¬ known_group (without_group uuid db) uuid).
  { intros (r & Hr & Hu). by apply list_elem_of_filter in Hr as [Hne _]. }
  split; [done|]. split; [|split; [|split]].
  - intros table o. rewrite get_group_permission_rows.
    rewrite bool_decide_false; [done|]. by rewrite <- known_group_elem.
  - unfold batch_get_user_in_group. apply filter_none.
    intros r Hr Hh%holds_group_uuid.
    by apply list_elem_of_filter in Hr as [Hne _].
  - intros table g o Hg. rewrite !get_group_permission_rows.
    assert (Hpairs : pair_rows (without_group uuid db) table g o
                     = pair_rows db table g o).
    { unfold pair_rows. destruct table; cbn [permission_rows without_group
        group_bundle_permission group_worksheet_permission];
        apply filter_filter_out; intros p [Hp _]; congruence. }
    rewrite Hpairs.
    assert (Hsame : bool_decide (g ∈ g_uuid <$> group (without_group uuid db))
                    = bool_decide (g ∈ g_uuid <$> group db)).
    { apply bool_decide_ext.
      rewrite !list_elem_of_fmap. cbn [without_group group].
      split; intros (r & -> & Hr); exists r; (split; [done|]).
      + by apply list_elem_of_filter in Hr as [_ Hr].
      + by apply list_elem_of_filter. }
    by rewrite Hsame.
  - intros user_id g. rewrite !elem_of_get_user_groups. unfold member.
    cbn [without_group user_group]. split.
    + intros [->|(r & Hr & Hu & Hg)]; [by split; [left|]|].
      apply list_elem_of_filter in Hr as [Hne Hr]. split; [|congruence].
      right. eauto.
    + intros [[->|(r & Hr & Hu & Hg)] Himp]; [by left|].
      destruct (decide (g = uuid)) as [Heq|Hne]; [left; by apply Himp|].
      right. exists r. split; [|done]. apply list_elem_of_filter.
      split; [congruence|done].
Qed.

(** X17. After [add_user_in_group], which always succeeds,
    [_get_user_groups] lists the group for the user, after the groups it
    listed before; the groups of the other principals are as they were. *)
Theorem add_user_in_group_then_groups self db user_id group_uuid is_admin
    row db' :
  add_user_in_group user_id group_uuid is_admin db = (Return row, db') →
  row = mk_user_group group_uuid user_id is_admin
  ∧ _get_user_groups self db' (Some user_id)
    = _get_user_groups self db (Some user_id) ++ [group_uuid]
  ∧ ∀ other, other ≠ Some user_id →
      _get_user_groups self db' other = _get_user_groups self db other.
Proof.
  intros [= <- <-]. split; [done|]. split.
  - rewrite !get_user_groups_unfold. unfold memberships.
    cbn [set_user_group user_group]. rewrite filter_app, fmap_app.
    rewrite filter_cons, filter_nil. cbn [ug_user_id].
    by rewrite decide_True.
  - intros [u|] Hne; [|done]. rewrite !get_user_groups_unfold.
    unfold memberships. cbn [set_user_group user_group].
    rewrite filter_app, filter_cons, filter_nil. cbn [ug_user_id].
    rewrite decide_False by congruence. by rewrite app_nil_r.
Qed.

(** X18. A member of a group has at least the permission of the group:
    on an object that the principal neither owns nor is root for,
    [get_user_permissions] gives a level at least the one that
    [get_group_permission] gives to any group the principal is in. *)
Theorem member_has_group_permission self db table user_id
    (object_uuids : list string) owner_ids group_uuid o :
  group_uuid ∈ _get_user_groups self db user_id →
  o ∈ object_uuids →
  ¬ privileged self user_id owner_ids o →
  ∃ m v,
    get_user_permissions self db table user_id object_uuids owner_ids
    = Return m
    ∧ m !! o = Some v
    ∧ get_group_permission db table group_uuid o ≤ v.
Proof.
  intros Hmem%elem_of_get_user_groups Ho Hp.
  destruct (get_user_permissions_spec self db table user_id object_uuids
              owner_ids) as (m & Hm & _ & _ & Hrest).
  destruct (Hrest o Ho Hp) as (v & Hv & _ & Hfloor & Hub).
  exists m, v. split; [done|]. split; [done|].
  rewrite get_group_permission_rows.
  case_bool_decide as Hk; [|done].
  destruct (pair_rows db table group_uuid o) as [|p ps] eqn:E; [done|].
  assert (Hin : p ∈ pair_rows db table group_uuid o)
    by (rewrite E; apply list_elem_of_here).
  apply list_elem_of_filter in Hin as [[Hg Hpo] Hin].
  apply Hub. exists p. rewrite Hg.
  split; [done|]. split; [done|]. split; [done|]. split; [|done].
  by apply known_group_elem.
Qed.

(** X19. After [delete_user_in_group], which always succeeds,
    [_get_user_groups] lists for the user the public group and the groups
    of its other membership rows; the groups of the other principals are as
    they were, and for the anonymous principal nothing is deleted. *)
Theorem delete_user_in_group_then_groups self db user_id group_uuid :
  ∃ db',
    delete_user_in_group user_id group_uuid db = (Return tt, db')
    ∧ (∀ u, user_id = Some u →
         _get_user_groups self db' (Some u)
         = public_group_uuid self
           :: filter (fun g => g ≠ group_uuid)
                     (ug_group_uuid <$> memberships db u))
    ∧ (∀ other, other ≠ user_id →
         _get_user_groups self db' other = _get_user_groups self db other)
    ∧ (user_id = None → db' = db).
Proof.
  assert (Hrun : delete_user_in_group user_id group_uuid db
    = (Return tt,
       set_user_group
         (filter (fun r => ¬ (user_id = Some (ug_user_id r)
                              ∧ ug_group_uuid r = group_uuid))
                 (user_group db)) db)).
  { unfold delete_user_in_group, transaction, bind. cbn [delete_from].
    unfold delete_user_group, ret. do 2 f_equal.
    apply list_filter_iff. intros r. rewrite negb_True, holds_membership.
    by rewrite bool_decide_spec. }
  rewrite Hrun. eexists. split; [done|]. split; [|split].
  - intros u ->. rewrite get_user_groups_unfold. f_equal.
    unfold memberships. cbn [set_user_group user_group].
    rewrite filter_fmap_comm, !list_filter_filter. f_equal.
    apply list_filter_iff. intros r. split.
    + intros [Hu Hnot]. split; [|done]. intros Hg. apply Hnot.
      split; congruence.
    + intros [Hg Hu]. split; [done|]. by intros [_ Hg'].
  - intros [u|] Hne; [|done]. rewrite !get_user_groups_unfold. f_equal.
    unfold memberships. cbn [set_user_group user_group].
    f_equal. apply filter_filter_out. intros r Hr [Heq _]. congruence.
  - intros ->. rewrite filter_none_all; [by destruct db|].
    intros r _ [Hr _]. done.
Qed.

Lemma batch_get_group_permissions_ext db db' table (objs : list string) :
  permission_rows db' table = permission_rows db table →
  group db' = group db →
  batch_get_group_permissions db' table objs
  = batch_get_group_permissions db table objs.
Proof.
  intros Hp Hg. unfold batch_get_group_permissions. by rewrite Hp, Hg.
Qed.

Lemma get_user_permissions_ext self db db' table user_id
    (objs : list string) owner_ids :
  permission_rows db' table = permission_rows db table →
  group db' = group db →
  _get_user_groups self db' user_id = _get_user_groups self db user_id →
  get_user_permissions self db' table user_id objs owner_ids
  = get_user_permissions self db table user_id objs owner_ids.
Proof.
  intros Hp Hg Hu. unfold get_user_permissions.
  destruct (foldl _ _ objs) as [object_permissions remaining].
  destruct remaining as [|o remaining]; [done|].
  by rewrite (batch_get_group_permissions_ext db db'), Hu.
Qed.

(** X20. [update_user_in_group], which always succeeds, changes the admin
    flag of the membership rows of the user in the group and nothing else:
    every principal is in the groups it was in and has the permissions it
    had. *)
Theorem update_user_in_group_keeps_access self db user_id group_uuid
    is_admin :
  ∃ db',
    update_user_in_group user_id group_uuid is_admin db = (Return tt, db')
    ∧ user_group db'
      = (fun r => if bool_decide (user_id = Some (ug_user_id r)
                                  ∧ ug_group_uuid r = group_uuid)
                  then mk_user_group (ug_group_uuid r) (ug_user_id r) is_admin
                  else r) <$> user_group db
    ∧ (∀ principal,
         _get_user_groups self db' principal
         = _get_user_groups self db principal)
    ∧ (∀ table principal (object_uuids : list string) owner_ids,
         get_user_permissions self db' table principal object_uuids owner_ids
         = get_user_permissions self db table principal object_uuids
             owner_ids).
Proof.
  set (f := fun r => if bool_decide (user_id = Some (ug_user_id r)
                                     ∧ ug_group_uuid r = group_uuid)
                     then mk_user_group (ug_group_uuid r) (ug_user_id r)
                            is_admin
                     else r).
  assert (Hrun : update_user_in_group user_id group_uuid is_admin db
                 = (Return tt, set_user_group (f <$> user_group db) db)).
  { unfold update_user_in_group, transaction, bind, update_user_group_where,
      ret. do 2 f_equal. apply list_fmap_ext. intros i r _.
    by rewrite holds_membership. }
  assert (Hf : ∀ r, ug_user_id (f r) = ug_user_id r
                    ∧ ug_group_uuid (f r) = ug_group_uuid r).
  { intros r. unfold f. by case_bool_decide. }
  assert (Hgroups : ∀ principal,
    _get_user_groups self (set_user_group (f <$> user_group db) db) principal
    = _get_user_groups self db principal).
  { intros [u|]; [|done]. rewrite !get_user_groups_unfold. f_equal.
    unfold memberships. cbn [set_user_group user_group].
    rewrite filter_fmap_comm, <- list_fmap_compose.
    rewrite (list_filter_iff _ (fun r => ug_user_id r = u))
      by (intros r; by rewrite (proj1 (Hf r))).
    apply list_fmap_ext. intros i r _. cbn. apply Hf. }
  rewrite Hrun. eexists. split; [done|]. split; [done|]. split; [done|].
  intros table principal object_uuids owner_ids.
  apply get_user_permissions_ext; [by destruct table|done|apply Hgroups].
Qed.

End MoreGroups.

(** *** Clauses from keyword arguments *)
Section MoreClauses.
Context `{StorageEngine} `{BundleDomain}.




Lemma holds_empty_collection db (kwargs : list (column * value)) key value
    outer env :
  (key, value) ∈ kwargs → empty_collection value →
  holds db outer (make_kwargs_clause kwargs) env = false.
Proof.
  intros Hin Hempty. unfold holds. apply bool_decide_eq_false.
  rewrite make_kwargs_clause_unfold.
  rewrite (eval_and_false db outer env _ (make_clause key value));
    [done| |by destruct Hempty as [->|[->| ->]]].
  apply list_elem_of_further, list_elem_of_fmap. by exists (key, value).
Qed.

(** X30. With an empty list, set or tuple for one of the columns,
    [batch_get_bundles], for keyword arguments that name columns of the
    bundle table, returns no bundle, and [batch_get_user_in_group], for
    keyword arguments that name columns of the membership table, returns no
    membership, without raising, whatever the other keyword arguments
    are. *)
Theorem batch_get_bundles_empty_collection db :
  (∀ kwargs key value,
     columns_of t_bundle kwargs →
     (key, value) ∈ kwargs → empty_collection value →
     batch_get_bundles db kwargs = Return [])
  ∧ (∀ kwargs key value,
       columns_of t_user_group kwargs →
       (key, value) ∈ kwargs → empty_collection value →
       batch_get_user_in_group db kwargs = []).
Proof.
  split; intros kwargs key value _ Hin Hempty.
  - unfold batch_get_bundles. cbn zeta.
    rewrite (filter_none
               (fun b => Is_true (holds db [t_bundle]
                                    (make_kwargs_clause kwargs)
                                    (row_of_bundle b)))); [done|].
    intros b _. rewrite (holds_empty_collection db kwargs key value) by done.
    by intros [].
  - unfold batch_get_user_in_group. apply filter_none.
    intros r _. rewrite (holds_empty_collection db kwargs key value) by done.
    by intros [].
Qed.

End MoreClauses.

(** *** Search *)
Section MoreSearch.
Context `{StorageEngine} `{PermissionLevels}.

Lemma make_condition_limit p field value :
  limit (make_condition p field value).1 = limit p
  ∧ count (make_condition p field value).1 = count p.
Proof. unfold make_condition. by repeat case_bool_decide; try case_match. Qed.

Lemma shortcuts_limit key : key ≠ ".limit" → shortcuts key ≠ ".limit".
Proof. unfold shortcuts. by repeat case_bool_decide. Qed.

(** A keyword that is not [.limit=...] leaves the limit as it is, or asks
    for the count. *)
Lemma search_keyword_limit p keyword p' :
  (∀ key value,
     CONDITION_REGEX_match (replace_dot_star keyword) = Some (key, value) →
     key ≠ ".limit") →
  search_keyword (Return p) keyword = Return p' →
  (limit p' = limit p ∧ count p' = count p) ∨ count p' = true.
Proof.
  intros Hkey. unfold search_keyword.
  destruct (CONDITION_REGEX_match (replace_dot_star keyword))
    as [[key value]|].
  - specialize (Hkey key value eq_refl). apply shortcuts_limit in Hkey.
    unfold search_condition.
    destruct (bundle_field (shortcuts key)) as [field|].
    + pose proof (make_condition_limit p field value) as Hl.
      destruct (make_condition p field value) as [p1 cl].
      intros [= <-]. by left.
    + repeat case_bool_decide; try done;
        repeat match goal with
        | |- context [make_condition p ?f value] =>
            pose proof (make_condition_limit p f value);
            destruct (make_condition p f value)
        end;
        try (intros [= <-]; by left).
      all: destruct (String.prefix _ _); try destruct (python_int value);
        try done; intros [= <-]; by left.
  - repeat case_bool_decide; intros [= <-]; [by right|by left|by left].
Qed.

Lemma foldl_search_keyword_raise e (keywords : list string) :
  foldl search_keyword (Raise e) keywords = Raise e.
Proof. by induction keywords. Qed.

Lemma foldl_search_keyword_limit (keywords : list string) :
  ∀ p p',
  (∀ keyword key value, keyword ∈ keywords →
     CONDITION_REGEX_match (replace_dot_star keyword) = Some (key, value) →
     key ≠ ".limit") →
  foldl search_keyword (Return p) keywords = Return p' →
  (limit p' = limit p ∧ count p' = count p) ∨ count p' = true.
Proof.
  induction keywords as [|k keywords IH]; intros p p' Hkeys; cbn [foldl].
  - intros [= <-]. by left.
  - destruct (search_keyword (Return p) k) as [p1|e] eqn:Hstep.
    2:{ by rewrite foldl_search_keyword_raise. }
    intros Hrest.
    apply search_keyword_limit in Hstep.
    2:{ intros key value. apply Hkeys, list_elem_of_here. }
    apply IH in Hrest.
    2:{ intros keyword key value Hin. apply Hkeys.
        by apply list_elem_of_further. }
    destruct Hrest as [[Hl Hc]|Hc]; [|by right].
    destruct Hstep as [[Hl1 Hc1]|Hc1].
    + left. split; congruence.
    + right. congruence.
Qed.

(** X22. Without a keyword [.limit=...], [search_bundle_uuids] returns at
    most ten uuids, and it never returns a uuid twice. *)
Theorem search_bundle_uuids_default_limit self db user_id worksheet_uuid
    (keywords : list string) (l : list val) :
  (∀ keyword key value, keyword ∈ keywords →
     CONDITION_REGEX_match (replace_dot_star keyword) = Some (key, value) →
     key ≠ ".limit") →
  search_bundle_uuids self db user_id worksheet_uuid keywords
  = Return (Uuids l) →
  NoDup l ∧ (length l ≤ 10)%nat.
Proof.
  intros Hkeys Hrun. unfold search_bundle_uuids in Hrun.
  destruct (foldl search_keyword _ keywords) as [p|] eqn:Hfold; [|done].
  apply foldl_search_keyword_limit in Hfold; [|done].
  destruct (sum_key p).
  { destruct (select_where _ _ _); [|done].
    destruct (window _ _ _) as [result|]; [|done].
    by destruct (if count p then _ else _). }
  destruct (select_where _ _ _) as [rows|]; [|done].
  destruct (window _ _ _) as [result|] eqn:Hwin; [|done].
  destruct (count p) eqn:Hcount; [done|]. injection Hrun as ->.
  destruct Hfold as [[Hlimit _]|?]; [|done]. cbn in Hlimit.
  unfold window in Hwin. rewrite Hlimit in Hwin.
  case_bool_decide; [done|]. cbn in Hwin. injection Hwin as <-.
  split.
  - eapply sublist_NoDup; [apply NoDup_remove_dups|].
    etrans; [apply sublist_take|apply sublist_drop].
  - rewrite length_take. lia.
Qed.

Lemma python_int_raise value e :
  python_int value = Raise e →
  e = ValueError "invalid literal for int() with base 10".
Proof. unfold python_int. case_match; congruence. Qed.

(** Every error of the loop over the keywords is the [ValueError] of
    [int]. *)
Lemma search_keyword_raise acc keyword e :
  search_keyword acc keyword = Raise e →
  acc = Raise e ∨ e = ValueError "invalid literal for int() with base 10".
Proof.
  destruct acc as [p|e0]; [|intros [= ->]; by left]. intros Hstep. right.
  unfold search_keyword in Hstep.
  destruct (CONDITION_REGEX_match (replace_dot_star keyword))
    as [[key value]|].
  - unfold search_condition in Hstep.
    destruct (bundle_field (shortcuts key)).
    + by destruct (make_condition p _ value).
    + pose proof (python_int_raise value) as Hint.

      repeat case_bool_decide;
        repeat match goal with
        | H : context [make_condition p ?f value] |- _ =>
            destruct (make_condition p f value)
        end; try done;
        destruct (String.prefix _ _); try done;
        destruct (python_int value) eqn:E; try done;
        injection Hstep as <-; by apply Hint.
  - by repeat case_bool_decide.
Qed.

Lemma foldl_search_keyword_error (keywords : list string) :
  ∀ acc e,
  foldl search_keyword acc keywords = Raise e →
  acc = Raise e ∨ e = ValueError "invalid literal for int() with base 10".
Proof.
  induction keywords as [|k keywords IH]; intros acc e; cbn [foldl].
  - intros ->. by left.
  - intros [Hacc|He]%IH; [|by right]. by apply search_keyword_raise in Hacc.
Qed.

(** X23. A keyword [.offset=...] or [.limit=...] whose value is not an
    integer makes [search_bundle_uuids] raise the [ValueError] of [int],
    whatever the other keywords are. *)
Theorem search_bundle_uuids_malformed_number self db user_id worksheet_uuid
    (keywords : list string) keyword key value :
  keyword ∈ keywords →
  CONDITION_REGEX_match (replace_dot_star keyword) = Some (key, value) →
  key = ".offset" ∨ key = ".limit" →
  (∀ z, python_int value ≠ Return z) →
  ∃ msg,
    search_bundle_uuids self db user_id worksheet_uuid keywords
    = Raise (ValueError msg).
Proof.
  intros (pre & post & ->)%list_elem_of_split Hmatch Hkey Hint.
  eexists.
  unfold search_bundle_uuids. rewrite foldl_app. cbn [foldl].
  assert (Hstep : ∃ e, search_keyword
                         (foldl search_keyword (Return initial_plan) pre)
                         keyword = Raise e).
  { destruct (foldl search_keyword _ pre) as [p|e]; [|by exists e].
    unfold search_keyword. rewrite Hmatch. unfold search_condition.
    destruct (python_int value) as [z|e] eqn:E; [by destruct (Hint z)|].
    exists e. destruct Hkey as [-> | ->].
    - change (shortcuts ".offset") with ".offset".
      change (bundle_field ".offset") with (@None column).
      done.
    - change (shortcuts ".limit") with ".limit".
      change (bundle_field ".limit") with (@None column).
      done. }
  destruct Hstep as [e He]. rewrite He, foldl_search_keyword_raise.
  apply search_keyword_raise in He as [He| ->]; [|done].
  by apply foldl_search_keyword_error in He as [?| ->].
Qed.


Lemma select_all_bundles db :
  ∃ rows,
    select_where db [t_bundle] (CAnd []) = Return rows
    ∧ rows ≡ₚ (fun b => bind_row t_bundle (row_of_bundle b) no_row)
              <$> bundle db.
Proof.
  unfold select_where. cbn [tables_of map concat app].
  change (remove_dups [t_bundle]) with [t_bundle].
  cbn [without_from existsb product rows_of].
  eexists. split; [done|]. rewrite fetch_order_perm.
  assert (Hall : ∀ l : list bundle_row,
    filter (fun e => holds db [t_bundle] (CAnd []) e)
           (r ← row_of_bundle <$> l; [bind_row t_bundle r no_row])
    = (fun b => bind_row t_bundle (row_of_bundle b) no_row) <$> l).
  { induction l as [|b bs IH]; [done|].
    rewrite fmap_cons. cbn [mbind list_bind]. rewrite !fmap_cons.
    cbn [app]. rewrite filter_cons. cbn in IH. by rewrite IH. }
  by rewrite Hall.
Qed.

(** X28. Without keywords, the root principal is subject to no access
    check: [search_bundle_uuids] returns distinct uuids of the bundle
    table, ten of them or as many as there are, and so the uuid of every
    bundle when there are at most ten. *)
Theorem search_bundle_uuids_root_default self db worksheet_uuid :
  let uuids := remove_dups ((fun b => VStr (b_uuid b)) <$> bundle db) in
  ∃ l,
    search_bundle_uuids self db (root_user_id self) worksheet_uuid []
    = Return (Uuids l)
    ∧ NoDup l
    ∧ (∀ v, v ∈ l → ∃ b, b ∈ bundle db ∧ v = VStr (b_uuid b))
    ∧ length l = (10 `min` length uuids)%nat
    ∧ ((length uuids ≤ 10)%nat → ∀ b, b ∈ bundle db → VStr (b_uuid b) ∈ l).
Proof.
  intros uuids.
  destruct (select_all_bundles db) as (rows & Hrows & Hperm).
  unfold search_bundle_uuids. cbn [foldl initial_plan clauses sum_key
    sort_key offset limit count].
  rewrite bool_decide_false by (intros Hne; by apply Hne).
  rewrite Hrows. unfold window.
  rewrite !bool_decide_false by lia.
  change (Z.to_nat 10) with 10%nat. change (Z.to_nat 0) with 0%nat.
  rewrite drop_0.
  set (found := remove_dups ((fun e : column → val => e c_bundle_uuid)
                             <$> rows)).
  assert (Hsame : found ≡ₚ uuids).
  { apply NoDup_Permutation; [apply NoDup_remove_dups..|].
    intros v. unfold found, uuids. rewrite !elem_of_remove_dups, Hperm.
    by rewrite <- list_fmap_compose. }
  eexists. split; [done|]. split; [|split; [|split]].
  - eapply sublist_NoDup; [apply NoDup_remove_dups|apply sublist_take].
  - intros v Hv%subseteq_take. rewrite Hsame in Hv.
    apply elem_of_remove_dups, list_elem_of_fmap in Hv as (b & -> & Hb).
    eauto.
  - by rewrite length_take, Hsame.
  - intros Hfew b Hb. rewrite take_ge by by rewrite Hsame.
    rewrite Hsame. apply elem_of_remove_dups, list_elem_of_fmap. eauto.
Qed.

(** X29. A principal other than root gets no uuid from
    [search_bundle_uuids] while the table of bundle permissions is empty,
    not even the uuid of a bundle it owns: the access clause names that
    table outside of a sub-select, so the rows searched are pairs of a
    bundle row and a permission row. *)
Theorem search_bundle_uuids_needs_permission_rows self db user_id
    worksheet_uuid (keywords : list string) (l : list val) :
  user_id ≠ root_user_id self →
  group_bundle_permission db = [] →
  search_bundle_uuids self db user_id worksheet_uuid keywords
  = Return (Uuids l) →
  l = [].
Proof.
  intros Hroot Hempty Hrun. unfold search_bundle_uuids in Hrun.
  destruct (foldl search_keyword _ keywords) as [p|]; [|done].
  rewrite bool_decide_true in Hrun by done.
  destruct (sum_key p).
  { destruct (select_where _ _ _); [|done].
    destruct (window _ _ _) as [result|]; [|done].
    by destruct (if count p then _ else _). }
  unfold select_where in Hrun.
  set (clause := CAnd [CAnd (clauses p); access_clause self user_id]) in *.
  set (froms := remove_dups ([t_bundle] ++ tables_of clause)) in *.
  destruct (without_from froms clause); [done|].
  destruct (window _ _ _) as [result|] eqn:Hwin; [|done].
  destruct (count p); [done|]. injection Hrun as ->.
  destruct l as [|v l]; [done|]. exfalso.
  assert (Hv : v ∈ v :: l) by apply list_elem_of_here.
  apply (elem_of_window _ _ _ _ _ Hwin) in Hv.
  apply elem_of_remove_dups, list_elem_of_fmap in Hv as (e & _ & He).
  assert (Hrow : e ∈ filter (fun e => holds db froms clause e)
                            (product db froms no_row)).
  { apply elem_of_fetch_order.
    destruct (sort_key p); [by apply elem_of_order_by in He|done]. }
  apply list_elem_of_filter in Hrow as [_ Hprod].
  destruct (product_row db froms no_row e Hprod t_group_bundle_permission)
    as (r & Hr & _).
  - unfold froms. apply elem_of_remove_dups, elem_of_app. right.
    unfold clause. cbn [tables_of map concat].
    rewrite !elem_of_app. right. left.
    destruct user_id; cbn; set_solver.
  - cbn [rows_of] in Hr. rewrite Hempty in Hr. by apply elem_of_nil in Hr.
Qed.

End MoreSearch.

(** *** Owners and names *)
Section MoreOwners.
Context `{StorageEngine} `{PermissionLevels}.

(** A dictionary built from rows keeps for each key the value of the last
    row of that key. *)
Lemma lookup_foldl_insert {A V} (k : A → string) (v : A → V)
    (rows : list A) :
  ∀ (m : gmap string V) u,
  foldl (fun m row => <[k row := v row]> m) m rows !! u
  = match last (filter (fun r => k r = u) rows) with
    | Some r => Some (v r)
    | None => m !! u
    end.
Proof.
  induction rows as [|r rows IH]; intros m u; cbn [foldl]; [done|].
  rewrite IH, filter_cons.
  destruct (decide (k r = u)) as [<-|Hne].
  - rewrite last_cons, lookup_insert_eq.
    by destruct (last (filter _ rows)).
  - by rewrite lookup_insert_ne.
Qed.

Lemma bundle_owner_ids_lookup db (uuids : list string) :
  uuids ≠ [] →
  ∃ m, get_bundle_owner_ids db uuids = Owners m
       ∧ ∀ u, m !! u
              = if decide (u ∈ uuids)
                then b_owner_id
                     <$> last (filter (fun b => b_uuid b = u) (bundle db))
                else None.
Proof.
  intros Hne. unfold get_bundle_owner_ids.
  destruct uuids as [|x uuids'] eqn:E; [done|]. rewrite <- E. clear E Hne.
  eexists. split; [done|]. intros u.
  rewrite (lookup_foldl_insert b_uuid b_owner_id), lookup_empty.
  rewrite list_filter_filter.
  case_decide as Hu.
  - rewrite (list_filter_iff _ (fun b => b_uuid b = u)).
    2:{ intros b. rewrite (holds_in_strs _ _ _ _ _ (b_uuid b)) by done.
        naive_solver. }
    by destruct (last _).
  - rewrite filter_none; [done|].
    intros b _ [<- Hin]. apply Hu.
    by apply (holds_in_strs _ _ _ _ _ (b_uuid b)) in Hin.
Qed.

(** X24. [get_bundle_owner_ids] returns a list, not a dictionary, when it
    is given no uuid; otherwise it returns a dictionary whose keys are the
    given uuids that have a bundle row, each with the owner of the last
    such row. *)
Theorem get_bundle_owner_ids_last_row db (uuids : list string) :
  (uuids = [] → get_bundle_owner_ids db uuids = NoOwners)
  ∧ (uuids ≠ [] →
     ∃ m, get_bundle_owner_ids db uuids = Owners m
          ∧ ∀ u, m !! u
                 = if decide (u ∈ uuids)
                   then b_owner_id
                        <$> last (filter (fun b => b_uuid b = u) (bundle db))
                   else None).
Proof.
  split; [by intros ->|apply bundle_owner_ids_lookup].
Qed.

(** X25. With the owners that [get_bundle_owner_ids] returns,
    [get_user_bundle_permissions] gives the owner of a bundle all
    permissions on it, whatever the permission rows are. *)
Theorem owner_has_all_permissions self db user_id (bundle_uuids : list string)
    owner_ids o b :
  get_bundle_owner_ids db bundle_uuids = Owners owner_ids →
  o ∈ bundle_uuids →
  last (filter (fun b => b_uuid b = o) (bundle db)) = Some b →
  b_owner_id b = user_id →
  ∃ m,
    get_user_bundle_permissions self db user_id bundle_uuids owner_ids
    = Return m
    ∧ m !! o = Some GROUP_OBJECT_PERMISSION_ALL.
Proof.
  intros Hown Ho Hlast Howner.
  destruct (bundle_owner_ids_lookup db bundle_uuids) as (m0 & Hm0 & Hlk).
  { intros ->. by apply elem_of_nil in Ho. }
  rewrite Hm0 in Hown. injection Hown as <-.
  destruct (get_user_permissions_spec self db of_bundle user_id bundle_uuids
              m0) as (m & Hm & _ & Hpriv & _).
  exists m. split; [done|]. apply Hpriv; [done|].
  left. unfold recorded_owner. rewrite Hlk, decide_True, Hlast by done.
  cbn. by rewrite Howner.
Qed.

(** X26. [get_bundle_names] returns a list, not a dictionary, when it is
    given no uuid; otherwise it returns a dictionary whose keys are the
    given uuids that have a metadata row of key [name], each with the value
    of one of those rows, in whatever order the engine returns the rows:
    the name, for a bundle whose rows of key [name] all have the same
    value. *)
Theorem get_bundle_names_of_name_rows db (uuids : list string) :
  (uuids = [] → get_bundle_names db uuids = NoNames)
  ∧ (uuids ≠ [] →
     ∃ m, get_bundle_names db uuids = Names m
          ∧ (∀ u, is_Some (m !! u) ↔ u ∈ uuids ∧ name_rows db u ≠ [])
          ∧ (∀ u v, m !! u = Some v →
               ∃ r, r ∈ name_rows db u ∧ m_metadata_value r = v)
          ∧ (∀ u v, u ∈ uuids → name_rows db u ≠ [] →
               (∀ r, r ∈ name_rows db u → m_metadata_value r = v) →
               m !! u = Some v)).
Proof.
  split; [by intros ->|]. intros Hne. unfold get_bundle_names.
  destruct uuids as [|x uuids'] eqn:E; [done|]. rewrite <- E. clear E Hne.
  set (rows := fetch_metadata_order _).
  assert (Hrows : ∀ r u,
    r ∈ filter (fun r => m_bundle_uuid r = u) rows
    ↔ u ∈ uuids ∧ r ∈ name_rows db u).
  { intros r u. unfold rows, name_rows.
    rewrite list_elem_of_filter, fetch_metadata_order_perm.
    rewrite !list_elem_of_filter, holds_and2, andb_True.
    rewrite (holds_in_strs _ _ _ _ _ (m_bundle_uuid r)) by done.
    unfold holds. cbn [col_eq eval row_of_metadata sql_eq].
    rewrite bool_decide_spec.
    split.
    - intros (<- & (Hk & Hin) & Hr). injection Hk as Hk.
      by apply bool_decide_eq_true in Hk.
    - intros (Hin & (<- & Hk) & Hr). rewrite Hk.
      by rewrite bool_decide_true. }
  assert (Hlk : ∀ u,
    foldl (fun m row => <[m_bundle_uuid row := m_metadata_value row]> m)
          (∅ : gmap string string) rows !! u
    = m_metadata_value <$> last (filter (fun r => m_bundle_uuid r = u) rows)).
  { intros u.
    rewrite (lookup_foldl_insert m_bundle_uuid m_metadata_value), lookup_empty.
    by destruct (last _). }
  eexists. split; [done|]. split; [|split].
  - intros u. rewrite Hlk, fmap_is_Some. split.
    + intros [r Hr]. apply last_Some_elem_of, Hrows in Hr as [Hin Hr].
      split; [done|]. intros Hnil. rewrite Hnil in Hr.
      by apply elem_of_nil in Hr.
    + intros [Hin Hnames].
      destruct (name_rows db u) as [|r rs] eqn:En; [done|].
      assert (Hr : r ∈ filter (fun r => m_bundle_uuid r = u) rows).
      { apply Hrows. rewrite En. split; [done|apply list_elem_of_here]. }
      destruct (filter (fun r => m_bundle_uuid r = u) rows) as [|y ys] eqn:Ef;
        [by apply elem_of_nil in Hr|].
      rewrite last_cons. destruct (last ys); eauto.
  - intros u v. rewrite Hlk. intros (r & Hlast & ->)%fmap_Some.
    apply last_Some_elem_of, Hrows in Hlast as [_ Hr]. eauto.
  - intros u v Hin Hnames Hall. rewrite Hlk.
    destruct (name_rows db u) as [|r rs] eqn:En; [done|].
    assert (Hr : r ∈ filter (fun r => m_bundle_uuid r = u) rows).
    { apply Hrows. rewrite En. split; [done|apply list_elem_of_here]. }
    destruct (last (filter (fun r => m_bundle_uuid r = u) rows))
      as [y|] eqn:El.
    + cbn. f_equal. apply Hall. rewrite <- En.
      by apply last_Some_elem_of, Hrows in El as [_ Hy].
    + apply last_None in El. rewrite El in Hr. by apply elem_of_nil in Hr.
Qed.

Lemma maximum_of_unique floor (P : Z → Prop) v v' :
  maximum_of floor P v → maximum_of floor P v' → v = v'.
Proof.
  intros ([->|Hv] & Hf & Hub) ([->|Hv'] & Hf' & Hub'); try done.
  - apply Hub in Hv'. lia.
  - apply Hub' in Hv. lia.
  - apply Hub in Hv'. apply Hub' in Hv. lia.
Qed.

(** X27. What [get_user_permissions] returns depends on which objects it
    is asked about, not on their order or on how often each is given. *)
Theorem get_user_permissions_any_order self db table user_id
    (object_uuids object_uuids' : list string) owner_ids :
  (∀ o, o ∈ object_uuids ↔ o ∈ object_uuids') →
  get_user_permissions self db table user_id object_uuids owner_ids
  = get_user_permissions self db table user_id object_uuids' owner_ids.
Proof.
  intros Hsame.
  destruct (get_user_permissions_spec self db table user_id object_uuids
              owner_ids) as (m & -> & Hdom & Hpriv & Hrest).
  destruct (get_user_permissions_spec self db table user_id object_uuids'
              owner_ids) as (m' & -> & Hdom' & Hpriv' & Hrest').
  f_equal. apply map_eq. intros o.
  destruct (decide (o ∈ object_uuids)) as [Ho|Ho].
  - assert (Ho' : o ∈ object_uuids') by by apply Hsame.
    assert (Hdec : privileged self user_id owner_ids o
                   ∨ ¬ privileged self user_id owner_ids o).
    { unfold privileged.
      destruct (decide (user_id = recorded_owner owner_ids o)); [tauto|].
      destruct (decide (user_id = root_user_id self)); tauto. }
    destruct Hdec as [Hp|Hp].
    + by rewrite Hpriv, Hpriv'.
    + destruct (Hrest o Ho Hp) as (v & -> & Hv).
      destruct (Hrest' o Ho' Hp) as (v' & -> & Hv').
      f_equal. by eapply maximum_of_unique.
  - assert (Ho' : o ∉ object_uuids') by by rewrite <- Hsame.
    rewrite <- Hdom in Ho. rewrite <- Hdom' in Ho'.
    apply eq_None_not_Some in Ho, Ho'. congruence.
Qed.

End MoreOwners.

(** *** The properties on the sample data *)

Example add_shadow_worksheet_items_sample :
  add_shadow_worksheet_items "a" "c" Reference.lineage_db
  = (Return tt,
     set_worksheet_item
       (worksheet_item Reference.lineage_db
        ++ [mk_item 4 "w" (Some "c") None (Some EmptyString) "bundle" None])
       5 Reference.lineage_db).
Proof. vm_compute. reflexivity. Qed.

Lemma add_shadow_worksheet_items_follows_witness :
  ∃ db',
    add_shadow_worksheet_items "a" "c" Reference.lineage_db = (Return tt, db')
    ∧ worksheet_item db'
      = worksheet_item Reference.lineage_db
        ++ imap (fun k i => stored (next_item_id Reference.lineage_db
                                    + Z.of_nat k) (shadow "c" i))
                (occurrences Reference.lineage_db "a")
    ∧ hosts_of db' "c"
      = hosts_of Reference.lineage_db "c" ++ hosts_of Reference.lineage_db "a"
    ∧ ∀ b, b ≠ "c" → hosts_of db' b = hosts_of Reference.lineage_db b.
Proof.
  apply (add_shadow_worksheet_items_follows Reference.lineage_db "a" "c").
  discriminate.
Defined.

Lemma add_permission_then_get_witness :
  get_group_permission Samples.granted_db of_bundle "g1" "r"
  = (if decide (pair_rows Reference.permission_db of_bundle "g1" "r" = [])
     then 2
     else get_group_permission Reference.permission_db of_bundle "g1" "r")
  ∧ ∀ table' g o, (table', g, o) ≠ (of_bundle, "g1", "r") →
      get_group_permission Samples.granted_db table' g o
      = get_group_permission Reference.permission_db table' g o.
Proof.
  apply (add_permission_then_get Reference.permission_db of_bundle "g1" "r" 2
           (mk_permission "g1" "r" 2) Samples.granted_db).
  - reflexivity.
  - exists (mk_group "g1" "team" (Some "v")). split; [|reflexivity].
    apply list_elem_of_further, list_elem_of_here.
Defined.

Example permissions_after_grant :
  get_group_permission Reference.permission_db of_bundle "g1" "r" = 0
  ∧ get_group_permission Samples.granted_db of_bundle "g1" "r" = 2
  ∧ get_group_permission
      (update_permission of_bundle "g1" "q" 1 Reference.permission_db).2
      of_bundle "g1" "q" = 1
  ∧ get_group_permission
      (delete_permission of_bundle "g1" "q" Reference.permission_db).2
      of_bundle "g1" "q" = 0.
Proof. vm_compute. done. Qed.

Lemma add_permission_never_lowers_witness :
  ∃ m m',
    get_user_permissions Reference.sample_model Reference.permission_db
      of_bundle (Some "u") ["o"; "r"] {["o" := Some "v"; "r" := Some "u"]}
    = Return m
    ∧ get_user_permissions Reference.sample_model Samples.granted_db
        of_bundle (Some "u") ["o"; "r"] {["o" := Some "v"; "r" := Some "u"]}
      = Return m'
    ∧ ∀ o v, m !! o = Some v → ∃ v', m' !! o = Some v' ∧ v ≤ v'.
Proof.
  apply (add_permission_never_lowers Reference.sample_model
           Reference.permission_db of_bundle "g1" "r" 2
           (mk_permission "g1" "r" 2) Samples.granted_db).
  reflexivity.
Defined.

Lemma add_user_in_group_then_groups_witness :
  mk_user_group "g1" "x" false = mk_user_group "g1" "x" false
  ∧ _get_user_groups Reference.sample_model Samples.joined_db (Some "x")
    = _get_user_groups Reference.sample_model Reference.permission_db
        (Some "x") ++ ["g1"]
  ∧ ∀ other, other ≠ Some "x" →
      _get_user_groups Reference.sample_model Samples.joined_db other
      = _get_user_groups Reference.sample_model Reference.permission_db other.
Proof.
  apply (add_user_in_group_then_groups Reference.sample_model
           Reference.permission_db "x" "g1" false
           (mk_user_group "g1" "x" false) Samples.joined_db).
  reflexivity.
Defined.

Lemma member_has_group_permission_witness :
  ∃ m v,
    get_user_permissions Reference.sample_model Reference.permission_db
      of_bundle (Some "u") ["q"] {["q" := None]} = Return m
    ∧ m !! "q" = Some v
    ∧ get_group_permission Reference.permission_db of_bundle "g1" "q" ≤ v.
Proof.
  apply (member_has_group_permission Reference.sample_model
           Reference.permission_db of_bundle (Some "u") ["q"] {["q" := None]}
           "g1" "q").
  - vm_compute. apply list_elem_of_further, list_elem_of_here.
  - apply list_elem_of_here.
  - intros [Hp|Hp]; vm_compute in Hp; discriminate.
Defined.


Lemma search_bundle_uuids_default_limit_witness :
  NoDup [VStr "o"; VStr "q"; VStr "r"]
  ∧ (length [VStr "o"; VStr "q"; VStr "r"] ≤ 10)%nat.
Proof.
  apply (search_bundle_uuids_default_limit Reference.sample_model
           Reference.permission_db (Some "u") None ["type=run"]).
  - intros keyword key value ->%list_elem_of_singleton Hmatch.
    vm_compute in Hmatch. injection Hmatch as <- _. discriminate.
  - vm_compute. reflexivity.
Defined.

Lemma search_bundle_uuids_malformed_number_witness :
  ∃ msg,
    search_bundle_uuids Reference.sample_model Reference.permission_db
      (Some "u") None ["type=run"; ".offset=abc"]
    = Raise (ValueError msg).
Proof.
  apply (search_bundle_uuids_malformed_number Reference.sample_model
           Reference.permission_db (Some "u") None
           ["type=run"; ".offset=abc"] ".offset=abc" ".offset" "abc").
  - apply list_elem_of_further, list_elem_of_here.
  - vm_compute. reflexivity.
  - by left.
  - intros z Hz. vm_compute in Hz. discriminate.
Defined.

Lemma owner_has_all_permissions_witness :
  ∃ m,
    get_user_bundle_permissions Reference.sample_model
      Reference.permission_db (Some "u") ["o"; "r"]
      {["o" := Some "v"; "r" := Some "u"]} = Return m
    ∧ m !! "r" = Some GROUP_OBJECT_PERMISSION_ALL.
Proof.
  apply (owner_has_all_permissions Reference.sample_model
           Reference.permission_db (Some "u") ["o"; "r"]
           {["o" := Some "v"; "r" := Some "u"]} "r"
           (mk_bundle 3 "r" "run" None None "ready" (Some "u"))).
  - vm_compute. reflexivity.
  - apply list_elem_of_further, list_elem_of_here.
  - vm_compute. reflexivity.
  - reflexivity.
Defined.

Example get_bundle_names_sample :
  get_bundle_names Reference.lineage_db ["a"; "c"]
  = Names {["a" := "prog"]}
  ∧ get_bundle_names Reference.lineage_db [] = NoNames.
Proof. vm_compute. done. Qed.

Lemma get_user_permissions_any_order_witness :
  get_user_permissions Reference.sample_model Reference.permission_db
    of_bundle (Some "u") ["o"; "q"] {["o" := Some "v"]}
  = get_user_permissions Reference.sample_model Reference.permission_db
      of_bundle (Some "u") ["q"; "o"; "q"] {["o" := Some "v"]}.
Proof.
  apply (get_user_permissions_any_order Reference.sample_model
           Reference.permission_db of_bundle (Some "u") ["o"; "q"]
           ["q"; "o"; "q"] {["o" := Some "v"]}).
  intros o. rewrite !elem_of_cons, !elem_of_nil. tauto.
Defined.

Example search_own_bundle_unshared :
  search_bundle_uuids Reference.sample_model Samples.unshared_db (Some "u")
    None ["uuid=r"]
  = Return (Uuids [])
  ∧ search_bundle_uuids Reference.sample_model Reference.permission_db
      (Some "u") None ["uuid=r"]
    = Return (Uuids [VStr "r"]).
Proof. vm_compute. done. Qed.

Lemma search_bundle_uuids_needs_permission_rows_witness :
  @nil val = [].
Proof.
  apply (search_bundle_uuids_needs_permission_rows Reference.sample_model
           Samples.unshared_db (Some "u") None ["uuid=r"] []).
  - discriminate.
  - reflexivity.
  - vm_compute. reflexivity.
Defined.

Lemma batch_get_bundles_empty_collection_witness :
  batch_get_bundles Reference.permission_db
    [(c_bundle_state, PyScalar (VStr "ready")); (c_bundle_uuid, PyList [])]
  = Return []
  ∧ batch_get_user_in_group Reference.permission_db
      [(c_ug_user_id, PyScalar (VStr "u")); (c_ug_group_uuid, PySet [])]
    = [].
Proof.
  split.
  - apply (proj1 (batch_get_bundles_empty_collection Reference.permission_db)
             [(c_bundle_state, PyScalar (VStr "ready"));
              (c_bundle_uuid, PyList [])] c_bundle_uuid (PyList [])).
    + intros key value [Hin|Hin%list_elem_of_singleton]%elem_of_cons;
        by injection Hin as -> _.
    + apply list_elem_of_further, list_elem_of_here.
    + by left.
  - apply (proj2 (batch_get_bundles_empty_collection Reference.permission_db)
             [(c_ug_user_id, PyScalar (VStr "u"));
              (c_ug_group_uuid, PySet [])] c_ug_group_uuid (PySet [])).
    + intros key value [Hin|Hin%list_elem_of_singleton]%elem_of_cons;
        by injection Hin as -> _.
    + apply list_elem_of_further, list_elem_of_here.
    + right. by left.
Defined.
